(** * News Context Analyzer: a shallow embedding of [main.py]

    The development follows the source file top-down: Python strings and
    the string methods the server calls, the parsed documents handed to
    it by its HTTP, JSON and HTML libraries, the retrying fetch
    ([make_request_with_retry]), the result normalisers
    ([extract_publisher], [format_date]), the article extractor
    ([extract_article_content]) and the three search tools.  Theorems
    about each part come after all definitions. *)

From Stdlib Require Import ZArith NArith Ascii String List Lia Bool.
From stdpp Require Import gmap strings list fin_maps.

Set Default Proof Using "Type".
Set Warnings "-register-all".
Local Open Scope N_scope.

(** ** Python [str]

    A Python string is a sequence of Unicode code points; [len] and
    slicing count code points, so that is what the model keeps. *)

Abbreviation char := N (only parsing).
Abbreviation str := (list N) (only parsing).

Module Py.

(** Source literals are written as Rocq byte strings and decoded from
    UTF-8 the way the Python parser reads the source file. *)
Fixpoint utf8_decode (bs : list N) : str :=
  match bs with
  | [] => []
  | b0 :: r0 =>
      if b0 <? 0x80 then b0 :: utf8_decode r0
      else match r0 with
      | [] => [b0]
      | b1 :: r1 =>
          if b0 <? 0xE0 then
            N.lor (N.shiftl (N.land b0 0x1F) 6) (N.land b1 0x3F)
              :: utf8_decode r1
          else match r1 with
          | [] => [b0; b1]
          | b2 :: r2 =>
              if b0 <? 0xF0 then
                N.lor (N.shiftl (N.land b0 0x0F) 12)
                  (N.lor (N.shiftl (N.land b1 0x3F) 6) (N.land b2 0x3F))
                  :: utf8_decode r2
              else match r2 with
              | [] => [b0; b1; b2]
              | b3 :: r3 =>
                  N.lor (N.shiftl (N.land b0 0x07) 18)
                    (N.lor (N.shiftl (N.land b1 0x3F) 12)
                       (N.lor (N.shiftl (N.land b2 0x3F) 6) (N.land b3 0x3F)))
                    :: utf8_decode r3
              end
          end
      end
  end.

Definition lit (s : string) : str :=
  utf8_decode (List.map N_of_ascii (list_ascii_of_string s)).

(** [str.isspace] on one character; [\s] in a [str] pattern and
    [str.strip()] use the same table. *)
Definition isspace (c : char) : bool :=
  ((9 <=? c) && (c <=? 13)) || ((28 <=? c) && (c <=? 32))
  || (c =? 0x85) || (c =? 0xA0) || (c =? 0x1680)
  || ((0x2000 <=? c) && (c <=? 0x200A))
  || (c =? 0x2028) || (c =? 0x2029) || (c =? 0x202F)
  || (c =? 0x205F) || (c =? 0x3000).

Fixpoint lstrip (s : str) : str :=
  match s with
  | [] => []
  | c :: r => if isspace c then lstrip r else s
  end.

Definition rstrip (s : str) : str := rev (lstrip (rev s)).

(** [s.strip()] *)
Definition strip (s : str) : str := rstrip (lstrip s).

(** [re.sub(r'\s+', ' ', s)]: every maximal run of whitespace becomes
    one space.  [in_run] says the previous character was whitespace. *)
Fixpoint re_sub_ws (in_run : bool) (s : str) : str :=
  match s with
  | [] => []
  | c :: r =>
      if isspace c
      then (if in_run then re_sub_ws true r else 32 :: re_sub_ws true r)
      else c :: re_sub_ws false r
  end.

Fixpoint eqb (a b : str) : bool :=
  match a, b with
  | [], [] => true
  | x :: a', y :: b' => (x =? y) && eqb a' b'
  | _, _ => false
  end.

(** [s.startswith(p)] *)
Fixpoint startswith (p s : str) : bool :=
  match p, s with
  | [], _ => true
  | x :: p', y :: s' => (x =? y) && startswith p' s'
  | _ :: _, [] => false
  end.

(** [sub in s] *)
Fixpoint contains (sub s : str) : bool :=
  startswith sub s ||
  match s with
  | [] => false
  | _ :: r => contains sub r
  end.

(** [s.split(sep)] for a non-empty [sep]: scan from the left, cut at
    each occurrence and resume after it.  [skip] counts the characters
    of a separator still to be passed over, [cur] is the segment being
    read, reversed. *)
Fixpoint split_go (sep : str) (skip : nat) (cur : str) (s : str) : list str :=
  match s with
  | [] => [rev cur]
  | c :: r =>
      match skip with
      | S k => split_go sep k cur r
      | O =>
          if startswith sep s
          then rev cur :: split_go sep (pred (length sep)) [] r
          else split_go sep 0 (c :: cur) r
      end
  end.

Definition split (sep s : str) : list str := split_go sep 0 [] s.

(** [s.replace(old, new)] for a non-empty [old]. *)
Fixpoint replace_go (old new : str) (skip : nat) (s : str) : str :=
  match s with
  | [] => []
  | c :: r =>
      match skip with
      | S k => replace_go old new k r
      | O =>
          if startswith old s
          then new ++ replace_go old new (pred (length old)) r
          else c :: replace_go old new 0 r
      end
  end.

Definition replace (old new s : str) : str := replace_go old new 0 s.

(** [sep.join(parts)] *)
Fixpoint join (sep : str) (parts : list str) : str :=
  match parts with
  | [] => []
  | [p] => p
  | p :: rest => p ++ sep ++ join sep rest
  end.

(** [str(n)] for an [int]. *)
Definition digit (d : N) : char := 48 + d.

Fixpoint digits_go (fuel : nat) (n : N) (acc : str) : str :=
  match fuel with
  | O => acc
  | S f =>
      let acc' := digit (n mod 10) :: acc in
      if n <? 10 then acc' else digits_go f (n / 10) acc'
  end.

Definition str_of_N (n : N) : str := digits_go (S (N.to_nat (N.log2 n))) n [].

Definition str_of_Z (z : Z) : str :=
  if (z <? 0)%Z then 45 :: str_of_N (Z.to_N (- z)) else str_of_N (Z.to_N z).

Definition str_of_nat (n : nat) : str := str_of_N (N.of_nat n).

(** [s.partition(c)] for a separator of one character: what comes
    before its first occurrence, whether there is one, and what comes
    after it. *)
Fixpoint partition (c : char) (s : str) : str * bool * str :=
  match s with
  | [] => ([], false, [])
  | x :: r =>
      if x =? c then ([], true, r)
      else let '(before, found, after) := partition c r in (x :: before, found, after)
  end.

(** [s.rpartition(c)[2]]: what comes after the last occurrence of [c],
    all of [s] when there is none. *)
Fixpoint after_last (c : char) (s : str) : str :=
  match s with
  | [] => []
  | x :: r =>
      if existsb (N.eqb c) r then after_last c r
      else if x =? c then r else s
  end.

(** *** Character tables

    The tables are those of CPython 3.11 (Unicode 14.0). *)

(** The decimal digits (category Nd) come in blocks of ten consecutive
    characters for the values 0 to 9; these are the first characters of
    the blocks.  [\d] in a [str] pattern matches these characters and
    [int] reads them. *)
Definition DECIMAL_DIGITS : list N :=
  [
   0x30; 0x660; 0x6F0; 0x7C0; 0x966; 0x9E6; 0xA66; 0xAE6; 0xB66; 0xBE6;
   0xC66; 0xCE6; 0xD66; 0xDE6; 0xE50; 0xED0; 0xF20; 0x1040; 0x1090; 0x17E0;
   0x1810; 0x1946; 0x19D0; 0x1A80; 0x1A90; 0x1B50; 0x1BB0; 0x1C40; 0x1C50; 0xA620;
   0xA8D0; 0xA900; 0xA9D0; 0xA9F0; 0xAA50; 0xABF0; 0xFF10; 0x104A0; 0x10D30; 0x11066;
   0x110F0; 0x11136; 0x111D0; 0x112F0; 0x11450; 0x114D0; 0x11650; 0x116C0; 0x11730; 0x118E0;
   0x11950; 0x11C50; 0x11D50; 0x11DA0; 0x16A60; 0x16AC0; 0x16B50; 0x1D7CE; 0x1D7D8; 0x1D7E2;
   0x1D7EC; 0x1D7F6; 0x1E140; 0x1E2F0; 0x1E950; 0x1FBF0
  ].

Fixpoint block_of (blocks : list N) (c : char) : option N :=
  match blocks with
  | [] => None
  | b :: rest => if (b <=? c) && (c <? b + 10) then Some b else block_of rest c
  end.

(** The value of [c] as a decimal digit, when it is one. *)
Definition decimal (c : char) : option N :=
  option_map (fun b => c - b) (block_of DECIMAL_DIGITS c).

(** The ranges of the characters [str.isprintable] refuses. *)
Definition NONPRINTABLE : list (N * N) :=
  [
   (0x0, 0x1F); (0x7F, 0xA0); (0xAD, 0xAD); (0x378, 0x379); (0x380, 0x383); (0x38B, 0x38B);
   (0x38D, 0x38D); (0x3A2, 0x3A2); (0x530, 0x530); (0x557, 0x558); (0x58B, 0x58C); (0x590, 0x590);
   (0x5C8, 0x5CF); (0x5EB, 0x5EE); (0x5F5, 0x605); (0x61C, 0x61C); (0x6DD, 0x6DD); (0x70E, 0x70F);
   (0x74B, 0x74C); (0x7B2, 0x7BF); (0x7FB, 0x7FC); (0x82E, 0x82F); (0x83F, 0x83F); (0x85C, 0x85D);
   (0x85F, 0x85F); (0x86B, 0x86F); (0x88F, 0x897); (0x8E2, 0x8E2); (0x984, 0x984); (0x98D, 0x98E);
   (0x991, 0x992); (0x9A9, 0x9A9); (0x9B1, 0x9B1); (0x9B3, 0x9B5); (0x9BA, 0x9BB); (0x9C5, 0x9C6);
   (0x9C9, 0x9CA); (0x9CF, 0x9D6); (0x9D8, 0x9DB); (0x9DE, 0x9DE); (0x9E4, 0x9E5); (0x9FF, 0xA00);
   (0xA04, 0xA04); (0xA0B, 0xA0E); (0xA11, 0xA12); (0xA29, 0xA29); (0xA31, 0xA31); (0xA34, 0xA34);
   (0xA37, 0xA37); (0xA3A, 0xA3B); (0xA3D, 0xA3D); (0xA43, 0xA46); (0xA49, 0xA4A); (0xA4E, 0xA50);
   (0xA52, 0xA58); (0xA5D, 0xA5D); (0xA5F, 0xA65); (0xA77, 0xA80); (0xA84, 0xA84); (0xA8E, 0xA8E);
   (0xA92, 0xA92); (0xAA9, 0xAA9); (0xAB1, 0xAB1); (0xAB4, 0xAB4); (0xABA, 0xABB); (0xAC6, 0xAC6);
   (0xACA, 0xACA); (0xACE, 0xACF); (0xAD1, 0xADF); (0xAE4, 0xAE5); (0xAF2, 0xAF8); (0xB00, 0xB00);
   (0xB04, 0xB04); (0xB0D, 0xB0E); (0xB11, 0xB12); (0xB29, 0xB29); (0xB31, 0xB31); (0xB34, 0xB34);
   (0xB3A, 0xB3B); (0xB45, 0xB46); (0xB49, 0xB4A); (0xB4E, 0xB54); (0xB58, 0xB5B); (0xB5E, 0xB5E);
   (0xB64, 0xB65); (0xB78, 0xB81); (0xB84, 0xB84); (0xB8B, 0xB8D); (0xB91, 0xB91); (0xB96, 0xB98);
   (0xB9B, 0xB9B); (0xB9D, 0xB9D); (0xBA0, 0xBA2); (0xBA5, 0xBA7); (0xBAB, 0xBAD); (0xBBA, 0xBBD);
   (0xBC3, 0xBC5); (0xBC9, 0xBC9); (0xBCE, 0xBCF); (0xBD1, 0xBD6); (0xBD8, 0xBE5); (0xBFB, 0xBFF);
   (0xC0D, 0xC0D); (0xC11, 0xC11); (0xC29, 0xC29); (0xC3A, 0xC3B); (0xC45, 0xC45); (0xC49, 0xC49);
   (0xC4E, 0xC54); (0xC57, 0xC57); (0xC5B, 0xC5C); (0xC5E, 0xC5F); (0xC64, 0xC65); (0xC70, 0xC76);
   (0xC8D, 0xC8D); (0xC91, 0xC91); (0xCA9, 0xCA9); (0xCB4, 0xCB4); (0xCBA, 0xCBB); (0xCC5, 0xCC5);
   (0xCC9, 0xCC9); (0xCCE, 0xCD4); (0xCD7, 0xCDC); (0xCDF, 0xCDF); (0xCE4, 0xCE5); (0xCF0, 0xCF0);
   (0xCF3, 0xCFF); (0xD0D, 0xD0D); (0xD11, 0xD11); (0xD45, 0xD45); (0xD49, 0xD49); (0xD50, 0xD53);
   (0xD64, 0xD65); (0xD80, 0xD80); (0xD84, 0xD84); (0xD97, 0xD99); (0xDB2, 0xDB2); (0xDBC, 0xDBC);
   (0xDBE, 0xDBF); (0xDC7, 0xDC9); (0xDCB, 0xDCE); (0xDD5, 0xDD5); (0xDD7, 0xDD7); (0xDE0, 0xDE5);
   (0xDF0, 0xDF1); (0xDF5, 0xE00); (0xE3B, 0xE3E); (0xE5C, 0xE80); (0xE83, 0xE83); (0xE85, 0xE85);
   (0xE8B, 0xE8B); (0xEA4, 0xEA4); (0xEA6, 0xEA6); (0xEBE, 0xEBF); (0xEC5, 0xEC5); (0xEC7, 0xEC7);
   (0xECE, 0xECF); (0xEDA, 0xEDB); (0xEE0, 0xEFF); (0xF48, 0xF48); (0xF6D, 0xF70); (0xF98, 0xF98);
   (0xFBD, 0xFBD); (0xFCD, 0xFCD); (0xFDB, 0xFFF); (0x10C6, 0x10C6); (0x10C8, 0x10CC); (0x10CE, 0x10CF);
   (0x1249, 0x1249); (0x124E, 0x124F); (0x1257, 0x1257); (0x1259, 0x1259); (0x125E, 0x125F); (0x1289, 0x1289);
   (0x128E, 0x128F); (0x12B1, 0x12B1); (0x12B6, 0x12B7); (0x12BF, 0x12BF); (0x12C1, 0x12C1); (0x12C6, 0x12C7);
   (0x12D7, 0x12D7); (0x1311, 0x1311); (0x1316, 0x1317); (0x135B, 0x135C); (0x137D, 0x137F); (0x139A, 0x139F);
   (0x13F6, 0x13F7); (0x13FE, 0x13FF); (0x1680, 0x1680); (0x169D, 0x169F); (0x16F9, 0x16FF); (0x1716, 0x171E);
   (0x1737, 0x173F); (0x1754, 0x175F); (0x176D, 0x176D); (0x1771, 0x1771); (0x1774, 0x177F); (0x17DE, 0x17DF);
   (0x17EA, 0x17EF); (0x17FA, 0x17FF); (0x180E, 0x180E); (0x181A, 0x181F); (0x1879, 0x187F); (0x18AB, 0x18AF);
   (0x18F6, 0x18FF); (0x191F, 0x191F); (0x192C, 0x192F); (0x193C, 0x193F); (0x1941, 0x1943); (0x196E, 0x196F);
   (0x1975, 0x197F); (0x19AC, 0x19AF); (0x19CA, 0x19CF); (0x19DB, 0x19DD); (0x1A1C, 0x1A1D); (0x1A5F, 0x1A5F);
   (0x1A7D, 0x1A7E); (0x1A8A, 0x1A8F); (0x1A9A, 0x1A9F); (0x1AAE, 0x1AAF); (0x1ACF, 0x1AFF); (0x1B4D, 0x1B4F);
   (0x1B7F, 0x1B7F); (0x1BF4, 0x1BFB); (0x1C38, 0x1C3A); (0x1C4A, 0x1C4C); (0x1C89, 0x1C8F); (0x1CBB, 0x1CBC);
   (0x1CC8, 0x1CCF); (0x1CFB, 0x1CFF); (0x1F16, 0x1F17); (0x1F1E, 0x1F1F); (0x1F46, 0x1F47); (0x1F4E, 0x1F4F);
   (0x1F58, 0x1F58); (0x1F5A, 0x1F5A); (0x1F5C, 0x1F5C); (0x1F5E, 0x1F5E); (0x1F7E, 0x1F7F); (0x1FB5, 0x1FB5);
   (0x1FC5, 0x1FC5); (0x1FD4, 0x1FD5); (0x1FDC, 0x1FDC); (0x1FF0, 0x1FF1); (0x1FF5, 0x1FF5); (0x1FFF, 0x200F);
   (0x2028, 0x202F); (0x205F, 0x206F); (0x2072, 0x2073); (0x208F, 0x208F); (0x209D, 0x209F); (0x20C1, 0x20CF);
   (0x20F1, 0x20FF); (0x218C, 0x218F); (0x2427, 0x243F); (0x244B, 0x245F); (0x2B74, 0x2B75); (0x2B96, 0x2B96);
   (0x2CF4, 0x2CF8); (0x2D26, 0x2D26); (0x2D28, 0x2D2C); (0x2D2E, 0x2D2F); (0x2D68, 0x2D6E); (0x2D71, 0x2D7E);
   (0x2D97, 0x2D9F); (0x2DA7, 0x2DA7); (0x2DAF, 0x2DAF); (0x2DB7, 0x2DB7); (0x2DBF, 0x2DBF); (0x2DC7, 0x2DC7);
   (0x2DCF, 0x2DCF); (0x2DD7, 0x2DD7); (0x2DDF, 0x2DDF); (0x2E5E, 0x2E7F); (0x2E9A, 0x2E9A); (0x2EF4, 0x2EFF);
   (0x2FD6, 0x2FEF); (0x2FFC, 0x3000); (0x3040, 0x3040); (0x3097, 0x3098); (0x3100, 0x3104); (0x3130, 0x3130);
   (0x318F, 0x318F); (0x31E4, 0x31EF); (0x321F, 0x321F); (0xA48D, 0xA48F); (0xA4C7, 0xA4CF); (0xA62C, 0xA63F);
   (0xA6F8, 0xA6FF); (0xA7CB, 0xA7CF); (0xA7D2, 0xA7D2); (0xA7D4, 0xA7D4); (0xA7DA, 0xA7F1); (0xA82D, 0xA82F);
   (0xA83A, 0xA83F); (0xA878, 0xA87F); (0xA8C6, 0xA8CD); (0xA8DA, 0xA8DF); (0xA954, 0xA95E); (0xA97D, 0xA97F);
   (0xA9CE, 0xA9CE); (0xA9DA, 0xA9DD); (0xA9FF, 0xA9FF); (0xAA37, 0xAA3F); (0xAA4E, 0xAA4F); (0xAA5A, 0xAA5B);
   (0xAAC3, 0xAADA); (0xAAF7, 0xAB00); (0xAB07, 0xAB08); (0xAB0F, 0xAB10); (0xAB17, 0xAB1F); (0xAB27, 0xAB27);
   (0xAB2F, 0xAB2F); (0xAB6C, 0xAB6F); (0xABEE, 0xABEF); (0xABFA, 0xABFF); (0xD7A4, 0xD7AF); (0xD7C7, 0xD7CA);
   (0xD7FC, 0xF8FF); (0xFA6E, 0xFA6F); (0xFADA, 0xFAFF); (0xFB07, 0xFB12); (0xFB18, 0xFB1C); (0xFB37, 0xFB37);
   (0xFB3D, 0xFB3D); (0xFB3F, 0xFB3F); (0xFB42, 0xFB42); (0xFB45, 0xFB45); (0xFBC3, 0xFBD2); (0xFD90, 0xFD91);
   (0xFDC8, 0xFDCE); (0xFDD0, 0xFDEF); (0xFE1A, 0xFE1F); (0xFE53, 0xFE53); (0xFE67, 0xFE67); (0xFE6C, 0xFE6F);
   (0xFE75, 0xFE75); (0xFEFD, 0xFF00); (0xFFBF, 0xFFC1); (0xFFC8, 0xFFC9); (0xFFD0, 0xFFD1); (0xFFD8, 0xFFD9);
   (0xFFDD, 0xFFDF); (0xFFE7, 0xFFE7); (0xFFEF, 0xFFFB); (0xFFFE, 0xFFFF); (0x1000C, 0x1000C); (0x10027, 0x10027);
   (0x1003B, 0x1003B); (0x1003E, 0x1003E); (0x1004E, 0x1004F); (0x1005E, 0x1007F); (0x100FB, 0x100FF); (0x10103, 0x10106);
   (0x10134, 0x10136); (0x1018F, 0x1018F); (0x1019D, 0x1019F); (0x101A1, 0x101CF); (0x101FE, 0x1027F); (0x1029D, 0x1029F);
   (0x102D1, 0x102DF); (0x102FC, 0x102FF); (0x10324, 0x1032C); (0x1034B, 0x1034F); (0x1037B, 0x1037F); (0x1039E, 0x1039E);
   (0x103C4, 0x103C7); (0x103D6, 0x103FF); (0x1049E, 0x1049F); (0x104AA, 0x104AF); (0x104D4, 0x104D7); (0x104FC, 0x104FF);
   (0x10528, 0x1052F); (0x10564, 0x1056E); (0x1057B, 0x1057B); (0x1058B, 0x1058B); (0x10593, 0x10593); (0x10596, 0x10596);
   (0x105A2, 0x105A2); (0x105B2, 0x105B2); (0x105BA, 0x105BA); (0x105BD, 0x105FF); (0x10737, 0x1073F); (0x10756, 0x1075F);
   (0x10768, 0x1077F); (0x10786, 0x10786); (0x107B1, 0x107B1); (0x107BB, 0x107FF); (0x10806, 0x10807); (0x10809, 0x10809);
   (0x10836, 0x10836); (0x10839, 0x1083B); (0x1083D, 0x1083E); (0x10856, 0x10856); (0x1089F, 0x108A6); (0x108B0, 0x108DF);
   (0x108F3, 0x108F3); (0x108F6, 0x108FA); (0x1091C, 0x1091E); (0x1093A, 0x1093E); (0x10940, 0x1097F); (0x109B8, 0x109BB);
   (0x109D0, 0x109D1); (0x10A04, 0x10A04); (0x10A07, 0x10A0B); (0x10A14, 0x10A14); (0x10A18, 0x10A18); (0x10A36, 0x10A37);
   (0x10A3B, 0x10A3E); (0x10A49, 0x10A4F); (0x10A59, 0x10A5F); (0x10AA0, 0x10ABF); (0x10AE7, 0x10AEA); (0x10AF7, 0x10AFF);
   (0x10B36, 0x10B38); (0x10B56, 0x10B57); (0x10B73, 0x10B77); (0x10B92, 0x10B98); (0x10B9D, 0x10BA8); (0x10BB0, 0x10BFF);
   (0x10C49, 0x10C7F); (0x10CB3, 0x10CBF); (0x10CF3, 0x10CF9); (0x10D28, 0x10D2F); (0x10D3A, 0x10E5F); (0x10E7F, 0x10E7F);
   (0x10EAA, 0x10EAA); (0x10EAE, 0x10EAF); (0x10EB2, 0x10EFF); (0x10F28, 0x10F2F); (0x10F5A, 0x10F6F); (0x10F8A, 0x10FAF);
   (0x10FCC, 0x10FDF); (0x10FF7, 0x10FFF); (0x1104E, 0x11051); (0x11076, 0x1107E); (0x110BD, 0x110BD); (0x110C3, 0x110CF);
   (0x110E9, 0x110EF); (0x110FA, 0x110FF); (0x11135, 0x11135); (0x11148, 0x1114F); (0x11177, 0x1117F); (0x111E0, 0x111E0);
   (0x111F5, 0x111FF); (0x11212, 0x11212); (0x1123F, 0x1127F); (0x11287, 0x11287); (0x11289, 0x11289); (0x1128E, 0x1128E);
   (0x1129E, 0x1129E); (0x112AA, 0x112AF); (0x112EB, 0x112EF); (0x112FA, 0x112FF); (0x11304, 0x11304); (0x1130D, 0x1130E);
   (0x11311, 0x11312); (0x11329, 0x11329); (0x11331, 0x11331); (0x11334, 0x11334); (0x1133A, 0x1133A); (0x11345, 0x11346);
   (0x11349, 0x1134A); (0x1134E, 0x1134F); (0x11351, 0x11356); (0x11358, 0x1135C); (0x11364, 0x11365); (0x1136D, 0x1136F);
   (0x11375, 0x113FF); (0x1145C, 0x1145C); (0x11462, 0x1147F); (0x114C8, 0x114CF); (0x114DA, 0x1157F); (0x115B6, 0x115B7);
   (0x115DE, 0x115FF); (0x11645, 0x1164F); (0x1165A, 0x1165F); (0x1166D, 0x1167F); (0x116BA, 0x116BF); (0x116CA, 0x116FF);
   (0x1171B, 0x1171C); (0x1172C, 0x1172F); (0x11747, 0x117FF); (0x1183C, 0x1189F); (0x118F3, 0x118FE); (0x11907, 0x11908);
   (0x1190A, 0x1190B); (0x11914, 0x11914); (0x11917, 0x11917); (0x11936, 0x11936); (0x11939, 0x1193A); (0x11947, 0x1194F);
   (0x1195A, 0x1199F); (0x119A8, 0x119A9); (0x119D8, 0x119D9); (0x119E5, 0x119FF); (0x11A48, 0x11A4F); (0x11AA3, 0x11AAF);
   (0x11AF9, 0x11BFF); (0x11C09, 0x11C09); (0x11C37, 0x11C37); (0x11C46, 0x11C4F); (0x11C6D, 0x11C6F); (0x11C90, 0x11C91);
   (0x11CA8, 0x11CA8); (0x11CB7, 0x11CFF); (0x11D07, 0x11D07); (0x11D0A, 0x11D0A); (0x11D37, 0x11D39); (0x11D3B, 0x11D3B);
   (0x11D3E, 0x11D3E); (0x11D48, 0x11D4F); (0x11D5A, 0x11D5F); (0x11D66, 0x11D66); (0x11D69, 0x11D69); (0x11D8F, 0x11D8F);
   (0x11D92, 0x11D92); (0x11D99, 0x11D9F); (0x11DAA, 0x11EDF); (0x11EF9, 0x11FAF); (0x11FB1, 0x11FBF); (0x11FF2, 0x11FFE);
   (0x1239A, 0x123FF); (0x1246F, 0x1246F); (0x12475, 0x1247F); (0x12544, 0x12F8F); (0x12FF3, 0x12FFF); (0x1342F, 0x143FF);
   (0x14647, 0x167FF); (0x16A39, 0x16A3F); (0x16A5F, 0x16A5F); (0x16A6A, 0x16A6D); (0x16ABF, 0x16ABF); (0x16ACA, 0x16ACF);
   (0x16AEE, 0x16AEF); (0x16AF6, 0x16AFF); (0x16B46, 0x16B4F); (0x16B5A, 0x16B5A); (0x16B62, 0x16B62); (0x16B78, 0x16B7C);
   (0x16B90, 0x16E3F); (0x16E9B, 0x16EFF); (0x16F4B, 0x16F4E); (0x16F88, 0x16F8E); (0x16FA0, 0x16FDF); (0x16FE5, 0x16FEF);
   (0x16FF2, 0x16FFF); (0x187F8, 0x187FF); (0x18CD6, 0x18CFF); (0x18D09, 0x1AFEF); (0x1AFF4, 0x1AFF4); (0x1AFFC, 0x1AFFC);
   (0x1AFFF, 0x1AFFF); (0x1B123, 0x1B14F); (0x1B153, 0x1B163); (0x1B168, 0x1B16F); (0x1B2FC, 0x1BBFF); (0x1BC6B, 0x1BC6F);
   (0x1BC7D, 0x1BC7F); (0x1BC89, 0x1BC8F); (0x1BC9A, 0x1BC9B); (0x1BCA0, 0x1CEFF); (0x1CF2E, 0x1CF2F); (0x1CF47, 0x1CF4F);
   (0x1CFC4, 0x1CFFF); (0x1D0F6, 0x1D0FF); (0x1D127, 0x1D128); (0x1D173, 0x1D17A); (0x1D1EB, 0x1D1FF); (0x1D246, 0x1D2DF);
   (0x1D2F4, 0x1D2FF); (0x1D357, 0x1D35F); (0x1D379, 0x1D3FF); (0x1D455, 0x1D455); (0x1D49D, 0x1D49D); (0x1D4A0, 0x1D4A1);
   (0x1D4A3, 0x1D4A4); (0x1D4A7, 0x1D4A8); (0x1D4AD, 0x1D4AD); (0x1D4BA, 0x1D4BA); (0x1D4BC, 0x1D4BC); (0x1D4C4, 0x1D4C4);
   (0x1D506, 0x1D506); (0x1D50B, 0x1D50C); (0x1D515, 0x1D515); (0x1D51D, 0x1D51D); (0x1D53A, 0x1D53A); (0x1D53F, 0x1D53F);
   (0x1D545, 0x1D545); (0x1D547, 0x1D549); (0x1D551, 0x1D551); (0x1D6A6, 0x1D6A7); (0x1D7CC, 0x1D7CD); (0x1DA8C, 0x1DA9A);
   (0x1DAA0, 0x1DAA0); (0x1DAB0, 0x1DEFF); (0x1DF1F, 0x1DFFF); (0x1E007, 0x1E007); (0x1E019, 0x1E01A); (0x1E022, 0x1E022);
   (0x1E025, 0x1E025); (0x1E02B, 0x1E0FF); (0x1E12D, 0x1E12F); (0x1E13E, 0x1E13F); (0x1E14A, 0x1E14D); (0x1E150, 0x1E28F);
   (0x1E2AF, 0x1E2BF); (0x1E2FA, 0x1E2FE); (0x1E300, 0x1E7DF); (0x1E7E7, 0x1E7E7); (0x1E7EC, 0x1E7EC); (0x1E7EF, 0x1E7EF);
   (0x1E7FF, 0x1E7FF); (0x1E8C5, 0x1E8C6); (0x1E8D7, 0x1E8FF); (0x1E94C, 0x1E94F); (0x1E95A, 0x1E95D); (0x1E960, 0x1EC70);
   (0x1ECB5, 0x1ED00); (0x1ED3E, 0x1EDFF); (0x1EE04, 0x1EE04); (0x1EE20, 0x1EE20); (0x1EE23, 0x1EE23); (0x1EE25, 0x1EE26);
   (0x1EE28, 0x1EE28); (0x1EE33, 0x1EE33); (0x1EE38, 0x1EE38); (0x1EE3A, 0x1EE3A); (0x1EE3C, 0x1EE41); (0x1EE43, 0x1EE46);
   (0x1EE48, 0x1EE48); (0x1EE4A, 0x1EE4A); (0x1EE4C, 0x1EE4C); (0x1EE50, 0x1EE50); (0x1EE53, 0x1EE53); (0x1EE55, 0x1EE56);
   (0x1EE58, 0x1EE58); (0x1EE5A, 0x1EE5A); (0x1EE5C, 0x1EE5C); (0x1EE5E, 0x1EE5E); (0x1EE60, 0x1EE60); (0x1EE63, 0x1EE63);
   (0x1EE65, 0x1EE66); (0x1EE6B, 0x1EE6B); (0x1EE73, 0x1EE73); (0x1EE78, 0x1EE78); (0x1EE7D, 0x1EE7D); (0x1EE7F, 0x1EE7F);
   (0x1EE8A, 0x1EE8A); (0x1EE9C, 0x1EEA0); (0x1EEA4, 0x1EEA4); (0x1EEAA, 0x1EEAA); (0x1EEBC, 0x1EEEF); (0x1EEF2, 0x1EFFF);
   (0x1F02C, 0x1F02F); (0x1F094, 0x1F09F); (0x1F0AF, 0x1F0B0); (0x1F0C0, 0x1F0C0); (0x1F0D0, 0x1F0D0); (0x1F0F6, 0x1F0FF);
   (0x1F1AE, 0x1F1E5); (0x1F203, 0x1F20F); (0x1F23C, 0x1F23F); (0x1F249, 0x1F24F); (0x1F252, 0x1F25F); (0x1F266, 0x1F2FF);
   (0x1F6D8, 0x1F6DC); (0x1F6ED, 0x1F6EF); (0x1F6FD, 0x1F6FF); (0x1F774, 0x1F77F); (0x1F7D9, 0x1F7DF); (0x1F7EC, 0x1F7EF);
   (0x1F7F1, 0x1F7FF); (0x1F80C, 0x1F80F); (0x1F848, 0x1F84F); (0x1F85A, 0x1F85F); (0x1F888, 0x1F88F); (0x1F8AE, 0x1F8AF);
   (0x1F8B2, 0x1F8FF); (0x1FA54, 0x1FA5F); (0x1FA6E, 0x1FA6F); (0x1FA75, 0x1FA77); (0x1FA7D, 0x1FA7F); (0x1FA87, 0x1FA8F);
   (0x1FAAD, 0x1FAAF); (0x1FABB, 0x1FABF); (0x1FAC6, 0x1FACF); (0x1FADA, 0x1FADF); (0x1FAE8, 0x1FAEF); (0x1FAF7, 0x1FAFF);
   (0x1FB93, 0x1FB93); (0x1FBCB, 0x1FBEF); (0x1FBFA, 0x1FFFF); (0x2A6E0, 0x2A6FF); (0x2B739, 0x2B73F); (0x2B81E, 0x2B81F);
   (0x2CEA2, 0x2CEAF); (0x2EBE1, 0x2F7FF); (0x2FA1E, 0x2FFFF); (0x3134B, 0xE00FF); (0xE01F0, 0x10FFFF)
  ].

Definition isprintable (c : char) : bool :=
  negb (existsb (fun '(lo, hi) => (lo <=? c) && (c <=? hi)) NONPRINTABLE).

(** Lower-case hexadecimal, [width] digits. *)
Definition hex_digit (d : N) : char := if d <? 10 then 48 + d else 87 + d.

Fixpoint hex (width : nat) (n : N) : str :=
  match width with
  | O => []
  | S w => hex w (n / 16) ++ [hex_digit (n mod 16)]
  end.

(** [repr(s)]: single quotes, unless [s] has a single quote and no
    double quote; the quote and the backslash are escaped, tab, newline
    and carriage return are written [\t], [\n] and [\r], and any other
    character that is not printable is written in hexadecimal. *)
Definition repr_char (quote_char c : char) : str :=
  if (c =? quote_char) || (c =? 92) then [92; c]
  else if c =? 9 then [92; 116]
  else if c =? 10 then [92; 110]
  else if c =? 13 then [92; 114]
  else if (c <? 32) || (c =? 127) then [92; 120] ++ hex 2 c
  else if c <? 127 then [c]
  else if isprintable c then [c]
  else if c <=? 0xFF then [92; 120] ++ hex 2 c
  else if c <=? 0xFFFF then [92; 117] ++ hex 4 c
  else [92; 85] ++ hex 8 c.

Definition repr (s : str) : str :=
  let quote_char :=
    if existsb (N.eqb 39) s && negb (existsb (N.eqb 34) s) then 34 else 39 in
  [quote_char] ++ flat_map (repr_char quote_char) s ++ [quote_char].

End Py.

Arguments Py.lit s%_string.
Abbreviation u := Py.lit (only parsing).

(** Literals are compared as written before they are decoded. *)
Strategy 100 [Py.lit].

(** ** Parsed HTML ([bs4])

    [BeautifulSoup(html, 'html.parser')] hands the server a tree; the
    model starts from that tree.  An element keeps what the selectors of
    [main.py] look at: its name, its [id] and its classes.  A [Text]
    node is a string that [get_text] reports. *)

Module Bs4.

Inductive node : Type :=
| Text (s : str)
| Tag (name : string) (id : option string) (classes : list string)
      (children : list node).

(** One alternative of a selector group such as
    ['article, main, .article'] or ['#articeBody, .news_end']. *)
Inductive simple : Type :=
| ById (i : string)
| ByClass (c : string)
| ByName (n : string).

Definition matches_simple (name : string) (id : option string)
    (classes : list string) (s : simple) : bool :=
  match s with
  | ById i => match id with Some j => String.eqb i j | None => false end
  | ByClass c => existsb (String.eqb c) classes
  | ByName n => String.eqb n name
  end.

Definition matches (sel : list simple) (n : node) : bool :=
  match n with
  | Text _ => false
  | Tag name id classes _ => existsb (matches_simple name id classes) sel
  end.

(** The nodes below [n], in document order. *)
Fixpoint descendants (n : node) : list node :=
  match n with
  | Text _ => []
  | Tag _ _ _ children => flat_map (fun c => c :: descendants c) children
  end.

(** [n.select(sel)] and [n.select_one(sel)] *)
Definition select (sel : list simple) (n : node) : list node :=
  List.filter (matches sel) (descendants n).

Definition select_one (sel : list simple) (n : node) : option node :=
  head (select sel n).

(** [for element in n.select(sel): element.extract()]: every selected
    element leaves the tree, with all that is below it. *)
Fixpoint extract_all (sel : list simple) (n : node) : node :=
  match n with
  | Text s => Text s
  | Tag name id classes children =>
      Tag name id classes
        (flat_map
           (fun c => if matches sel c then [] else [extract_all sel c])
           children)
  end.

(** The strings below [n], in document order. *)
Fixpoint strings (n : node) : list str :=
  match n with
  | Text s => [s]
  | Tag _ _ _ children => flat_map strings children
  end.

(** [n.get_text(strip=True)]: each string is stripped, the empty ones
    are dropped and the rest are concatenated with no separator. *)
Definition get_text_strip (n : node) : str :=
  concat (List.filter (fun s => negb (Py.eqb s []))
            (List.map Py.strip (strings n))).

End Bs4.

(** ** The search API's JSON

    An item is the dictionary of one search hit; the server reads its
    ["title"], ["link"], ["description"] and ["pubDate"] entries, all
    strings.  Of the decoded document the server asks whether it is a
    dictionary, whether it has ["items"] and ["total"], and what they
    hold. *)

Abbreviation item := (gmap string (list N)) (only parsing).

(** [JsonOther] is a document that is not an object (a list, a string,
    a number, [null]), with the name of its Python type; [JsonDict] is
    an object, with its ["total"] and ["items"] entries when it has
    them. *)
Inductive json : Type :=
| JsonOther (type_name : str)
| JsonDict (total : option Z) (items : option (list item)).

(** ** Responses and exceptions *)

(** How [response.json()] fails: with the [json.JSONDecodeError] of a
    body that is not JSON, or with another exception (the
    [UnicodeDecodeError] of a body that is not text in its encoding, for
    one); either carries its message. *)
Inductive json_failure : Type :=
| NotJson (msg : str)
| Undecodable (msg : str).

Record response : Type := mkResponse {
  status_code : Z;
  (** [response.text] *)
  text : str;
  (** [response.json()]: the decoded body, or the exception it
      raises *)
  json_body : json_failure + json;
  (** [BeautifulSoup(response.text, 'html.parser')] *)
  soup : Bs4.node;
  (** the message [raise_for_status] gives its [HTTPStatusError] *)
  status_error : str
}.

(** The exception classes the handlers of [main.py] tell apart.
    [TimeoutException] and [RequestError] stand for [httpx]'s classes of
    these names ([TimeoutException] is a subclass of [RequestError]);
    [ValueError] is the exception [urlparse] raises;
    [OtherException] is any [Exception] outside these classes. *)
Inductive exn : Type :=
| TimeoutException (msg : str)
| HTTPStatusError (msg : str) (r : response)
| RequestError (msg : str)
| JSONDecodeError (msg : str)
| AttributeError (msg : str)
| ValueError (msg : str)
| OtherException (msg : str).

(** [str(e)] *)
Definition str_exn (e : exn) : str :=
  match e with
  | TimeoutException m | HTTPStatusError m _ | RequestError m
  | JSONDecodeError m | AttributeError m | ValueError m | OtherException m => m
  end.

Inductive result (A : Type) : Type :=
| Ok (a : A)
| Raise (e : exn).
Arguments Ok {A} a.
Arguments Raise {A} e.

(** ** Coroutines

    An [async def] is a tree of the awaits it can make: a GET through
    the shared [httpx.AsyncClient], a sleep, or, under [asyncio.gather],
    a point where the event loop decides which of two branches runs
    next.  Logging and [ctx.info] write to no value the server reads
    and are left out. *)

(** The header dictionaries of [main.py], by name: the credentials of
    the search API, or the browser-like headers for a publisher's
    site. *)
Inductive header_set : Type := NoHeaders | NAVER_HEADERS | HTTP_HEADERS.

(** A value of the [params] dictionary. *)
Inductive param : Type := PStr (s : str) | PInt (n : Z).

Record request : Type := mkRequest {
  url : str;
  params : option (list (string * param));
  headers : header_set;
  timeout : N;
  follow_redirects : bool
}.

(** What [await client.get(...)] does: it returns a response or raises. *)
Inductive get_outcome : Type :=
| Responds (r : response)
| Fails (e : exn).

Inductive coro (A : Type) : Type :=
| Ret (a : A)
| Get (req : request) (k : get_outcome -> coro A)
| Sleep (secs : N) (k : coro A)
| Choose (l r : coro A).
Arguments Ret {A} a.
Arguments Get {A} req k.
Arguments Sleep {A} secs k.
Arguments Choose {A} l r.

Fixpoint bind {A B} (c : coro A) (f : A -> coro B) : coro B :=
  match c with
  | Ret a => f a
  | Get req k => Get req (fun o => bind (k o) f)
  | Sleep secs k => Sleep secs (bind k f)
  | Choose l r => Choose (bind l f) (bind r f)
  end.

(** Sequencing that stops at the first exception. *)
Definition bind_result {A B} (c : coro (result A)) (f : A -> coro (result B))
    : coro (result B) :=
  bind c (fun r => match r with Ok a => f a | Raise e => Ret (Raise e) end).

(** [try: c  except Exception as e: handler(e)] *)
Definition try_except {A} (c : coro (result A)) (handler : exn -> coro A)
    : coro A :=
  bind c (fun r => match r with Ok a => Ret a | Raise e => handler e end).

Declare Scope coro_scope.
Delimit Scope coro_scope with coro.
Notation "'let*' x := c 'in' k" := (bind_result c (fun x => k))
  (at level 10, x name, c at level 100, k at level 200) : coro_scope.
Notation "'return_' a" := (Ret (Ok a)) (at level 10) : coro_scope.
Notation "'raise' e" := (Ret (Raise e)) (at level 10) : coro_scope.

(** [asyncio.gather] of two coroutines: whichever the event loop
    resumes makes its next await; the pair of results is ready when both
    have returned, whatever the order in which they did. *)
Fixpoint both {A B} (a : coro A) : coro B -> coro (A * B) :=
  fix both_r (b : coro B) : coro (A * B) :=
    match a, b with
    | Ret x, _ => bind b (fun y => Ret (x, y))
    | _, Ret y => bind a (fun x => Ret (x, y))
    | _, _ =>
        Choose
          (match a with
           | Ret x => bind b (fun y => Ret (x, y))
           | Get req k => Get req (fun o => both (k o) b)
           | Sleep secs k => Sleep secs (both k b)
           | Choose l r => Choose (both l b) (both r b)
           end)
          (match b with
           | Ret y => bind a (fun x => Ret (x, y))
           | Get req k => Get req (fun o => both_r (k o))
           | Sleep secs k => Sleep secs (both_r k)
           | Choose l r => Choose (both_r l) (both_r r)
           end)
    end.

(** [await asyncio.gather( *tasks )]: the results come back as a list in
    the order of [tasks]. *)
Fixpoint gather {A} (tasks : list (coro A)) : coro (list A) :=
  match tasks with
  | [] => Ret []
  | t :: rest => bind (both t (gather rest)) (fun '(x, xs) => Ret (x :: xs))
  end.

(** ** Running a coroutine

    The world outside the process answers each GET and the event loop
    settles each [Choose]; both may depend on everything that has
    happened so far. *)

Inductive event : Type :=
| EvGet (req : request) (o : get_outcome)
| EvSleep (secs : N)
| EvSwitch (left : bool).

Record env : Type := mkEnv {
  net : list event -> request -> get_outcome;
  sched : list event -> bool
}.

Fixpoint run {A} (e : env) (c : coro A) (h : list event) : A * list event :=
  match c with
  | Ret a => (a, h)
  | Get req k =>
      let o := net e h req in run e (k o) (h ++ [EvGet req o])
  | Sleep secs k => run e k (h ++ [EvSleep secs])
  | Choose l r =>
      let b := sched e h in
      if b then run e l (h ++ [EvSwitch b]) else run e r (h ++ [EvSwitch b])
  end.

(** ** Constants of [main.py] *)

(** [DEFAULT_TIMEOUT = 15.0] and [RETRY_DELAY = 1.0] are whole numbers of
    seconds. *)
Definition DEFAULT_TIMEOUT : N := 15.
Definition MAX_RETRIES : nat := 3.
Definition RETRY_DELAY : N := 1.
Definition MAX_NEWS_ITEMS : Z := 20.
Definition MAX_CONTENT_LENGTH : nat := 1000.

(** ** [make_request_with_retry] *)

(** [response.raise_for_status()]: any status outside 200..299 raises. *)
Definition raise_for_status (r : response) : result unit :=
  if ((200 <=? status_code r) && (status_code r <=? 299))%Z
  then Ok tt
  else Raise (HTTPStatusError (status_error r) r).

(** [await client.get(url, params=..., headers=..., timeout=...,
    follow_redirects=True)] *)
Definition client_get (req : request) : coro (result response) :=
  Get req (fun o =>
    match o with
    | Responds r => Ret (Ok r)
    | Fails e => Ret (Raise e)
    end).

Local Open Scope coro_scope.

(** The body of [for attempt in range(max_retries)]; [attempts] is what
    is left of the range.  When the range is used up the function falls
    off its end and returns [None]. *)
Fixpoint retry_loop (req : request) (max_retries : nat) (attempts : list nat)
    : coro (result (option response)) :=
  match attempts with
  | [] => return_ None
  | attempt :: rest =>
      bind
        (let* response := client_get req in
         let* _ := Ret (raise_for_status response) in
         return_ response)
        (fun r =>
           match r with
           | Ok response => return_ (Some response)
           | Raise (TimeoutException _ as e) =>
               if (attempt <? max_retries - 1)%nat
               then Sleep RETRY_DELAY (retry_loop req max_retries rest)
               else raise e
           | Raise (HTTPStatusError _ resp as e) =>
               if ((status_code resp =? 429)%Z || (status_code resp >=? 500)%Z)
                  && (attempt <? max_retries - 1)%nat
               then Sleep RETRY_DELAY (retry_loop req max_retries rest)
               else raise e
           | Raise e =>
               if (attempt <? max_retries - 1)%nat
               then Sleep RETRY_DELAY (retry_loop req max_retries rest)
               else raise e
           end)
  end.

Definition make_request_with_retry (url : str)
    (params : option (list (string * param))) (headers : header_set)
    (max_retries : nat) : coro (result (option response)) :=
  retry_loop
    {| url := url; params := params; headers := headers;
       timeout := DEFAULT_TIMEOUT; follow_redirects := true |}
    max_retries (seq 0 max_retries).

(** ** [ipaddress.ip_address]

    What [urlparse] asks of a host written in brackets: is it an IPv4
    address, an IPv6 address, or neither. *)

Module Ipaddress.

Inductive version : Type := V4 | V6.

Definition is_ascii_digit (c : char) : bool := (48 <=? c) && (c <=? 57).

Definition is_hex (c : char) : bool :=
  is_ascii_digit c || ((65 <=? c) && (c <=? 70)) || ((97 <=? c) && (c <=? 102)).

(** [int(octet_str, 10)] for ASCII digits *)
Definition int10 (s : str) : N := fold_left (fun acc c => 10 * acc + (c - 48)) s 0.

(** [_parse_octet] accepts one to three ASCII digits, with no leading
    zero unless the octet is ["0"], that make at most 255. *)
Definition parse_octet (octet_str : str) : bool :=
  negb (Py.eqb octet_str [])
  && forallb is_ascii_digit octet_str
  && (length octet_str <=? 3)%nat
  && negb (negb (Py.eqb octet_str [48]) && Py.startswith [48] octet_str)
  && (int10 octet_str <=? 255).

(** [IPv4Address(address)] does not raise. *)
Definition is_v4 (address : str) : bool :=
  negb (existsb (N.eqb 47) address)
  && negb (Py.eqb address [])
  && (let octets := Py.split [46] address in
      (length octets =? 4)%nat && forallb parse_octet octets).

(** [_parse_hextet] accepts one to four hexadecimal digits. *)
Definition parse_hextet (hextet_str : str) : bool :=
  forallb is_hex hextet_str
  && (length hextet_str <=? 4)%nat
  && negb (Py.eqb hextet_str []).

(** The indices from 1 to [len(parts) - 2] at which [parts] is empty. *)
Definition empty_middle (parts : list (list N)) : list nat :=
  List.filter
    (fun i => Py.eqb (nth i parts [0]) [])
    (seq 1 (length parts - 2)).

(** [IPv6Address._ip_int_from_string(ip_str)] does not raise. *)
Definition is_v6_address (ip_str : str) : bool :=
  if Py.eqb ip_str [] then false
  else
    let parts := Py.split [58] ip_str in
    if (length parts <? 3)%nat then false
    else
      (* an IPv4-style suffix stands for two hextets *)
      let converted :=
        if existsb (N.eqb 46) (List.last parts [])
        then if is_v4 (List.last parts [])
             then Some (removelast parts ++ [[48]; [48]])
             else None
        else Some parts in
      match converted with
      | None => false
      | Some parts =>
          if (9 <? length parts)%nat then false
          else
            match empty_middle parts with
            | _ :: _ :: _ => false
            | [skip_index] =>
                let parts_hi := skip_index in
                let parts_lo := (length parts - skip_index - 1)%nat in
                let first_empty := Py.eqb (nth 0 parts [0]) [] in
                let last_empty := Py.eqb (List.last parts [0]) [] in
                let parts_hi := if first_empty then (parts_hi - 1)%nat else parts_hi in
                let parts_lo := if last_empty then (parts_lo - 1)%nat else parts_lo in
                if first_empty && negb (parts_hi =? 0)%nat then false
                else if last_empty && negb (parts_lo =? 0)%nat then false
                else if (8 - (parts_hi + parts_lo) <? 1)%nat then false
                else forallb parse_hextet (firstn parts_hi parts)
                     && forallb parse_hextet (skipn (length parts - parts_lo) parts)
            | [] =>
                (length parts =? 8)%nat
                && negb (Py.eqb (nth 0 parts [0]) [])
                && negb (Py.eqb (List.last parts [0]) [])
                && forallb parse_hextet parts
            end
      end.

(** [IPv6Address(address)] does not raise: no slash, a scope id after
    [%] that is not empty and has no [%], and an address before it. *)
Definition is_v6 (address : str) : bool :=
  negb (existsb (N.eqb 47) address)
  && (let '(addr, sep, scope_id) := Py.partition 37 address in
      negb (sep && (Py.eqb scope_id [] || existsb (N.eqb 37) scope_id))
      && is_v6_address addr).

(** [ip_address(address)]; [None] stands for its [ValueError]. *)
Definition ip_address (address : str) : option version :=
  if is_v4 address then Some V4
  else if is_v6 address then Some V6
  else None.

End Ipaddress.

(** ** [urllib.parse.urlparse(link).netloc]

    The part of [urlsplit] that finds the network location: leading
    control characters and spaces go, tabs and newlines go, a scheme (a
    letter, then letters, digits, [+], [-] or [.] up to the first colon)
    is cut off, and if [//] follows, the netloc runs up to the first of
    [/], [?] and [#].  The netloc is then checked, and a [ValueError] is
    raised where a check fails: its brackets must come in a pair around
    an IPv6 or IPvFuture host, and no character of it may turn into a
    delimiter under NFKC normalization. *)

Module Urllib.

Definition is_alpha (c : char) : bool :=
  ((65 <=? c) && (c <=? 90)) || ((97 <=? c) && (c <=? 122)).

Definition is_digit (c : char) : bool := (48 <=? c) && (c <=? 57).

Definition scheme_char (c : char) : bool :=
  is_alpha c || is_digit c || (c =? 43) || (c =? 45) || (c =? 46).

Fixpoint lstrip_c0 (s : str) : str :=
  match s with
  | [] => []
  | c :: r => if c <=? 32 then lstrip_c0 r else s
  end.

Definition remove_unsafe (s : str) : str :=
  List.filter (fun c => negb ((c =? 9) || (c =? 10) || (c =? 13))) s.

(** What follows the first colon, when only scheme characters come
    before it. *)
Fixpoint after_scheme (s : str) : option str :=
  match s with
  | [] => None
  | c :: r =>
      if c =? 58 then Some r
      else if scheme_char c then after_scheme r else None
  end.

Definition drop_scheme (s : str) : str :=
  match s with
  | [] => []
  | c :: _ =>
      if is_alpha c
      then match after_scheme s with Some r => r | None => s end
      else s
  end.

Fixpoint until_delim (s : str) : str :=
  match s with
  | [] => []
  | c :: r =>
      if (c =? 47) || (c =? 63) || (c =? 35) then [] else c :: until_delim r
  end.

Definition INVALID_IPV6_URL : str := u"Invalid IPv6 URL".

Fixpoint after_hex (s : str) : str :=
  match s with
  | [] => []
  | c :: r => if Ipaddress.is_hex c then after_hex r else s
  end.

(** [re.match(r"\Av[a-fA-F0-9]+\..+\Z", hostname)] *)
Definition is_ipvfuture (hostname : str) : bool :=
  match hostname with
  | 118 :: h :: r =>
      Ipaddress.is_hex h
      && match after_hex r with
         | 46 :: c :: rest => forallb (fun x => negb (x =? 10)) (c :: rest)
         | _ => false
         end
  | _ => false
  end.

Definition check_bracketed_host (hostname : str) : result unit :=
  if Py.startswith [118] hostname then
    if is_ipvfuture hostname then Ok tt
    else Raise (ValueError (u"IPvFuture address is invalid"))
  else
    match Ipaddress.ip_address hostname with
    | None =>
        Raise (ValueError (Py.repr hostname
                           ++ u" does not appear to be an IPv4 or IPv6 address"))
    | Some Ipaddress.V4 =>
        Raise (ValueError (u"An IPv4 address cannot be in brackets"))
    | Some Ipaddress.V6 => Ok tt
    end.

Definition check_bracketed_netloc (netloc : str) : result unit :=
  let hostname_and_port := Py.after_last 64 netloc in
  let '(before_bracket, have_open_br, bracketed) := Py.partition 91 hostname_and_port in
  if have_open_br then
    if negb (Py.eqb before_bracket []) then Raise (ValueError INVALID_IPV6_URL)
    else
      let '(hostname, _, port) := Py.partition 93 bracketed in
      if negb (Py.eqb port []) && negb (Py.startswith [58] port)
      then Raise (ValueError INVALID_IPV6_URL)
      else check_bracketed_host hostname
  else
    let '(hostname, _, _) := Py.partition 58 hostname_and_port in
    check_bracketed_host hostname.

(** The characters that NFKC normalization turns into text with one of
    [/ ? # @ :] in it (Unicode 14.0). *)
Definition NFKC_DELIMITERS : list N :=
  [0x2047; 0x2048; 0x2049; 0x2100; 0x2101; 0x2105; 0x2106; 0x2A74; 0xFE13;
   0xFE16; 0xFE55; 0xFE56; 0xFE5F; 0xFE6B; 0xFF03; 0xFF0F; 0xFF1A; 0xFF1F;
   0xFF20].

(** [_checknetloc]: the netloc, which has none of [/ ? #] and is
    normalized without its [@] and [:], is refused when the normalized
    text has one of [/ ? # @ :]; that is when one of its characters is
    in the table. *)
Definition checknetloc (netloc : str) : result unit :=
  if existsb (fun c => existsb (N.eqb c) NFKC_DELIMITERS) netloc
  then Raise (ValueError (u"netloc '" ++ netloc
                          ++ u"' contains invalid characters under NFKC normalization"))
  else Ok tt.

Definition netloc (link : str) : result str :=
  let url := drop_scheme (remove_unsafe (lstrip_c0 link)) in
  if Py.startswith [47; 47] url then
    let netloc := until_delim (skipn 2 url) in
    let has_open := existsb (N.eqb 91) netloc in
    let has_close := existsb (N.eqb 93) netloc in
    if (has_open && negb has_close) || (has_close && negb has_open)
    then Raise (ValueError INVALID_IPV6_URL)
    else
      match (if has_open && has_close
             then check_bracketed_netloc netloc else Ok tt) with
      | Raise e => Raise e
      | Ok _ =>
          match checknetloc netloc with
          | Raise e => Raise e
          | Ok _ => Ok netloc
          end
      end
  else Ok [].

End Urllib.

(** ** [extract_publisher] *)

Definition extract_publisher (it : item) : result str :=
  let title := default [] (it !! "title"%string) in
  let description := default [] (it !! "description"%string) in
  if Py.contains (u" - ") title
  then Ok (Py.strip (List.last (Py.split (u" - ") title) []))
  else
    let link := default [] (it !! "link"%string) in
    if negb (Py.eqb link []) then
      match Urllib.netloc link with
      | Raise e => Raise e
      | Ok domain =>
          if Py.contains (u"news.naver.com") domain then
            if Py.contains (u"출처 : ") description
            then Ok (Py.strip (nth 1 (Py.split (u"출처 : ") description) []))
            else Ok (Py.replace (u"www.") [] domain)
          else Ok (Py.replace (u"www.") [] domain)
      end
    else Ok (u"알 수 없는 언론사").

(** ** [datetime.strptime] and [strftime]

    [format_date] parses with ['%a, %d %b %Y %H:%M:%S %z'].  [strptime]
    turns that format into a regular expression (a directive becomes a
    group of alternatives tried in order, white space becomes [\s+],
    letters match in either case), matches it at the start of the input
    and rejects input it did not use up; then it builds the date, which
    rejects days the month does not have, second 60 and 61, year 0 and
    offsets of a day or more.  Every group of this format is followed by
    a character it cannot itself match, so trying the alternatives in
    order without backtracking finds the same match.  The names are
    those of the C locale.  [\d] is any decimal digit of Unicode, a
    range such as [[0-5]] holds ASCII digits only, and [int] reads
    both.  The pattern also lets U+017F stand for [s] and U+0130 and
    U+0131 for [i], but then the name is not found in the list of names
    and the [ValueError] is the same as for text that does not match. *)

Module Datetime.

Record datetime : Type := mkDatetime {
  year : N; month : N; day : N;
  hour : N; minute : N; second : N;
  (** [tzinfo], as seconds east of UTC *)
  utcoffset : Z
}.

Definition lower (c : char) : char :=
  if (65 <=? c) && (c <=? 90) then c + 32 else c.

Definition between (lo hi : N) (c : char) : bool := (lo <=? c) && (c <=? hi).

(** [\d] *)
Definition is_digit (c : char) : bool :=
  match Py.decimal c with Some _ => true | None => false end.

(** The value [int] gives a digit; the space that [%d] lets stand before
    a single digit counts for nothing. *)
Definition val (c : char) : N := default 0 (Py.decimal c).

(** A literal, letters in either case. *)
Fixpoint nocase (p s : str) : option str :=
  match p, s with
  | [], _ => Some s
  | x :: p', y :: s' => if lower y =? x then nocase p' s' else None
  | _ :: _, [] => None
  end.

(** The first of [names] found at the start of [s], with its index. *)
Fixpoint one_of (names : list str) (idx : N) (s : str) : option (N * str) :=
  match names with
  | [] => None
  | n :: ns =>
      match nocase n s with
      | Some r => Some (idx, r)
      | None => one_of ns (idx + 1) s
      end
  end.

(** [\s+] *)
Definition spaces (s : str) : option str :=
  match s with
  | c :: r => if Py.isspace c then Some (Py.lstrip r) else None
  | [] => None
  end.

Definition exactly (c : char) (s : str) : option str :=
  match s with
  | x :: r => if x =? c then Some r else None
  | [] => None
  end.

(** Two characters, the first in [pa] and the second in [pb], read as
    a two-digit number. *)
Definition two (pa pb : char -> bool) (s : str) : option (N * str) :=
  match s with
  | a :: b :: r =>
      if pa a && pb b then Some (10 * val a + val b, r) else None
  | _ => None
  end.

Definition one (pa : char -> bool) (s : str) : option (N * str) :=
  match s with
  | a :: r => if pa a then Some (val a, r) else None
  | [] => None
  end.

Definition orelse {A} (x y : option A) : option A :=
  match x with Some _ => x | None => y end.
Infix "<|>" := orelse (at level 51, right associativity).

Definition a_weekday : list str :=
  [u"mon"; u"tue"; u"wed"; u"thu"; u"fri"; u"sat"; u"sun"].
Definition a_month : list str :=
  [u"jan"; u"feb"; u"mar"; u"apr"; u"may"; u"jun";
   u"jul"; u"aug"; u"sep"; u"oct"; u"nov"; u"dec"].

(** [%d]: [3[0-1]|[1-2]\d|0[1-9]|[1-9]| [1-9]] *)
Definition directive_d (s : str) : option (N * str) :=
  two (N.eqb 51) (between 48 49) s
  <|> two (between 49 50) is_digit s
  <|> two (N.eqb 48) (between 49 57) s
  <|> one (between 49 57) s
  <|> two (N.eqb 32) (between 49 57) s.

(** [%Y]: [\d\d\d\d] *)
Definition directive_Y (s : str) : option (N * str) :=
  match two is_digit is_digit s with
  | Some (hi, r) =>
      match two is_digit is_digit r with
      | Some (lo, r') => Some (100 * hi + lo, r')
      | None => None
      end
  | None => None
  end.

(** [%H]: [2[0-3]|[0-1]\d|\d] *)
Definition directive_H (s : str) : option (N * str) :=
  two (N.eqb 50) (between 48 51) s
  <|> two (between 48 49) is_digit s
  <|> one is_digit s.

(** [%M]: [[0-5]\d|\d] *)
Definition directive_M (s : str) : option (N * str) :=
  two (between 48 53) is_digit s <|> one is_digit s.

(** [%S]: [6[0-1]|[0-5]\d|\d] *)
Definition directive_S (s : str) : option (N * str) :=
  two (N.eqb 54) (between 48 49) s
  <|> two (between 48 53) is_digit s
  <|> one is_digit s.

(** An optional colon: was it there, and what follows. *)
Definition colon (s : str) : bool * str :=
  match s with
  | 58 :: r => (true, r)
  | _ => (false, s)
  end.

(** Up to [n] digits of a fraction. *)
Fixpoint digits_upto (n : nat) (s : str) : str :=
  match n, s with
  | S n', c :: r => if is_digit c then digits_upto n' r else s
  | _, _ => s
  end.

(** [(\.\d{1,6})?] *)
Definition fraction (s : str) : str :=
  match s with
  | 46 :: c :: r => if is_digit c then digits_upto 5 r else s
  | _ => s
  end.

(** [%z]: [[+-]\d\d:?[0-5]\d(:?[0-5]\d(\.\d{1,6})?)?|Z], then the
    offset in seconds.  A colon before the minutes and none before the
    seconds, or the other way round, is refused when the offset is
    read. *)
Definition directive_z (s : str) : option (Z * str) :=
  match s with
  | 90 :: r => Some (0%Z, r)
  | sign :: r =>
      if (sign =? 43) || (sign =? 45) then
        '(hh, r) ← two is_digit is_digit r;
        let '(c1, r) := colon r in
        '(mm, r) ← two (between 48 53) is_digit r;
        let '(c2, r2) := colon r in
        let '(ss, r, consistent) :=
          match two (between 48 53) is_digit r2 with
          | Some (ss, r3) => (ss, fraction r3, Bool.eqb c1 c2)
          | None => (0, r, true)
          end in
        if consistent then
          let off := Z.of_N (hh * 3600 + mm * 60 + ss) in
          Some (if sign =? 45 then (- off)%Z else off, r)
        else None
      else None
  | [] => None
  end.

Definition is_leap (y : N) : bool :=
  (y mod 4 =? 0) && (negb (y mod 100 =? 0) || (y mod 400 =? 0)).

Definition days_in_month (y m : N) : N :=
  if m =? 2 then (if is_leap y then 29 else 28)
  else if (m =? 4) || (m =? 6) || (m =? 9) || (m =? 11) then 30
  else 31.

(** [datetime.strptime(date_str, '%a, %d %b %Y %H:%M:%S %z')];
    [None] stands for the [ValueError]. *)
Definition strptime (date_str : str) : option datetime :=
  '(_, s) ← one_of a_weekday 0 date_str;
  s ← exactly 44 s;
  s ← spaces s;
  '(dd, s) ← directive_d s;
  s ← spaces s;
  '(mo, s) ← one_of a_month 1 s;
  s ← spaces s;
  '(yy, s) ← directive_Y s;
  s ← spaces s;
  '(hh, s) ← directive_H s;
  s ← exactly 58 s;
  '(mi, s) ← directive_M s;
  s ← exactly 58 s;
  '(ss, s) ← directive_S s;
  s ← spaces s;
  '(z, s) ← directive_z s;
  if Py.eqb s []
     && (1 <=? yy) && (1 <=? dd) && (dd <=? days_in_month yy mo)
     && (ss <=? 59)
     && (-86400 <? z)%Z && (z <? 86400)%Z
  then Some (mkDatetime yy mo dd hh mi ss z)
  else None.

Definition digits2 (n : N) : str := [Py.digit (n / 10); Py.digit (n mod 10)].

(** [dt.strftime('%Y-%m-%d %H:%M')], as the C library of Linux prints
    it: the year in decimal with no padding, the other fields with two
    digits. *)
Definition strftime (dt : datetime) : str :=
  Py.str_of_N (year dt) ++ [45] ++ digits2 (month dt) ++ [45] ++ digits2 (day dt)
  ++ [32] ++ digits2 (hour dt) ++ [58] ++ digits2 (minute dt).

End Datetime.

(** ** [format_date] *)

Definition format_date (date_str : str) : str :=
  match Datetime.strptime date_str with
  | Some dt => Datetime.strftime dt
  | None => date_str
  end.

(** ** [extract_article_content] *)

Definition NAVER_BODY : list Bs4.simple :=
  [Bs4.ById "articleBodyContents"; Bs4.ById "articeBody";
   Bs4.ById "newsEndContents"; Bs4.ByClass "news_end"].

Definition NAVER_UNWANTED : list Bs4.simple :=
  [Bs4.ByName "script"; Bs4.ByName "style";
   Bs4.ByClass "end_photo_org"; Bs4.ByClass "reporter_area"].

Definition GENERIC_BODY : list Bs4.simple :=
  [Bs4.ByName "article"; Bs4.ByName "main"; Bs4.ByClass "article";
   Bs4.ByClass "content"; Bs4.ByClass "news-content"].

Definition NOT_EXTRACTABLE : str := u"본문 내용을 추출할 수 없습니다.".

(** The body of the [try] block once the page is fetched and parsed
    (lines 149 to 178). *)
Definition article_text (url : str) (soup : Bs4.node) : str :=
  let other_sites :=
    let article_elements := Bs4.select GENERIC_BODY soup in
    match article_elements with
    | first :: _ =>
        let content := Bs4.get_text_strip first in
        let content := Py.strip (Py.re_sub_ws false content) in
        firstn MAX_CONTENT_LENGTH content
        ++ (if (MAX_CONTENT_LENGTH <? length content)%nat then u"..." else [])
    | [] =>
        let paragraphs := Bs4.select [Bs4.ByName "p"] soup in
        match paragraphs with
        | _ :: _ =>
            let content :=
              Py.join (u" ")
                (List.filter (fun t => (50 <? length t)%nat)
                   (List.map Bs4.get_text_strip paragraphs)) in
            let content := Py.strip (Py.re_sub_ws false content) in
            firstn MAX_CONTENT_LENGTH content
            ++ (if (MAX_CONTENT_LENGTH <? length content)%nat then u"..." else [])
        | [] => NOT_EXTRACTABLE
        end
    end in
  if Py.contains (u"news.naver.com") url then
    match Bs4.select_one NAVER_BODY soup with
    | Some content_element =>
        let content_element := Bs4.extract_all NAVER_UNWANTED content_element in
        let content := Bs4.get_text_strip content_element in
        let content := Py.strip (Py.re_sub_ws false content) in
        firstn MAX_CONTENT_LENGTH content
        ++ (if (MAX_CONTENT_LENGTH <? length content)%nat then u"..." else [])
    | None => other_sites
    end
  else other_sites.

Definition extract_article_content (url : str) : coro str :=
  try_except
    (let* response := make_request_with_retry url None HTTP_HEADERS MAX_RETRIES in
     match response with
     | None => raise (AttributeError (u"'NoneType' object has no attribute 'text'"))
     | Some response => return_ (article_text url (soup response))
     end)
    (fun e => Ret (u"기사 내용 추출 실패: " ++ str_exn e)).

(** ** The search tools *)

Definition nl : str := [10].
Definition quote : str := [34].

Definition ENTER_KEYWORD : str := u"검색어를 입력해주세요.".

Definition SEARCH_URL : str := u"https://openapi.naver.com/v1/search/news.json".

(** [f"'{keyword}'에 대한 검색 결과가 없습니다."] *)
Definition no_results (keyword : str) : str :=
  u"'" ++ keyword ++ u"'에 대한 검색 결과가 없습니다.".

(** [enumerate(l)] *)
Definition enumerate {A} (l : list A) : list (nat * A) :=
  combine (seq 0 (length l)) l.

(** [item.get("title", "제목 없음").replace("<b>", "").replace("</b>", "")] *)
Definition clean_title (it : item) : str :=
  Py.replace (u"</b>") []
    (Py.replace (u"<b>") [] (default (u"제목 없음") (it !! "title"%string))).

(** [for x in entries: body], where the body works on a state and may
    raise: the loop stops at the first exception. *)
Fixpoint for_each {A S} (body : S -> A -> result S) (entries : list A) (s : S)
    : result S :=
  match entries with
  | [] => Ok s
  | x :: rest =>
      match body s x with
      | Ok s' => for_each body rest s'
      | Raise e => Raise e
      end
  end.

(** One pass of the loop of [search_news] that fills [news_items]. *)
Definition search_news_block (news_items : list str) (entry : nat * item)
    : result (list str) :=
  let '(i, it) := entry in
  let title := clean_title it in
  let link := default (u"#") (it !! "link"%string) in
  let pub_date := format_date (default (u"날짜 정보 없음") (it !! "pubDate"%string)) in
  match extract_publisher it with
  | Raise e => Raise e
  | Ok publisher =>
      Ok (news_items ++
          [Py.str_of_nat (i + 1) ++ u". [언론사] " ++ publisher ++ nl
           ++ u"   [제목] " ++ title ++ nl
           ++ u"   [시간] " ++ pub_date ++ nl
           ++ u"   [링크] " ++ link])
  end.

Definition SEARCH_NEWS_PROMPT : str :=
  u"이 뉴스들의 맥락과 주요 내용을 분석해주세요. 다음 사항에 대해 알려주세요:" ++ nl
  ++ u"1. 제목들의 공통 주제" ++ nl
  ++ u"2. 주요 키워드 3개" ++ nl
  ++ u"3. 어떤 사건이나 이슈를 다루고 있는지" ++ nl
  ++ u"4. 이 뉴스들이 시사하는 사회적/경제적/정치적 맥락" ++ nl.

Definition search_params (keyword : str) (display : Z) : list (string * param) :=
  [("query"%string, PStr keyword); ("display"%string, PInt display);
   ("sort"%string, PStr (u"sim"))].

Definition search_news (keyword : str) : coro str :=
  if Py.eqb keyword [] || Py.eqb (Py.strip keyword) [] then Ret ENTER_KEYWORD
  else
    try_except
      (let keyword := Py.strip keyword in
       let params := search_params keyword MAX_NEWS_ITEMS in
       bind
         (let* response :=
            make_request_with_retry SEARCH_URL (Some params) NAVER_HEADERS MAX_RETRIES in
          match response with
          | None => raise (AttributeError (u"'NoneType' object has no attribute 'json'"))
          | Some response =>
              match json_body response with
              | inl (NotJson _) =>
                  return_ (u"검색 결과를 처리하는 중 오류가 발생했습니다: 잘못된 응답 형식")
              | inl (Undecodable msg) => raise (OtherException msg)
              | inr (JsonOther _) =>
                  return_ (u"검색 결과를 처리하는 중 오류가 발생했습니다: 예상치 못한 응답 형식")
              | inr (JsonDict _ None) =>
                  return_ (u"검색 결과를 처리하는 중 오류가 발생했습니다: 항목을 찾을 수 없음")
              | inr (JsonDict _ (Some [])) => return_ (no_results keyword)
              | inr (JsonDict total (Some items)) =>
                  let* news_items :=
                    Ret (for_each search_news_block (enumerate items) []) in
                  let news_text := Py.join (nl ++ nl) news_items in
                  let total_count :=
                    match total with
                    | Some n => Py.str_of_Z n
                    | None => Py.str_of_nat (length items)
                    end in
                  return_
                    (quote ++ keyword ++ quote ++ u"에 관한 뉴스 " ++ total_count
                     ++ u"건 중 " ++ Py.str_of_nat (length items)
                     ++ u"건을 찾았습니다." ++ nl ++ nl
                     ++ news_text ++ nl ++ nl
                     ++ SEARCH_NEWS_PROMPT)
              end
          end)
         (fun r =>
            match r with
            | Ok s => return_ s
            | Raise (TimeoutException _) =>
                return_ (u"검색 중 시간 초과가 발생했습니다. 잠시 후 다시 시도해 주세요.")
            | Raise (HTTPStatusError _ resp) =>
                let status_code := status_code resp in
                if ((status_code =? 401) || (status_code =? 403))%Z
                then return_ (u"API 인증에 실패했습니다. API 키를 확인해 주세요.")
                else if (status_code =? 429)%Z
                then return_ (u"너무 많은 요청을 보냈습니다. 잠시 후 다시 시도해 주세요.")
                else if (status_code >=? 500)%Z
                then return_ (u"서버 오류가 발생했습니다. 잠시 후 다시 시도해 주세요.")
                else return_ (u"검색 중 오류가 발생했습니다 (HTTP "
                              ++ Py.str_of_Z status_code ++ u")")
            | Raise (RequestError _) =>
                return_ (u"네트워크 연결 문제가 발생했습니다. 인터넷 연결을 확인해 주세요.")
            | Raise e => raise e
            end))
      (fun e => Ret (u"뉴스 검색 중 예상치 못한 오류가 발생했습니다: " ++ str_exn e)).

(** One pass of the loop of [search_news_with_content] over
    [enumerate(zip(data["items"], contents))]. *)
Definition content_block (news_items : list str) (entry : nat * (item * str))
    : result (list str) :=
  let '(i, (it, content)) := entry in
  let title := clean_title it in
  let link := default (u"#") (it !! "link"%string) in
  let pub_date := format_date (default (u"날짜 정보 없음") (it !! "pubDate"%string)) in
  match extract_publisher it with
  | Raise e => Raise e
  | Ok publisher =>
      Ok (news_items ++
          [Py.str_of_nat (i + 1) ++ u". [언론사] " ++ publisher ++ nl
           ++ u"   [제목] " ++ title ++ nl
           ++ u"   [시간] " ++ pub_date ++ nl
           ++ u"   [링크] " ++ link ++ nl
           ++ u"   [본문]" ++ nl ++ content])
  end.

Definition WITH_CONTENT_PROMPT : str :=
  u"이 뉴스들의 상세 내용을 바탕으로 다음 사항을 분석해주세요:" ++ nl
  ++ u"1. 주요 사건/이슈 요약 (5-6문장)" ++ nl
  ++ u"2. 핵심 인물, 기관, 장소" ++ nl
  ++ u"3. 각 언론사별 보도 관점 차이" ++ nl
  ++ u"4. 사회적/경제적/정치적 맥락과 영향" ++ nl
  ++ u"5. 향후 전개 가능성" ++ nl.

(** An awaited coroutine that cannot raise, inside a [try] block. *)
Definition await {A} (c : coro A) : coro (result A) :=
  bind c (fun a => Ret (Ok a)).

Definition search_news_with_content (keyword : str) : coro str :=
  if Py.eqb keyword [] || Py.eqb (Py.strip keyword) [] then Ret ENTER_KEYWORD
  else
    try_except
      (let keyword := Py.strip keyword in
       let params := search_params keyword 20 in
       await
         (try_except
            (let* response :=
               make_request_with_retry SEARCH_URL (Some params) NAVER_HEADERS MAX_RETRIES in
             match response with
             | None => raise (AttributeError (u"'NoneType' object has no attribute 'json'"))
             | Some response =>
                 match json_body response with
                 | inl (NotJson msg) => raise (JSONDecodeError msg)
                 | inl (Undecodable msg) => raise (OtherException msg)
                 | inr (JsonOther type_name) =>
                     raise (AttributeError
                              (u"'" ++ type_name ++ u"' object has no attribute 'get'"))
                 | inr (JsonDict _ None) | inr (JsonDict _ (Some [])) =>
                     return_ (no_results keyword)
                 | inr (JsonDict total (Some items)) =>
                     let tasks :=
                       List.map
                         (fun it : item =>
                            let link := default (u"#") (it !! "link"%string) in
                            extract_article_content link)
                         items in
                     let* contents := await (gather tasks) in
                     let* news_items :=
                       Ret (for_each content_block
                              (enumerate (combine items contents)) []) in
                     let news_text := nl ++ nl ++ Py.join (nl ++ nl) news_items in
                     let total_count :=
                       match total with
                       | Some n => Py.str_of_Z n
                       | None => Py.str_of_nat (length items)
                       end in
                     return_
                       (quote ++ keyword ++ quote ++ u"에 관한 뉴스 " ++ total_count
                        ++ u"건 중 " ++ Py.str_of_nat (length items)
                        ++ u"건의 제목과 내용을 찾았습니다." ++ nl ++ nl
                        ++ news_text ++ nl ++ nl
                        ++ WITH_CONTENT_PROMPT)
                 end
             end)
            (fun e =>
               Ret (u"뉴스 검색 및 내용 가져오기 중 오류가 발생했습니다: " ++ str_exn e))))
      (fun e =>
         Ret (u"뉴스 검색 및 내용 가져오기 중 예상치 못한 오류가 발생했습니다: "
              ++ str_exn e)).

Definition PERSPECTIVES_SUFFIX : str :=
  nl ++ nl ++ u"특히 각 언론사별 보도 관점과 프레임의 차이점을 중점적으로 분석해 주세요.".

Definition compare_news_perspectives (keyword : str) : coro str :=
  try_except
    (let* news_result := await (search_news_with_content keyword) in
     return_ (news_result ++ PERSPECTIVES_SUFFIX))
    (fun e => Ret (u"뉴스 관점 비교 중 오류가 발생했습니다: " ++ str_exn e)).


(** ** The credentials and [check_api_keys]

    The module reads its two credentials from the process environment
    when it is loaded, each with a built-in default; [environ] is
    [os.environ] at that time, after [load_dotenv]. *)

(** [os.getenv(key, default)] *)
Definition getenv (environ : gmap string (list N)) (key : string) (default_ : str)
    : str :=
  default default_ (environ !! key).

Definition NAVER_CLIENT_ID (environ : gmap string (list N)) : str :=
  getenv environ "NAVER_CLIENT_ID" (u"BRBkD_TaH9_cWnTRNDo0").

Definition NAVER_CLIENT_SECRET (environ : gmap string (list N)) : str :=
  getenv environ "NAVER_CLIENT_SECRET" (u"nBQbi0IM30").

Definition check_api_keys (environ : gmap string (list N)) : bool :=
  if Py.eqb (NAVER_CLIENT_ID environ) [] || Py.eqb (NAVER_CLIENT_SECRET environ) []
  then false
  else true.


(** * Vocabulary of the properties

    What the statements below speak of: blank keywords, the verdict on
    one attempt of a fetch, the strategies of the extractor one by one,
    what holds of a coroutine under every network, and some concrete
    worlds, documents and search results to run the server on. *)

(** A keyword is blank when it is empty or made of white space only. *)
Definition blank (keyword : str) : Prop :=
  Forall (fun c => Py.isspace c = true) keyword.

(** ** One attempt of a fetch, in the words of the retry policy

    An attempt succeeds with a 2xx response; it is retried when it times
    out, fails in transport, or is answered 429 or 5xx; any other status
    is surfaced at once. *)

Inductive verdict : Type :=
| Succeeds (r : response)
| Retried (x : exn)
| Surfaced (x : exn).

Definition retry_status (code : Z) : bool := ((code =? 429) || (500 <=? code))%Z.

Definition verdict_of (o : get_outcome) : verdict :=
  match o with
  | Responds r =>
      if ((200 <=? status_code r) && (status_code r <=? 299))%Z then Succeeds r
      else if retry_status (status_code r)
           then Retried (HTTPStatusError (status_error r) r)
           else Surfaced (HTTPStatusError (status_error r) r)
  | Fails (HTTPStatusError m r) =>
      if retry_status (status_code r)
      then Retried (HTTPStatusError m r) else Surfaced (HTTPStatusError m r)
  | Fails x => Retried x
  end.

Definition is_retried (o : get_outcome) : Prop :=
  exists x, verdict_of o = Retried x.

(** The request [make_request_with_retry] sends. *)
Definition request_for (url : str) (params : option (list (string * param)))
    (headers : header_set) : request :=
  {| url := url; params := params; headers := headers;
     timeout := DEFAULT_TIMEOUT; follow_redirects := true |}.

(** What a fetch whose attempts had the outcomes [os] leaves in the
    history: one GET per attempt and one sleep of [RETRY_DELAY] between
    two attempts. *)
Fixpoint attempts_trace (req : request) (os : list get_outcome) : list event :=
  match os with
  | [] => []
  | [o] => [EvGet req o]
  | o :: rest => EvGet req o :: EvSleep RETRY_DELAY :: attempts_trace req rest
  end.

(** The history at the time of attempt [k]: the attempts before it, each
    followed by its sleep. *)
Definition before_attempt (req : request) (os : list get_outcome) (k : nat)
    : list event :=
  flat_map (fun o => [EvGet req o; EvSleep RETRY_DELAY]) (take k os).

(** The network answers the successive attempts of a fetch started at
    history [h] with the outcomes [os]. *)
Definition answers (e : env) (h : list event) (req : request)
    (os : list get_outcome) : Prop :=
  forall k o, os !! k = Some o -> net e (h ++ before_attempt req os k) req = o.

(** ** Worlds to run the server in *)

(** The number of GETs sent so far. *)
Definition count_gets (h : list event) : nat :=
  length (List.filter (fun ev => match ev with EvGet _ _ => true | _ => false end) h).

(** A backend that answers the GETs it receives with the outcomes of a
    script, one after the other, and then [final] for ever. *)
Definition scripted (script : list get_outcome) (final : get_outcome) : env :=
  {| net := fun h _ => nth (count_gets h) script final;
     sched := fun _ => true |}.

(** The message of a JSON decoder that found no JSON. *)
Definition NOT_JSON : str := u"Expecting value: line 1 column 1 (char 0)".

(** An HTML page: a status, the text and the document parsed from it. *)
Definition page (code : Z) (body : str) (doc : Bs4.node) : response :=
  {| status_code := code; text := body;
     json_body := inl (NotJson NOT_JSON);
     soup := doc;
     status_error := u"HTTP status " ++ Py.str_of_Z code |}.

(** The document of an empty page. *)
Definition empty_doc : Bs4.node := Bs4.Tag "[document]" None [] [].

Definition sample_url : str := u"https://www.example.com/news/1".

(** A world with no network: every GET fails to connect. *)
Definition offline : env :=
  {| net := fun _ _ => Fails (RequestError (u"All connection attempts failed"));
     sched := fun _ => true |}.

(** The backend of the retry scenario: 503 twice, then 200. *)
Definition flaky : env :=
  scripted [Responds (page 503 [] empty_doc); Responds (page 503 [] empty_doc)]
           (Responds (page 200 (u"ok") empty_doc)).

(** A backend that answers 404 every time. *)
Definition always_404 : env := scripted [] (Responds (page 404 [] empty_doc)).

(** ** The shape of a reformatted date

    [None] stands for one of the digits [0] to [9], [Some c] for the
    character [c];
    [SORTABLE] is [YYYY-MM-DD HH:MM]. *)
Fixpoint has_shape (shape : list (option N)) (s : str) : bool :=
  match shape, s with
  | [], [] => true
  | Some c :: shape', x :: s' => (x =? c) && has_shape shape' s'
  | None :: shape', x :: s' => Datetime.between 48 57 x && has_shape shape' s'
  | _, _ => false
  end.

Definition SORTABLE : list (option N) :=
  [None; None; None; None; Some 45; None; None; Some 45; None; None;
   Some 32; None; None; Some 58; None; None].

(** What a successful parse guarantees about the date it returns. *)
Definition in_range (dt : Datetime.datetime) : Prop :=
  1 <= Datetime.year dt <= 9999 /\ 1 <= Datetime.month dt <= 12
  /\ 1 <= Datetime.day dt <= 31
  /\ Datetime.hour dt <= 23 /\ Datetime.minute dt <= 59.

(** ** The extractor, strategy by strategy

    Each strategy gives the text of the element it finds, or nothing
    when its selector finds no element. *)

(** (1) the portal's own container, cleaned of scripts, styles, photo
    captions and bylines; only for a URL that names the portal. *)
Definition portal_text (url : str) (soup : Bs4.node) : option str :=
  if Py.contains (u"news.naver.com") url
  then option_map
         (fun el => Bs4.get_text_strip (Bs4.extract_all NAVER_UNWANTED el))
         (Bs4.select_one NAVER_BODY soup)
  else None.

(** (2) the first generic article container. *)
Definition container_text (soup : Bs4.node) : option str :=
  option_map Bs4.get_text_strip (head (Bs4.select GENERIC_BODY soup)).

(** (3) the paragraphs longer than 50 characters, joined by spaces. *)
Definition paragraphs_text (soup : Bs4.node) : option str :=
  match Bs4.select [Bs4.ByName "p"] soup with
  | [] => None
  | paragraphs =>
      Some (Py.join (u" ")
              (List.filter (fun t => (50 <? length t)%nat)
                 (List.map Bs4.get_text_strip paragraphs)))
  end.

Fixpoint first_some {A} (l : list (option A)) : option A :=
  match l with
  | [] => None
  | Some a :: _ => Some a
  | None :: rest => first_some rest
  end.

(** The text of the first strategy whose selector finds an element. *)
Definition applied_text (url : str) (soup : Bs4.node) : option str :=
  first_some [portal_text url soup; container_text soup; paragraphs_text soup].

(** The words of a text: its maximal runs of characters that are not
    white space.  [cur] is the word being read, reversed. *)
Fixpoint words_go (cur : str) (s : str) : list str :=
  match s with
  | [] => match cur with [] => [] | _ => [rev cur] end
  | c :: r =>
      if Py.isspace c
      then match cur with
           | [] => words_go [] r
           | _ => rev cur :: words_go [] r
           end
      else words_go (c :: cur) r
  end.

Definition words (s : str) : list str := words_go [] s.

(** A text with every run of white space collapsed to one space and
    none left at its ends: its words, one space between two. *)
Definition collapsed (s : str) : str := Py.join (u" ") (words s).

Definition TRUNCATION_MARKER : str := u"...".

(** The cascade as the specification words it: a strategy counts only
    when its text is not empty. *)
Definition nonempty_text (o : option (list N)) : option (list N) :=
  match o with
  | Some [] => None
  | other => other
  end.

Definition claimed_text (url : str) (soup : Bs4.node) : option str :=
  first_some
    [nonempty_text (portal_text url soup); nonempty_text (container_text soup);
     nonempty_text (paragraphs_text soup)].

(** [content[:MAX_CONTENT_LENGTH] + ("..." if it was longer)], by
    cases. *)
Definition truncated (content : str) : str :=
  if (MAX_CONTENT_LENGTH <? length content)%nat
  then firstn MAX_CONTENT_LENGTH content ++ TRUNCATION_MARKER
  else content.

Definition EXTRACTION_FAILED : str := u"기사 내용 추출 실패: ".

(** The fetch [extract_article_content] makes for [url]. *)
Definition fetch_page (url : str) : coro (result (option response)) :=
  make_request_with_retry url None HTTP_HEADERS MAX_RETRIES.

(** Documents for the extractor. *)
Definition element (name : string) (children : list Bs4.node) : Bs4.node :=
  Bs4.Tag name None [] children.

Definition long_sentence : str :=
  u"The committee published its report on Tuesday after months of hearings.".

(** An empty [article] element next to a paragraph worth reading. *)
Definition doc_empty_article : Bs4.node :=
  element "[document]"
    [element "article" []; element "p" [Bs4.Text long_sentence]].

(** Nothing but a short paragraph. *)
Definition doc_short_paragraph : Bs4.node :=
  element "[document]" [element "p" [Bs4.Text (u"Advertisement")]].

(** An article of 1001 letters. *)
Definition doc_long_article : Bs4.node :=
  element "[document]" [element "article" [Bs4.Text (repeat 97 1001)]].

(** A page of the portal: the body container with a byline inside, and
    a generic container that must not be read. *)
Definition doc_portal : Bs4.node :=
  element "[document]"
    [Bs4.Tag "div" (Some "newsEndContents"%string) []
       [Bs4.Text (u"  Rates were left" ++ nl ++ u"   unchanged. ");
        Bs4.Tag "div" None ["reporter_area"%string] [Bs4.Text (u"By a reporter")]];
     element "article" [Bs4.Text (u"Other stories")]].

(** A site that serves one document to every request. *)
Definition serving (doc : Bs4.node) : env := scripted [] (Responds (page 200 [] doc)).

(** The body in the specification's words: the first strategy with a
    text that is not empty decides, and the sentinel stands in when
    there is none. *)
Definition claimed_body (url : str) (soup : Bs4.node) : str :=
  match claimed_text url soup with
  | Some t => truncated (collapsed t)
  | None => NOT_EXTRACTABLE
  end.

(** ** What [extract_publisher] reads and looks for *)

Definition title_of (it : item) : str := default [] (it !! "title"%string).
Definition description_of (it : item) : str := default [] (it !! "description"%string).
Definition link_of (it : item) : str := default [] (it !! "link"%string).

Definition SEPARATOR : str := u" - ".
Definition SOURCE_MARKER : str := u"출처 : ".
Definition PORTAL_HOST : str := u"news.naver.com".
Definition UNKNOWN_PUBLISHER : str := u"알 수 없는 언론사".

(** [split] reads its text from the left, cuts at each separator it
    meets and resumes after it, so the separators it cuts at do not
    overlap.  [cuts sep s segs last]: [s] is the segments [segs] and
    [last] with a separator between two of them, no separator starts
    inside a segment of [segs] (not even one that would run into the
    separator after it), and [last] holds none. *)
Definition cuts (sep s : str) (segs : list (list N)) (last : str) : Prop :=
  s = Py.join sep (segs ++ [last])
  /\ Forall (fun seg => Py.contains sep (seg ++ removelast sep) = false) segs
  /\ Py.contains sep last = false.

(** While [split] reads a segment ([cur], reversed) with [s] still to
    come, no separator starts inside what it has read. *)
Definition clean_so_far (sep cur s : str) : Prop :=
  forall a b, rev cur = a ++ b -> b <> [] -> Py.startswith sep (b ++ s) = false.

(** ** Coroutines under every world *)

(** On every network whose answer [o] to a request [req] satisfies
    [ans req o], and whatever the event loop chooses, the value the
    coroutine returns satisfies [P]. *)
Fixpoint under {A} (ans : request -> get_outcome -> Prop) (P : A -> Prop)
    (c : coro A) : Prop :=
  match c with
  | Ret a => P a
  | Get req k => forall o, ans req o -> under ans P (k o)
  | Sleep _ k => under ans P k
  | Choose l r => under ans P l /\ under ans P r
  end.

(** Any network at all. *)
Definition any_answer (req : request) (o : get_outcome) : Prop := True.

(** The network that answers [f req] to [req]. *)
Definition answer_of (f : request -> get_outcome) (req : request)
    (o : get_outcome) : Prop := o = f req.

(** A coroutine that gathers nothing: the event loop has no choice to
    make in it. *)
Fixpoint choice_free {A} (c : coro A) : Prop :=
  match c with
  | Ret _ => True
  | Get _ k => forall o, choice_free (k o)
  | Sleep _ k => choice_free k
  | Choose _ _ => False
  end.

(** Its value on the network [f]. *)
Fixpoint value {A} (f : request -> get_outcome) (c : coro A) : A :=
  match c with
  | Ret a => a
  | Get req k => value f (k (f req))
  | Sleep _ k => value f k
  | Choose l _ => value f l
  end.

(** The network of [e] answers a request the same way at every time. *)
Definition timeless (e : env) : Prop :=
  forall h1 h2 req, net e h1 req = net e h2 req.

(** ** What the search tools send and print *)

(** The request for the search API, with the keyword stripped.  Both
    tools ask for 20 results. *)
Definition search_fetch (keyword : str) : coro (result (option response)) :=
  make_request_with_retry SEARCH_URL
    (Some (search_params (Py.strip keyword) 20)) NAVER_HEADERS MAX_RETRIES.

(** The block of one item, numbered [n], under the name [publisher]. *)
Definition news_block (n : nat) (publisher : str) (it : item) : str :=
  Py.str_of_nat n ++ u". [언론사] " ++ publisher ++ nl
  ++ u"   [제목] " ++ clean_title it ++ nl
  ++ u"   [시간] "
  ++ format_date (default (u"날짜 정보 없음") (it !! "pubDate"%string)) ++ nl
  ++ u"   [링크] " ++ default (u"#") (it !! "link"%string).

(** The same block followed by the body extracted for the item. *)
Definition content_news_block (n : nat) (publisher : str) (it : item)
    (body : str) : str :=
  news_block n publisher it ++ nl ++ u"   [본문]" ++ nl ++ body.

Definition shown_total (total : option Z) (items : list item) : str :=
  match total with
  | Some n => Py.str_of_Z n
  | None => Py.str_of_nat (length items)
  end.

(** What [search_news] returns for a result list: the summary line, the
    blocks two newlines apart, the analysis prompt. *)
Definition search_news_report (keyword : str) (total : option Z)
    (items : list item) (blocks : list (list N)) : str :=
  quote ++ Py.strip keyword ++ quote ++ u"에 관한 뉴스 " ++ shown_total total items
  ++ u"건 중 " ++ Py.str_of_nat (length items) ++ u"건을 찾았습니다." ++ nl ++ nl
  ++ Py.join (nl ++ nl) blocks ++ nl ++ nl ++ SEARCH_NEWS_PROMPT.

(** What [search_news_with_content] returns for it. *)
Definition content_report (keyword : str) (total : option Z)
    (items : list item) (blocks : list (list N)) : str :=
  quote ++ Py.strip keyword ++ quote ++ u"에 관한 뉴스 " ++ shown_total total items
  ++ u"건 중 " ++ Py.str_of_nat (length items)
  ++ u"건의 제목과 내용을 찾았습니다." ++ nl ++ nl
  ++ (nl ++ nl ++ Py.join (nl ++ nl) blocks) ++ nl ++ nl ++ WITH_CONTENT_PROMPT.

(** The link whose page is fetched for an item. *)
Definition page_link (it : item) : str := default (u"#") (it !! "link"%string).

(** ** A small newsroom

    Two hits of the search API and the sites behind their links.  The
    network answers by the URL alone; the event loop is a parameter. *)

Definition hit (title link pub_date : string) : item :=
  list_to_map
    [("title"%string, Py.lit title); ("link"%string, Py.lit link);
     ("pubDate"%string, Py.lit pub_date)].

Definition first_hit : item :=
  hit "Rates held <b>again</b> - The Daily Ledger"
      "https://ledger.example.com/rates"
      "Mon, 06 May 2025 10:30:00 +0900".

Definition second_hit : item :=
  hit "Ports reopen after the storm"
      "https://www.harbour.example.org/ports"
      "yesterday".

Definition search_page (body : list N + json) : response :=
  {| status_code := 200; text := [];
     json_body := match body with
                  | inl msg => inl (NotJson msg)
                  | inr document => inr document
                  end;
     soup := empty_doc; status_error := [] |}.

Definition newsroom (pick : list event -> bool) : env :=
  {| net := fun _ req =>
       if Py.eqb (url req) SEARCH_URL
       then Responds (search_page (inr (JsonDict (Some 2%Z) (Some [first_hit; second_hit]))))
       else if Py.eqb (url req) (u"https://ledger.example.com/rates")
       then Responds (page 200 [] (element "[document]"
                                     [element "article" [Bs4.Text (u"The bank held its rate.")]]))
       else if Py.eqb (url req) (u"https://www.harbour.example.org/ports")
       then Responds (page 200 [] (element "[document]"
                                     [element "main" [Bs4.Text (u"All berths are open.")]]))
       else Responds (page 404 [] empty_doc);
     sched := pick |}.

(** The URLs of the GETs in a history, in the order they were sent. *)
Definition urls_fetched (h : list event) : list (list N) :=
  flat_map (fun ev => match ev with EvGet req _ => [url req] | _ => [] end) h.

(** A search API that sends the same body to every request. *)
Definition answering (body : list N + json) : env :=
  {| net := fun _ _ => Responds (search_page body); sched := fun _ => true |}.

(** What the messages of [search_news] for a response it cannot use
    start with. *)
Definition COULD_NOT_PROCESS : str := u"검색 결과를 처리하는 중 오류가 발생했습니다".

(** The catch-all message of [search_news]'s outer handler. *)
Definition UNEXPECTED_SEARCH_ERROR : str :=
  u"뉴스 검색 중 예상치 못한 오류가 발생했습니다: ".

(** A hit whose link [urlparse] refuses, and a world in which the search
    API returns it and no site can be reached at such a link. *)
Definition bracket_hit : item :=
  hit "Ports reopen after the storm" "http://[invalid/"
      "Mon, 06 May 2025 10:30:00 +0900".

Definition bracket_world : env :=
  {| net := fun _ req =>
       if Py.eqb (url req) SEARCH_URL
       then Responds (search_page (inr (JsonDict (Some 2%Z) (Some [first_hit; bracket_hit]))))
       else if Py.eqb (url req) (u"https://ledger.example.com/rates")
       then Responds (page 200 [] (element "[document]"
                                     [element "article" [Bs4.Text (u"The bank held its rate.")]]))
       else Fails (OtherException (u"Invalid URL"));
     sched := fun _ => true |}.

(** The catch-all message of [search_news_with_content]'s inner
    handler. *)
Definition CONTENT_SEARCH_ERROR : str :=
  u"뉴스 검색 및 내용 가져오기 중 오류가 발생했습니다: ".

(** ** Timestamps as the search API writes them

    The name of a day, the day of the month, the name of a month, the
    year and the time of day, in Korean standard time:
    [Mon, 06 May 2025 10:30:00 +0900]. *)
Definition WEEKDAY_NAMES : list (list N) :=
  [u"Mon"; u"Tue"; u"Wed"; u"Thu"; u"Fri"; u"Sat"; u"Sun"].

Definition MONTH_NAMES : list (N * list N) :=
  [(1, u"Jan"); (2, u"Feb"); (3, u"Mar"); (4, u"Apr"); (5, u"May"); (6, u"Jun");
   (7, u"Jul"); (8, u"Aug"); (9, u"Sep"); (10, u"Oct"); (11, u"Nov"); (12, u"Dec")].

Definition digits4 (n : N) : str :=
  [Py.digit (n / 1000); Py.digit (n / 100 mod 10);
   Py.digit (n / 10 mod 10); Py.digit (n mod 10)].

Definition upstream_timestamp (wd : str) (d : N) (month_name : str)
    (y hh mi ss : N) : str :=
  wd ++ u", " ++ Datetime.digits2 d ++ u" " ++ month_name ++ u" "
  ++ digits4 y ++ u" " ++ Datetime.digits2 hh ++ u":"
  ++ Datetime.digits2 mi ++ u":" ++ Datetime.digits2 ss ++ u" +0900".

(** ** What a failed search is reported as *)

(** The request both search tools send to the search API. *)
Definition search_request (keyword : str) : request :=
  request_for SEARCH_URL (Some (search_params (Py.strip keyword) 20)) NAVER_HEADERS.

(** The request [extract_article_content] sends for a link. *)
Definition page_request (link : str) : request :=
  request_for link None HTTP_HEADERS.

Definition SEARCH_TIMED_OUT : str :=
  u"검색 중 시간 초과가 발생했습니다. 잠시 후 다시 시도해 주세요.".
Definition AUTH_FAILED : str :=
  u"API 인증에 실패했습니다. API 키를 확인해 주세요.".
Definition TOO_MANY_REQUESTS : str :=
  u"너무 많은 요청을 보냈습니다. 잠시 후 다시 시도해 주세요.".
Definition SERVER_ERROR : str :=
  u"서버 오류가 발생했습니다. 잠시 후 다시 시도해 주세요.".
Definition NETWORK_PROBLEM : str :=
  u"네트워크 연결 문제가 발생했습니다. 인터넷 연결을 확인해 주세요.".

(** The message of [search_news] for an HTTP status that is an error. *)
Definition status_message (code : Z) : str :=
  if ((code =? 401) || (code =? 403))%Z then AUTH_FAILED
  else if (code =? 429)%Z then TOO_MANY_REQUESTS
  else if (500 <=? code)%Z then SERVER_ERROR
  else u"검색 중 오류가 발생했습니다 (HTTP " ++ Py.str_of_Z code ++ u")".

(** The message of [search_news] for the exception its fetch ended
    with. *)
Definition search_failure (x : exn) : str :=
  match x with
  | TimeoutException _ => SEARCH_TIMED_OUT
  | HTTPStatusError _ r => status_message (status_code r)
  | RequestError _ => NETWORK_PROBLEM
  | other => UNEXPECTED_SEARCH_ERROR ++ str_exn other
  end.

(** A failure that another attempt may cure: anything but an HTTP
    status other than 429 and below 500. *)
Definition transient (x : exn) : bool :=
  match x with
  | HTTPStatusError _ r => retry_status (status_code r)
  | _ => true
  end.

(** The search API rejects the credentials every time. *)
Definition unauthorized : env :=
  scripted [] (Responds (page 401 [] empty_doc)).

(** The value a fetch ends with, by the verdict on its last attempt. *)
Definition fetch_result (v : verdict) : result (option response) :=
  match v with
  | Succeeds r => Ok (Some r)
  | Retried x | Surfaced x => Raise x
  end.


(** ** Text with single spaces

    [spaced_ok after_space s]: every white space character of [s] is a
    plain space, no two of them are adjacent, and [s] ends with a
    character that is not white space; with [after_space] a space is
    not allowed in front either. *)
Fixpoint spaced_ok (after_space : bool) (s : str) : bool :=
  match s with
  | [] => negb after_space
  | c :: r =>
      if Py.isspace c
      then (c =? 32) && negb after_space && spaced_ok true r
      else spaced_ok false r
  end.

(** A text that is empty, or made of words with one space between two
    of them and none at its ends. *)
Definition single_spaced (s : str) : bool :=
  match s with
  | [] => true
  | _ => spaced_ok true s
  end.

(** ** What a coroutine sends *)

(** The requests of a history, in the order in which they were sent. *)
Definition sent (h : list event) : list request :=
  flat_map (fun ev => match ev with EvGet req _ => [req] | _ => [] end) h.

(** Whatever the network answers and whatever the event loop chooses,
    the coroutine sends at most [n] requests, and each of them satisfies
    [P]. *)
Fixpoint sends {A} (P : request -> Prop) (n : nat) (c : coro A) : Prop :=
  match c with
  | Ret _ => True
  | Get req k =>
      P req /\ match n with
               | O => False
               | S m => forall o, sends P m (k o)
               end
  | Sleep _ k => sends P n k
  | Choose l r => sends P n l /\ sends P n r
  end.

(** The items of the search response a fetch ended with; none when the
    fetch failed or the response has no list of items. *)
Definition found_items (res : result (option response)) : list item :=
  match res with
  | Ok (Some r) =>
      match json_body r with
      | inr (JsonDict _ (Some items)) => items
      | _ => []
      end
  | _ => []
  end.

(** A request of the tools called with [keyword]: the search request,
    the only one with the credentials of the search API, or the request
    for a page, with the headers of a browser and no parameters. *)
Definition tool_request (keyword : str) (req : request) : Prop :=
  req = search_request keyword \/ exists link, req = page_request link.

(** * Properties *)

(** ** The string model on small inputs *)

Example lit_decodes_utf8 : u"가 a" = [0xAC00; 32; 97].
Proof. reflexivity. Qed.

Example split_resumes_after_separator :
  Py.split (u" - ") (u"a - b - - c") = [u"a"; u"b"; u"- c"]
  /\ Py.split (u" - ") (u"a - ") = [u"a"; []]
  /\ Py.split (u" - ") (u"abc") = [u"abc"].
Proof. repeat split; reflexivity. Qed.

Example replace_everywhere : Py.replace (u"www.") [] (u"www.awww.b") = u"ab".
Proof. reflexivity. Qed.

Example str_of_numbers :
  Py.str_of_N 0 = u"0" /\ Py.str_of_N 9 = u"9" /\ Py.str_of_N 1023 = u"1023"
  /\ Py.str_of_N 1024 = u"1024" /\ Py.str_of_Z (-42) = u"-42"
  /\ Py.str_of_nat 20 = u"20".
Proof. repeat split; reflexivity. Qed.

Example strip_is_unicode_aware :
  Py.strip ([0x3000; 9] ++ u"a b" ++ [0xA0; 10]) = u"a b".
Proof. reflexivity. Qed.

Example netloc_examples :
  Urllib.netloc (u"https://www.chosun.com/economy/1?x=1") = Ok (u"www.chosun.com")
  /\ Urllib.netloc (u"//n.news.naver.com#top") = Ok (u"n.news.naver.com")
  /\ Urllib.netloc (u"mailto:desk@example.com") = Ok []
  /\ Urllib.netloc (u"news/12345") = Ok []
  /\ Urllib.netloc (u"http://[2001:db8::1]:8080/a") = Ok (u"[2001:db8::1]:8080").
Proof. vm_compute. repeat split; reflexivity. Qed.

(** Links that [urlparse] refuses. *)
Example netloc_refused :
  Urllib.netloc (u"http://[invalid/") = Raise (ValueError (u"Invalid IPv6 URL"))
  /\ Urllib.netloc (u"http://[192.0.2.1]/")
     = Raise (ValueError (u"An IPv4 address cannot be in brackets"))
  /\ Urllib.netloc (u"http://[news]/")
     = Raise (ValueError (u"'news' does not appear to be an IPv4 or IPv6 address"))
  /\ Urllib.netloc (u"http://a℀b/")
     = Raise (ValueError
                (u"netloc 'a℀b' contains invalid characters under NFKC normalization")).
Proof. vm_compute. repeat split; reflexivity. Qed.

(** ** Running sequenced coroutines *)

Section Run.
Context (e : env).

Lemma run_bind {A B} (c : coro A) (f : A -> coro B) (h : list event) :
  run e (bind c f) h = run e (f (run e c h).1) (run e c h).2.
Proof.
  revert h. induction c as [a | req k IH | secs k IH | l IHl r IHr]; intros h; simpl.
  - reflexivity.
  - apply IH.
  - apply IH.
  - destruct (sched e h); [apply IHl | apply IHr].
Qed.

Lemma run_try_except {A} (c : coro (result A)) (handler : exn -> coro A) h :
  run e (try_except c handler) h =
  match (run e c h).1 with
  | Ok a => (a, (run e c h).2)
  | Raise x => run e (handler x) (run e c h).2
  end.
Proof.
  unfold try_except. rewrite run_bind. destruct (run e c h).1; reflexivity.
Qed.

Lemma run_await {A} (c : coro A) h :
  run e (await c) h = (Ok (run e c h).1, (run e c h).2).
Proof. unfold await. rewrite run_bind. reflexivity. Qed.

Lemma run_bind_result {A B} (c : coro (result A)) (f : A -> coro (result B)) h :
  run e (bind_result c f) h =
  match (run e c h).1 with
  | Ok a => run e (f a) (run e c h).2
  | Raise x => (Raise x, (run e c h).2)
  end.
Proof.
  unfold bind_result. rewrite run_bind. destruct (run e c h).1; reflexivity.
Qed.

End Run.

(** ** The perspective tool is the content tool plus a suffix *)

Lemma run_compare (keyword : str) (e : env) (h : list event) :
  run e (compare_news_perspectives keyword) h =
  ((run e (search_news_with_content keyword) h).1 ++ PERSPECTIVES_SUFFIX,
   (run e (search_news_with_content keyword) h).2).
Proof.
  unfold compare_news_perspectives.
  rewrite run_try_except, run_bind_result, run_await. reflexivity.
Qed.

(** C10: for every keyword, whatever the network and the event loop do,
    [compare_news_perspectives] makes the awaits of
    [search_news_with_content] and returns its string with the fixed
    perspective instruction appended; the keyword may be empty or blank
    and the search may have failed. *)
Theorem compare_appends_suffix (keyword : str) (e : env) (h : list event) :
  run e (compare_news_perspectives keyword) h =
  ((run e (search_news_with_content keyword) h).1 ++ PERSPECTIVES_SUFFIX,
   (run e (search_news_with_content keyword) h).2).
Proof. apply run_compare. Qed.

(** ** Blank keywords *)

Lemma eqb_nil (s : str) : Py.eqb s [] = true <-> s = [].
Proof. destruct s; simpl; split; congruence. Qed.

Lemma lstrip_blank (s : str) : blank s -> Py.lstrip s = [].
Proof.
  induction 1 as [| c r Hc _ IH]; simpl; [reflexivity |].
  rewrite Hc. exact IH.
Qed.

Lemma strip_blank (s : str) : blank s -> Py.strip s = [].
Proof.
  intros Hb. unfold Py.strip. rewrite (lstrip_blank s Hb). reflexivity.
Qed.

Lemma blank_guard (keyword : str) :
  blank keyword -> Py.eqb keyword [] || Py.eqb (Py.strip keyword) [] = true.
Proof.
  intros Hb. apply orb_true_iff. right. apply eqb_nil, strip_blank, Hb.
Qed.

(** C6 as stated fails for [compare_news_perspectives]: on the empty
    keyword it makes no request, but what it returns is not the fixed
    rejection message. *)
Lemma blank_keyword_compare_not_fixed :
  (run offline (compare_news_perspectives []) []).1 <> ENTER_KEYWORD.
Proof. vm_compute. discriminate. Qed.

(** C6, amended: for every empty or blank keyword, [search_news] and
    [search_news_with_content] return the fixed rejection message and
    [compare_news_perspectives] returns that message followed by its
    perspective instruction; none of the three awaits anything, so the
    history of the world is left as it was (no request is sent). *)
Theorem blank_keyword_rejected (keyword : str) (e : env) (h : list event) :
  blank keyword ->
  run e (search_news keyword) h = (ENTER_KEYWORD, h)
  /\ run e (search_news_with_content keyword) h = (ENTER_KEYWORD, h)
  /\ run e (compare_news_perspectives keyword) h
     = (ENTER_KEYWORD ++ PERSPECTIVES_SUFFIX, h).
Proof.
  intros Hb. pose proof (blank_guard keyword Hb) as Hg.
  assert (Hw : run e (search_news_with_content keyword) h = (ENTER_KEYWORD, h)).
  { unfold search_news_with_content. rewrite Hg. reflexivity. }
  repeat split.
  - unfold search_news. rewrite Hg. reflexivity.
  - exact Hw.
  - rewrite run_compare, Hw. reflexivity.
Qed.

Lemma blank_keyword_rejected_witness :
  blank (u"  ") /\
  (run offline (search_news (u"  ")) [] = (ENTER_KEYWORD, [])
   /\ run offline (search_news_with_content (u"  ")) [] = (ENTER_KEYWORD, [])
   /\ run offline (compare_news_perspectives (u"  ")) []
      = (ENTER_KEYWORD ++ PERSPECTIVES_SUFFIX, [])).
Proof.
  assert (Hb : blank (u"  ")) by (repeat constructor).
  split; [exact Hb | apply blank_keyword_rejected; exact Hb].
Defined.

(** ** The retry policy of [make_request_with_retry] *)

Lemma retry_loop_step e req N a rest h :
  run e (retry_loop req N (a :: rest)) h =
  let o := net e h req in
  let h1 := h ++ [EvGet req o] in
  match verdict_of o with
  | Succeeds r => (Ok (Some r), h1)
  | Surfaced x => (Raise x, h1)
  | Retried x =>
      if (a <? N - 1)%nat
      then run e (retry_loop req N rest) (h1 ++ [EvSleep RETRY_DELAY])
      else (Raise x, h1)
  end.
Proof.
  cbn [retry_loop]. rewrite run_bind, run_bind_result.
  unfold client_get. cbn [run fst snd].
  destruct (net e h req) as [r | x]; cbn [run fst snd verdict_of].
  - rewrite run_bind_result. cbn [run fst snd]. unfold raise_for_status.
    destruct ((200 <=? status_code r) && (status_code r <=? 299))%Z; cbn [run fst snd].
    + reflexivity.
    + unfold retry_status.
      replace (status_code r >=? 500)%Z with (500 <=? status_code r)%Z
        by (rewrite Z.geb_leb; reflexivity).
      destruct ((status_code r =? 429) || (500 <=? status_code r))%Z; cbn [andb].
      * destruct (a <? N - 1)%nat; reflexivity.
      * reflexivity.
  - destruct x as [m | m r | m | m | m | m | m]; cbn [run fst snd];
      try (destruct (a <? N - 1)%nat; reflexivity).
    unfold retry_status.
    replace (status_code r >=? 500)%Z with (500 <=? status_code r)%Z
      by (rewrite Z.geb_leb; reflexivity).
    destruct ((status_code r =? 429) || (500 <=? status_code r))%Z; cbn [andb].
    + destruct (a <? N - 1)%nat; reflexivity.
    + reflexivity.
Qed.

Lemma attempts_trace_cons req o os :
  os <> [] ->
  attempts_trace req (o :: os)
  = [EvGet req o; EvSleep RETRY_DELAY] ++ attempts_trace req os.
Proof. destruct os; [congruence | reflexivity]. Qed.

Lemma answers_head e h req o os : answers e h req (o :: os) -> net e h req = o.
Proof.
  intros Ha. specialize (Ha 0%nat o eq_refl).
  unfold before_attempt in Ha. simpl in Ha. rewrite app_nil_r in Ha. exact Ha.
Qed.

Lemma answers_tail e h req o os :
  answers e h req (o :: os) ->
  answers e ((h ++ [EvGet req o]) ++ [EvSleep RETRY_DELAY]) req os.
Proof.
  intros Ha k o' Hk. specialize (Ha (S k) o' Hk).
  unfold before_attempt in *. simpl in Ha.
  rewrite <- !app_assoc. simpl. exact Ha.
Qed.

(** The loop from attempt [a] on, when the attempts still to come have
    the outcomes [earlier ++ [final]]. *)
Lemma retry_loop_run e req N earlier : forall a h final,
  (a + length earlier < N)%nat ->
  Forall is_retried earlier ->
  answers e h req (earlier ++ [final]) ->
  match verdict_of final with
  | Succeeds r =>
      run e (retry_loop req N (seq a (N - a))) h
      = (Ok (Some r), h ++ attempts_trace req (earlier ++ [final]))
  | Surfaced x =>
      run e (retry_loop req N (seq a (N - a))) h
      = (Raise x, h ++ attempts_trace req (earlier ++ [final]))
  | Retried x =>
      S (a + length earlier) = N ->
      run e (retry_loop req N (seq a (N - a))) h
      = (Raise x, h ++ attempts_trace req (earlier ++ [final]))
  end.
Proof.
  induction earlier as [| o rest IH]; intros a h final Hlt Hretried Hans.
  - simpl in Hlt. replace (N - a)%nat with (S (N - S a)) by lia.
    cbn [seq app]. rewrite retry_loop_step.
    rewrite (answers_head _ _ _ _ _ Hans). cbn zeta.
    destruct (verdict_of final) as [r | x | x]; cbn [attempts_trace]; try reflexivity.
    intros HN. simpl in HN.
    replace (a <? N - 1)%nat with false; [reflexivity |].
    symmetry. apply Nat.ltb_ge. lia.
  - simpl in Hlt. replace (N - a)%nat with (S (N - S a)) by lia.
    cbn [seq]. rewrite retry_loop_step.
    change ((o :: rest) ++ [final]) with (o :: (rest ++ [final])) in *.
    rewrite (answers_head _ _ _ _ _ Hans). cbn zeta.
    inversion Hretried as [| ? ? [x Hx] Hrest]; subst.
    rewrite Hx.
    replace (a <? N - 1)%nat with true by (symmetry; apply Nat.ltb_lt; lia).
    rewrite attempts_trace_cons by (destruct rest; discriminate).
    specialize (IH (S a) ((h ++ [EvGet req o]) ++ [EvSleep RETRY_DELAY]) final).
    assert (Hlt' : (S a + length rest < N)%nat) by lia.
    specialize (IH Hlt' Hrest (answers_tail _ _ _ _ _ Hans)).
    rewrite <- !app_assoc in IH. rewrite <- !app_assoc. simpl in *.
    destruct (verdict_of final); [exact IH | | exact IH].
    intros HN. apply IH. lia.
Qed.

Lemma answers_cons e h req o os :
  net e h req = o ->
  answers e ((h ++ [EvGet req o]) ++ [EvSleep RETRY_DELAY]) req os ->
  answers e h req (o :: os).
Proof.
  intros Ho Hos [| k] o' Hk.
  - unfold before_attempt. simpl in *. rewrite app_nil_r. congruence.
  - specialize (Hos k o' Hk). unfold before_attempt in *. simpl.
    rewrite <- !app_assoc in Hos. exact Hos.
Qed.

(** Every fetch is of the kind the policy describes: the network's
    answers along it are some retried failures, fewer than the attempts
    allowed, and a final outcome that, if it is again a retried failure,
    is the last attempt allowed. *)
Lemma retry_attempts_exist e req : forall n h,
  (1 <= n)%nat ->
  exists earlier final,
    (length earlier < n)%nat /\ Forall is_retried earlier
    /\ answers e h req (earlier ++ [final])
    /\ (is_retried final -> S (length earlier) = n).
Proof.
  induction n as [| n IH]; intros h Hn; [lia |].
  destruct n as [| m].
  - exists [], (net e h req). repeat split; auto.
    intros [| k] o Hk; [| destruct k; discriminate].
    unfold before_attempt. simpl in *. rewrite app_nil_r. congruence.
  - destruct (verdict_of (net e h req)) as [r | x | x] eqn:Hv.
    + exists [], (net e h req). repeat split; [simpl; lia | constructor | |].
      * apply answers_cons; [reflexivity |]. intros k o Hk. destruct k; discriminate.
      * intros [x Hx]. congruence.
    + destruct (IH ((h ++ [EvGet req (net e h req)]) ++ [EvSleep RETRY_DELAY])) 
        as (earlier & final & Hlen & Hret & Hans & Hlast); [lia |].
      exists (net e h req :: earlier), final. repeat split.
      * simpl. lia.
      * constructor; [exists x; exact Hv | exact Hret].
      * apply answers_cons; [reflexivity | exact Hans].
      * intros Hf. simpl. f_equal. apply Hlast, Hf.
    + exists [], (net e h req). repeat split; [simpl; lia | constructor | |].
      * apply answers_cons; [reflexivity |]. intros k o Hk. destruct k; discriminate.
      * intros [x' Hx]. congruence.
Qed.

(** C1: for every URL and every number [N >= 1] of attempts: let the
    first attempts, fewer than [N] of them, each fail by a timeout, a
    transport error or a status of 429 or at least 500, and let [final]
    be the outcome of the attempt after them.  Then the fetch makes
    exactly these attempts, with one sleep of [RETRY_DELAY] between two
    of them, and
    - if [final] is a 2xx response, that response is returned and none
      of the earlier failures reaches the caller;
    - if [final] is any other failure (for instance a 404), it is
      raised at once, so a first attempt answered 404 is the only one;
    - if [final] is again a failure of the retried kind and was attempt
      number [N], that last failure is raised. *)
Theorem retry_policy (url : str) (params : option (list (string * param)))
    (headers : header_set) (N : nat) (e : env) (h : list event)
    (earlier : list get_outcome) (final : get_outcome) :
  let req := request_for url params headers in
  let fetch := make_request_with_retry url params headers N in
  (1 <= N)%nat ->
  (length earlier < N)%nat ->
  Forall is_retried earlier ->
  answers e h req (earlier ++ [final]) ->
  match verdict_of final with
  | Succeeds r =>
      run e fetch h = (Ok (Some r), h ++ attempts_trace req (earlier ++ [final]))
  | Surfaced x =>
      run e fetch h = (Raise x, h ++ attempts_trace req (earlier ++ [final]))
  | Retried x =>
      S (length earlier) = N ->
      run e fetch h = (Raise x, h ++ attempts_trace req (earlier ++ [final]))
  end.
Proof.
  intros req fetch _ Hlt Hretried Hans.
  pose proof (retry_loop_run e req N earlier 0%nat h final Hlt Hretried Hans) as H.
  unfold fetch, make_request_with_retry. fold (request_for url params headers).
  fold req. rewrite Nat.sub_0_r in H. exact H.
Qed.

Lemma retry_policy_witness :
  run flaky (make_request_with_retry sample_url None HTTP_HEADERS 3) []
  = (Ok (Some (page 200 (u"ok") empty_doc)),
     attempts_trace (request_for sample_url None HTTP_HEADERS)
       [Responds (page 503 [] empty_doc); Responds (page 503 [] empty_doc);
        Responds (page 200 (u"ok") empty_doc)]).
Proof.
  refine (retry_policy sample_url None HTTP_HEADERS 3 flaky []
            [Responds (page 503 [] empty_doc); Responds (page 503 [] empty_doc)]
            (Responds (page 200 (u"ok") empty_doc)) _ _ _ _).
  - lia.
  - simpl. lia.
  - repeat constructor; eexists; reflexivity.
  - intros [| [| [| k]]] o Ho; simpl in Ho; inversion Ho; reflexivity.
Defined.

(** A backend that always answers 404 is asked once. *)
Example not_found_is_not_retried :
  run always_404 (make_request_with_retry sample_url None HTTP_HEADERS 3) []
  = (Raise (HTTPStatusError (u"HTTP status 404") (page 404 [] empty_doc)),
     [EvGet (request_for sample_url None HTTP_HEADERS)
            (Responds (page 404 [] empty_doc))]).
Proof. reflexivity. Qed.

(** With no attempt allowed the loop body never runs and the function
    returns [None] without a request. *)
Example no_attempts_returns_none (e : env) (h : list event) :
  run e (make_request_with_retry sample_url None HTTP_HEADERS 0) h = (Ok None, h).
Proof. reflexivity. Qed.

(** ** Every fetch, on every network *)

Lemma verdict_succeeds (o : get_outcome) (r : response) :
  verdict_of o = Succeeds r ->
  o = Responds r /\ (200 <= status_code r <= 299)%Z.
Proof.
  destruct o as [r' | x]; simpl.
  - destruct ((200 <=? status_code r') && (status_code r' <=? 299))%Z eqn:E.
    + intros [= ->]. split; [reflexivity | lia].
    + destruct (retry_status (status_code r')); discriminate.
  - destruct x; try discriminate.
    destruct (retry_status (status_code r0)); discriminate.
Qed.

Lemma verdict_surfaced (o : get_outcome) (x : exn) :
  verdict_of o = Surfaced x -> transient x = false.
Proof.
  destruct o as [r | y]; simpl.
  - destruct ((200 <=? status_code r) && (status_code r <=? 299))%Z; [discriminate |].
    destruct (retry_status (status_code r)) eqn:E; [discriminate |].
    intros [= <-]. exact E.
  - destruct y; try discriminate.
    destruct (retry_status (status_code r)) eqn:E; [discriminate |].
    intros [= <-]. exact E.
Qed.

(** Whatever the network does, a fetch with at least one attempt allowed
    runs as the retry policy says. *)
Lemma fetch_cases (e : env) (url : str) (params : option (list (string * param)))
    (headers : header_set) (N : nat) (h : list event) :
  (1 <= N)%nat ->
  exists earlier final,
    (length earlier < N)%nat /\ Forall is_retried earlier
    /\ (is_retried final -> S (length earlier) = N)
    /\ run e (make_request_with_retry url params headers N) h
       = (fetch_result (verdict_of final),
          h ++ attempts_trace (request_for url params headers) (earlier ++ [final])).
Proof.
  intros HN.
  destruct (retry_attempts_exist e (request_for url params headers) N h HN)
    as (earlier & final & Hlen & Hret & Hans & Hlast).
  exists earlier, final. repeat split; try assumption.
  pose proof (retry_loop_run e _ N earlier 0%nat h final Hlen Hret Hans) as H.
  rewrite Nat.sub_0_r in H. unfold make_request_with_retry.
  fold (request_for url params headers).
  destruct (verdict_of final) as [r | x | x] eqn:Hv; cbn [fetch_result]; try exact H.
  apply H. simpl. apply Hlast. exists x. exact Hv.
Qed.

Lemma count_gets_app (h1 h2 : list event) :
  count_gets (h1 ++ h2) = (count_gets h1 + count_gets h2)%nat.
Proof. unfold count_gets. rewrite List.filter_app, length_app. reflexivity. Qed.

Lemma count_gets_attempts (req : request) (os : list get_outcome) :
  count_gets (attempts_trace req os) = length os.
Proof.
  induction os as [| o [| o' os] IH]; [reflexivity | reflexivity |].
  rewrite attempts_trace_cons by discriminate.
  rewrite count_gets_app, IH. reflexivity.
Qed.

(** ** [format_date] *)

Ltac bools :=
  repeat match goal with
  | H : _ && _ = true |- _ => apply andb_true_iff in H; destruct H
  | H : _ || _ = true |- _ => apply orb_true_iff in H; destruct H
  | H : (_ <=? _) = true |- _ => apply N.leb_le in H
  | H : (_ <? _) = true |- _ => apply N.ltb_lt in H
  | H : (_ =? _) = true |- _ => apply N.eqb_eq in H
  | H : N.eqb _ _ = true |- _ => apply N.eqb_eq in H
  end.

(** A decimal digit lies in its block of ten. *)
Lemma block_of_spec blocks c b : Py.block_of blocks c = Some b -> b <= c < b + 10.
Proof.
  induction blocks as [| x blocks IH]; simpl; [discriminate |].
  destruct ((x <=? c) && (c <? x + 10)) eqn:E; [| exact IH].
  intros [= <-]. bools. lia.
Qed.

Lemma block_of_head b rest c :
  b <= c < b + 10 -> Py.block_of (b :: rest) c = Some b.
Proof.
  intros H. simpl.
  replace ((b <=? c) && (c <? b + 10)) with true; [reflexivity |].
  symmetry. apply andb_true_iff. split; [apply N.leb_le | apply N.ltb_lt]; lia.
Qed.

Lemma decimal_ascii c : 48 <= c <= 57 -> Py.decimal c = Some (c - 48).
Proof.
  intros H. unfold Py.decimal.
  change Py.DECIMAL_DIGITS with (48 :: tl Py.DECIMAL_DIGITS).
  rewrite block_of_head by lia. reflexivity.
Qed.

Lemma val_le c : Datetime.val c <= 9.
Proof.
  unfold Datetime.val, Py.decimal.
  destruct (Py.block_of Py.DECIMAL_DIGITS c) as [b |] eqn:E; simpl; [| lia].
  apply block_of_spec in E. lia.
Qed.

Lemma val_ascii c : 48 <= c <= 57 -> Datetime.val c = c - 48.
Proof. intros H. unfold Datetime.val. rewrite decimal_ascii by exact H. reflexivity. Qed.

Lemma is_digit_ascii c : 48 <= c <= 57 -> Datetime.is_digit c = true.
Proof. intros H. unfold Datetime.is_digit. rewrite decimal_ascii by exact H. reflexivity. Qed.

Lemma val_space : Datetime.val 32 = 0.
Proof. reflexivity. Qed.

Lemma two_inv pa pb s n r :
  Datetime.two pa pb s = Some (n, r) ->
  exists a b, s = a :: b :: r /\ pa a = true /\ pb b = true
              /\ n = 10 * Datetime.val a + Datetime.val b.
Proof.
  unfold Datetime.two. destruct s as [| a [| b s']]; try discriminate.
  destruct (pa a) eqn:Ha; destruct (pb b) eqn:Hb; simpl; try discriminate.
  intros [= <- <-]. exists a, b. auto.
Qed.

Lemma one_inv pa s n r :
  Datetime.one pa s = Some (n, r) ->
  exists a, s = a :: r /\ pa a = true /\ n = Datetime.val a.
Proof.
  unfold Datetime.one. destruct s as [| a s']; try discriminate.
  destruct (pa a) eqn:Ha; try discriminate.
  intros [= <- <-]. exists a. auto.
Qed.

Lemma orelse_inv {A} (x y : option A) v :
  Datetime.orelse x y = Some v -> x = Some v \/ y = Some v.
Proof. destruct x; simpl; auto. Qed.

(** What is known of the value of each character read: a character of
    an ASCII range has its own value, any other digit a value up to 9. *)
Ltac digit_values :=
  unfold Datetime.between in *; bools;
  repeat match goal with
  | H : Datetime.is_digit ?a = true |- _ => pose proof (val_le a); clear H
  | H : 32 = ?a |- _ => subst a; rewrite val_space
  end;
  repeat match goal with
  | |- context [Datetime.val ?a] => rewrite (val_ascii a) by lia
  end.

Ltac alternatives H :=
  repeat (apply orelse_inv in H; destruct H as [H | H]);
  first [apply two_inv in H; destruct H as (?a & ?b & _ & ?Ha & ?Hb & ->)
        | apply one_inv in H; destruct H as (?a & _ & ?Ha & ->)];
  digit_values.

Lemma directive_H_bound s n r : Datetime.directive_H s = Some (n, r) -> n <= 23.
Proof. unfold Datetime.directive_H. intros H. alternatives H; lia. Qed.

Lemma directive_M_bound s n r : Datetime.directive_M s = Some (n, r) -> n <= 59.
Proof. unfold Datetime.directive_M. intros H. alternatives H; lia. Qed.

Lemma directive_Y_bound s n r : Datetime.directive_Y s = Some (n, r) -> n <= 9999.
Proof.
  unfold Datetime.directive_Y.
  destruct (Datetime.two _ _ s) as [[hi r1] |] eqn:E1; try discriminate.
  destruct (Datetime.two _ _ r1) as [[lo r2] |] eqn:E2; try discriminate.
  intros [= <- <-].
  apply two_inv in E1. destruct E1 as (a & b & _ & Ha & Hb & ->).
  apply two_inv in E2. destruct E2 as (c & d & _ & Hc & Hd & ->).
  digit_values. lia.
Qed.

Lemma one_of_bound names : forall idx s n r,
  Datetime.one_of names idx s = Some (n, r) ->
  idx <= n < idx + N.of_nat (length names).
Proof.
  induction names as [| name names IH]; intros idx s n r; simpl; [discriminate |].
  destruct (Datetime.nocase name s).
  - intros [= <- <-]. lia.
  - intros H. apply IH in H. lia.
Qed.

Lemma days_in_month_le y m : Datetime.days_in_month y m <= 31.
Proof.
  unfold Datetime.days_in_month.
  repeat match goal with |- context [if ?b then _ else _] => destruct b end; lia.
Qed.

Ltac parse_steps H :=
  repeat (apply bind_Some in H;
          first [destruct H as ([? ?] & ? & H) | destruct H as (? & ? & H)]).

Lemma strptime_in_range s dt : Datetime.strptime s = Some dt -> in_range dt.
Proof.
  unfold Datetime.strptime. intros H. parse_steps H.
  match type of H with (if ?c then _ else _) = _ => destruct c eqn:Hc end;
    [| discriminate].
  injection H as <-. unfold in_range.
  cbn [Datetime.year Datetime.month Datetime.day Datetime.hour Datetime.minute].
  repeat match goal with
  | H : Datetime.directive_Y _ = Some _ |- _ => apply directive_Y_bound in H
  | H : Datetime.directive_H _ = Some _ |- _ => apply directive_H_bound in H
  | H : Datetime.directive_M _ = Some _ |- _ => apply directive_M_bound in H
  | H : Datetime.one_of Datetime.a_month _ _ = Some _ |- _ =>
      apply one_of_bound in H; change (length Datetime.a_month) with 12%nat in H
  end.
  bools.
  match goal with
  | H : ?d <= Datetime.days_in_month ?y ?m |- _ =>
      pose proof (days_in_month_le y m)
  end.
  lia.
Qed.

Lemma is_digit_digit d : d < 10 -> Datetime.is_digit (Py.digit d) = true.
Proof. intros Hd. apply is_digit_ascii. unfold Py.digit. lia. Qed.

Lemma between_digit d : d < 10 -> Datetime.between 48 57 (Py.digit d) = true.
Proof.
  intros Hd. unfold Datetime.between, Py.digit.
  apply andb_true_iff. split; apply N.leb_le; lia.
Qed.

(** [str] of a number starts with one of the digits [0] to [9]. *)
Lemma digits_go_head fuel : forall n acc,
  exists d r, d < 10 /\ Py.digits_go (S fuel) n acc = Py.digit d :: r.
Proof.
  induction fuel as [| fuel IH]; intros n acc; cbn [Py.digits_go].
  - exists (n mod 10), acc. split; [apply N.mod_lt; discriminate |].
    destruct (n <? 10); reflexivity.
  - destruct (n <? 10).
    + exists (n mod 10), acc. split; [apply N.mod_lt; discriminate | reflexivity].
    + apply IH.
Qed.

Lemma str_of_N_head n : exists d r, d < 10 /\ Py.str_of_N n = Py.digit d :: r.
Proof. apply digits_go_head. Qed.

(** From 1000 to 9999 it has four digits. *)
Lemma str_of_N_four_digits y : 1000 <= y <= 9999 -> Py.str_of_N y = digits4 y.
Proof.
  intros Hy. unfold Py.str_of_N.
  assert (Hlog : 9 <= N.log2 y) by (apply (N.log2_le_mono 1000 y); lia).
  destruct (N.to_nat (N.log2 y)) as [| [| [| fuel]]] eqn:E; try lia.
  assert (E2 : y / 10 / 10 = y / 100) by (rewrite N.Div0.div_div; reflexivity).
  assert (E3 : y / 10 / 10 / 10 = y / 1000) by (rewrite !N.Div0.div_div; reflexivity).
  assert (H1 : 100 <= y / 10) by (apply N.div_le_lower_bound; lia).
  assert (H2 : 10 <= y / 100) by (apply N.div_le_lower_bound; lia).
  assert (H3 : y / 1000 < 10) by (apply N.Div0.div_lt_upper_bound; lia).
  cbn [Py.digits_go]. rewrite E3, E2.
  replace (y <? 10) with false by (symmetry; apply N.ltb_ge; lia).
  replace (y / 10 <? 10) with false by (symmetry; apply N.ltb_ge; lia).
  replace (y / 100 <? 10) with false by (symmetry; apply N.ltb_ge; lia).
  replace (y / 1000 <? 10) with true by (symmetry; apply N.ltb_lt; lia).
  unfold digits4. rewrite (N.mod_small (y / 1000) 10) by exact H3.
  reflexivity.
Qed.

(** With a year of four digits the reformatted date has the sortable
    shape. *)
Lemma strftime_sortable dt :
  in_range dt -> 1000 <= Datetime.year dt ->
  has_shape SORTABLE (Datetime.strftime dt) = true.
Proof.
  intros (Hy & Hm & Hd & HH & HM) Hy'.
  unfold Datetime.strftime. rewrite str_of_N_four_digits by lia.
  unfold digits4, Datetime.digits2, SORTABLE.
  cbn [app has_shape N.eqb Pos.eqb].
  rewrite !between_digit; try reflexivity;
    try (apply N.mod_lt; lia);
    try (apply N.Div0.div_lt_upper_bound; lia).
Qed.

(** A string that starts with one of the digits [0] to [9] does not
    start with the name of a day, so [strptime] refuses it. *)
Lemma strptime_digit_first c r :
  48 <= c <= 57 -> Datetime.strptime (c :: r) = None.
Proof.
  intros Hc. unfold Datetime.strptime.
  replace (Datetime.one_of Datetime.a_weekday 0 (c :: r)) with (@None (N * list N));
    [reflexivity |].
  assert (Hl : Datetime.lower c = c).
  { unfold Datetime.lower.
    destruct (65 <=? c) eqn:E; [| reflexivity].
    destruct (c <=? 90) eqn:E'; [| reflexivity]. bools. lia. }
  let v := eval vm_compute in Datetime.a_weekday in
    change Datetime.a_weekday with v.
  cbn [Datetime.one_of Datetime.nocase]. rewrite Hl.
  repeat match goal with
  | |- context [c =? ?k] => destruct (N.eqb_spec c k); [lia |]
  end.
  reflexivity.
Qed.

Lemma format_date_parsed s dt :
  Datetime.strptime s = Some dt -> format_date s = Datetime.strftime dt.
Proof. unfold format_date. intros ->. reflexivity. Qed.

Lemma format_date_unparsed s :
  Datetime.strptime s = None -> format_date s = s.
Proof. unfold format_date. intros ->. reflexivity. Qed.

Lemma strftime_unparsed dt : Datetime.strptime (Datetime.strftime dt) = None.
Proof.
  unfold Datetime.strftime.
  destruct (str_of_N_head (Datetime.year dt)) as (d & r & Hd & ->).
  cbn [app]. apply strptime_digit_first. unfold Py.digit. lia.
Qed.

Lemma format_date_idempotent s : format_date (format_date s) = format_date s.
Proof.
  destruct (Datetime.strptime s) as [dt |] eqn:E.
  - rewrite (format_date_parsed s dt E).
    apply format_date_unparsed, strftime_unparsed.
  - rewrite !(format_date_unparsed s E). reflexivity.
Qed.

(** The example of the docstring, and inputs the parser refuses. *)
Example format_date_docstring :
  format_date (u"Mon, 06 May 2025 10:30:00 +0900") = u"2025-05-06 10:30".
Proof. reflexivity. Qed.

Example format_date_keeps_garbage :
  format_date (u"2025-05-06 10:30") = u"2025-05-06 10:30"
  /\ format_date (u"Mon, 30 Feb 2025 10:30:00 +0900")
     = u"Mon, 30 Feb 2025 10:30:00 +0900"
  /\ format_date (u"날짜 정보 없음") = u"날짜 정보 없음".
Proof. repeat split; reflexivity. Qed.

(** ** Timestamps as the search API writes them *)

Lemma val_digit a : a <= 9 -> Datetime.val (Py.digit a) = a.
Proof. intros Ha. unfold Py.digit. rewrite val_ascii by lia. lia. Qed.

Lemma isspace_digit a : a <= 9 -> Py.isspace (Py.digit a) = false.
Proof.
  intros Ha. unfold Py.isspace, Py.digit.
  repeat match goal with
  | |- context [?x <=? ?y] => destruct (N.leb_spec x y); try lia
  | |- context [?x =? ?y] => destruct (N.eqb_spec x y); try lia
  end; reflexivity.
Qed.

Lemma digit_cases a :
  a <= 9 ->
  a = 0 \/ a = 1 \/ a = 2 \/ a = 3 \/ a = 4 \/ a = 5 \/ a = 6 \/ a = 7 \/ a = 8 \/ a = 9.
Proof. lia. Qed.

Ltac each_digit a :=
  let H := fresh "H" in
  assert (H : a <= 9) by lia;
  apply digit_cases in H;
  repeat (destruct H as [H | H]); subst a.

(** A number below 100 by its two decimal digits. *)
Lemma two_digits n :
  n <= 99 ->
  exists a b, a <= 9 /\ b <= 9 /\ n = 10 * a + b
              /\ Datetime.digits2 n = [Py.digit a; Py.digit b].
Proof.
  intros Hn. exists (n / 10), (n mod 10). repeat split.
  - apply N.lt_succ_r, N.Div0.div_lt_upper_bound. lia.
  - apply N.lt_succ_r, N.mod_lt. discriminate.
  - apply N.div_mod. discriminate.
Qed.

Ltac by_digits n :=
  let a := fresh "a" in let b := fresh "b" in
  let Ha := fresh "Ha" in let Hb := fresh "Hb" in
  let E := fresh "E" in let D := fresh "D" in
  destruct (two_digits n) as (a & b & Ha & Hb & E & D); [lia |];
  rewrite D; clear D; each_digit a; each_digit b;
  try lia; subst n; reflexivity.

Lemma directive_d_digits2 d r :
  1 <= d <= 31 -> Datetime.directive_d (Datetime.digits2 d ++ r) = Some (d, r).
Proof. intros Hd. unfold Datetime.directive_d. by_digits d. Qed.

Lemma directive_H_digits2 n r :
  n <= 23 -> Datetime.directive_H (Datetime.digits2 n ++ 58 :: r) = Some (n, 58 :: r).
Proof. intros Hn. by_digits n. Qed.

Lemma directive_M_digits2 n r :
  n <= 59 -> Datetime.directive_M (Datetime.digits2 n ++ 58 :: r) = Some (n, 58 :: r).
Proof. intros Hn. by_digits n. Qed.

Lemma directive_S_digits2 n r :
  n <= 59 -> Datetime.directive_S (Datetime.digits2 n ++ r) = Some (n, r).
Proof. intros Hn. by_digits n. Qed.

Lemma two_digit_chars a b r :
  a <= 9 -> b <= 9 ->
  Datetime.two Datetime.is_digit Datetime.is_digit (Py.digit a :: Py.digit b :: r)
  = Some (10 * a + b, r).
Proof.
  intros Ha Hb. unfold Datetime.two.
  rewrite !is_digit_digit by lia. rewrite !val_digit by lia. reflexivity.
Qed.

Lemma directive_Y_digits4 y r :
  y <= 9999 -> Datetime.directive_Y (digits4 y ++ r) = Some (y, r).
Proof.
  intros Hy. unfold Datetime.directive_Y, digits4. cbn [app].
  assert (H1000 : y / 1000 <= 9)
    by (apply N.lt_succ_r, N.Div0.div_lt_upper_bound; lia).
  assert (Hmod : forall n, n mod 10 <= 9)
    by (intros n; apply N.lt_succ_r, N.mod_lt; discriminate).
  rewrite two_digit_chars by auto. rewrite two_digit_chars by auto.
  do 2 f_equal.
  pose proof (N.Div0.div_mod y 10) as E1.
  pose proof (N.Div0.div_mod (y / 10) 10) as E2.
  pose proof (N.Div0.div_mod (y / 100) 10) as E3.
  rewrite N.Div0.div_div in E2, E3.
  change (10 * 10) with 100 in E2. change (100 * 10) with 1000 in E3.
  lia.
Qed.

(** [upstream_timestamp] of a day the calendar has is parsed to its own
    fields, so [format_date] prints them in the sortable form. *)
Lemma format_date_upstream (wd : str) (d m : N) (month_name : str) (y hh mi ss : N) :
  In wd WEEKDAY_NAMES -> In (m, month_name) MONTH_NAMES ->
  1 <= y <= 9999 -> 1 <= d <= Datetime.days_in_month y m ->
  hh <= 23 -> mi <= 59 -> ss <= 59 ->
  format_date (upstream_timestamp wd d month_name y hh mi ss)
  = Py.str_of_N y ++ u"-" ++ Datetime.digits2 m ++ u"-" ++ Datetime.digits2 d
    ++ u" " ++ Datetime.digits2 hh ++ u":" ++ Datetime.digits2 mi.
Proof.
  intros Hwd Hm Hy Hd Hhh Hmi Hss.
  pose proof (days_in_month_le y m) as Hdm.
  assert (Hparse :
    Datetime.strptime (upstream_timestamp wd d month_name y hh mi ss)
    = Some (Datetime.mkDatetime y m d hh mi ss 32400)).
  { unfold Datetime.strptime, upstream_timestamp.
    assert (Hsp : forall n r, n <= 99 ->
              Datetime.spaces (32 :: Datetime.digits2 n ++ r)
              = Some (Datetime.digits2 n ++ r)).
    { intros n r Hn. unfold Datetime.spaces, Datetime.digits2. cbn [app Py.lstrip].
      change (Py.isspace 32) with true. cbn iota.
      rewrite isspace_digit; [reflexivity |].
      apply N.lt_succ_r, N.Div0.div_lt_upper_bound. lia. }
    assert (Hsp4 : forall r,
              Datetime.spaces (32 :: digits4 y ++ r)
              = Some (digits4 y ++ r)).
    { intros r. unfold Datetime.spaces, digits4. cbn [app Py.lstrip].
      change (Py.isspace 32) with true. cbn iota.
      rewrite isspace_digit; [reflexivity |].
      apply N.lt_succ_r, N.Div0.div_lt_upper_bound. lia. }
    assert (Hwd' : exists i, forall r,
              Datetime.one_of Datetime.a_weekday 0 (wd ++ r) = Some (i, r)).
    { unfold WEEKDAY_NAMES in Hwd. simpl in Hwd.
      repeat (destruct Hwd as [<- | Hwd]; [eexists; intros r; reflexivity |]).
      contradiction. }
    assert (Hmonth : forall r,
              Datetime.one_of Datetime.a_month 1 (month_name ++ r) = Some (m, r)
              /\ Datetime.spaces (32 :: month_name ++ r) = Some (month_name ++ r)).
    { unfold MONTH_NAMES in Hm. simpl in Hm.
      repeat (destruct Hm as [[= <- <-] | Hm]; [intros r; split; reflexivity |]).
      contradiction. }
    destruct Hwd' as [i Hi]. rewrite Hi. cbn [mbind option_bind].
    change (u", ") with [44; 32]. change (u" ") with [32]. change (u":") with [58].
    cbn [app Datetime.exactly N.eqb Pos.eqb]. cbn [mbind option_bind].
    rewrite Hsp by lia. cbn [mbind option_bind].
    rewrite directive_d_digits2 by lia. cbn [mbind option_bind].
    rewrite (proj2 (Hmonth _)). cbn [mbind option_bind].
    rewrite (proj1 (Hmonth _)). cbn [mbind option_bind].
    rewrite Hsp4. cbn [mbind option_bind].
    rewrite directive_Y_digits4 by lia. cbn [mbind option_bind].
    rewrite Hsp by lia. cbn [mbind option_bind].
    rewrite directive_H_digits2 by lia. cbn [mbind option_bind].
    cbn [Datetime.exactly N.eqb Pos.eqb]. cbn [mbind option_bind].
    rewrite directive_M_digits2 by lia. cbn [mbind option_bind].
    cbn [Datetime.exactly N.eqb Pos.eqb]. cbn [mbind option_bind].
    rewrite directive_S_digits2 by lia. cbn [mbind option_bind].
    let v := eval vm_compute in (Datetime.spaces (u" +0900")) in
      change (Datetime.spaces (u" +0900")) with v.
    cbn [mbind option_bind].
    let v := eval vm_compute in (Datetime.directive_z [43; 48; 57; 48; 48]) in
      change (Datetime.directive_z [43; 48; 57; 48; 48]) with v.
    cbn [mbind option_bind Py.eqb andb].
    replace (1 <=? y) with true by (symmetry; apply N.leb_le; lia).
    replace (1 <=? d) with true by (symmetry; apply N.leb_le; lia).
    replace (d <=? Datetime.days_in_month y m) with true
      by (symmetry; apply N.leb_le; lia).
    replace (ss <=? 59) with true by (symmetry; apply N.leb_le; lia).
    reflexivity. }
  rewrite (format_date_parsed _ _ Hparse). reflexivity.
Qed.

Example format_date_upstream_example :
  format_date (upstream_timestamp (u"Thu") 29 (u"Feb") 2024 23 59 59)
  = u"2024-02-29 23:59".
Proof. reflexivity. Qed.

(** Digits of other scripts are digits to the parser; the date is
    printed with the digits [0] to [9]. *)
Example format_date_reads_any_decimal_digit :
  format_date (u"Mon, 06 May ２０２５ 10:30:00 +0900") = u"2025-05-06 10:30"
  /\ format_date (u"Mon, 06 May 2025 1٠:3０:00 +0900") = u"2025-05-06 10:30".
Proof. vm_compute. split; reflexivity. Qed.

(** A year below 1000 is printed without padding, so the result is not
    of the form [YYYY-MM-DD HH:MM]. *)
Lemma year_below_1000_unpadded :
  format_date (u"Mon, 06 May 0999 10:30:00 +0900") = u"999-05-06 10:30"
  /\ has_shape SORTABLE (format_date (u"Mon, 06 May 0999 10:30:00 +0900")) = false.
Proof. vm_compute. split; reflexivity. Qed.

(** C8: (1) a timestamp as the search API writes it, [Www, DD Mon YYYY
    HH:MM:SS +0900] with a weekday name, a day the month has in that
    year, a year from 1 to 9999 and a time of day, is parsed and
    reformatted to [Y-MM-DD HH:MM] with those very fields, where [Y] is
    the year in decimal without padding; from the year 1000 on that is
    [YYYY-MM-DD HH:MM];
    (2) for every string: if the parser accepts it, [format_date]
    returns the date it read, printed that way, with the fields in
    their ranges, and in the shape [YYYY-MM-DD HH:MM] when the year has
    four digits; if the parser refuses it, [format_date] returns the
    string itself (it has a value on every input: no exception leaves
    it);
    (3) applying [format_date] twice is the same as applying it
    once. *)
Theorem format_date_reformats_or_keeps :
  (forall (wd : str) (d m : N) (month_name : str) (y hh mi ss : N),
     In wd WEEKDAY_NAMES -> In (m, month_name) MONTH_NAMES ->
     1 <= y <= 9999 -> 1 <= d <= Datetime.days_in_month y m ->
     hh <= 23 -> mi <= 59 -> ss <= 59 ->
     format_date (upstream_timestamp wd d month_name y hh mi ss)
     = Py.str_of_N y ++ u"-" ++ Datetime.digits2 m ++ u"-" ++ Datetime.digits2 d
       ++ u" " ++ Datetime.digits2 hh ++ u":" ++ Datetime.digits2 mi
     /\ (1000 <= y -> Py.str_of_N y = digits4 y))
  /\ (forall s : str,
        match Datetime.strptime s with
        | Some dt =>
            in_range dt
            /\ format_date s = Datetime.strftime dt
            /\ (1000 <= Datetime.year dt ->
                has_shape SORTABLE (format_date s) = true)
        | None => format_date s = s
        end)
  /\ (forall s : str, format_date (format_date s) = format_date s).
Proof.
  split; [| split].
  - intros wd d m month_name y hh mi ss Hwd Hm Hy Hd Hhh Hmi Hss. split.
    + apply format_date_upstream; assumption.
    + intros Hy'. apply str_of_N_four_digits. lia.
  - intros s. destruct (Datetime.strptime s) as [dt |] eqn:E.
    + pose proof (strptime_in_range s dt E) as Hr.
      rewrite (format_date_parsed s dt E). repeat split; try apply Hr.
      intros Hy. apply strftime_sortable; assumption.
    + apply format_date_unparsed, E.
  - apply format_date_idempotent.
Qed.

(** ** White space: [strip] after [re.sub] leaves the words *)

Lemma lstrip_app (x y : str) :
  Py.lstrip (x ++ y) =
  match Py.lstrip x with [] => Py.lstrip y | lx => lx ++ y end.
Proof.
  induction x as [| c x IH]; simpl; [reflexivity |].
  destruct (Py.isspace c); [exact IH | reflexivity].
Qed.

Lemma rstrip_app (a b : str) :
  Py.rstrip (a ++ b) =
  match Py.rstrip b with [] => Py.rstrip a | rb => a ++ rb end.
Proof.
  unfold Py.rstrip. rewrite rev_app_distr, lstrip_app.
  destruct (Py.lstrip (rev b)) as [| c l]; [reflexivity |].
  rewrite rev_app_distr, rev_involutive.
  destruct (rev (c :: l)) eqn:E; [| reflexivity].
  apply (f_equal (@length N)) in E. rewrite length_rev in E. discriminate.
Qed.

Lemma rstrip_single (c : N) :
  Py.rstrip [c] = if Py.isspace c then [] else [c].
Proof. unfold Py.rstrip. simpl. destruct (Py.isspace c); reflexivity. Qed.

Lemma rstrip_word (w : str) (c : N) :
  Py.isspace c = false -> Py.rstrip (w ++ [c]) = w ++ [c].
Proof. intros Hc. rewrite rstrip_app, rstrip_single, Hc. reflexivity. Qed.

(** Inside a run of white space [re_sub_ws] emits nothing until the next
    word, so its output does not start with white space. *)
Lemma lstrip_re_sub_true (s : str) :
  Py.lstrip (Py.re_sub_ws true s) = Py.re_sub_ws true s.
Proof.
  induction s as [| c r IH]; simpl; [reflexivity |].
  destruct (Py.isspace c) eqn:Hc; [exact IH |]. simpl. rewrite Hc. reflexivity.
Qed.

Lemma lstrip_re_sub (s : str) :
  Py.lstrip (Py.re_sub_ws false s) = Py.re_sub_ws true s.
Proof.
  destruct s as [| c r]; simpl; [reflexivity |].
  destruct (Py.isspace c) eqn:Hc; simpl.
  - apply lstrip_re_sub_true.
  - rewrite Hc. reflexivity.
Qed.

Lemma words_go_nonempty (s : str) : forall cur, Forall (fun w => w <> []) (words_go cur s).
Proof.
  assert (Hrev : forall (c : N) cur, rev (c :: cur) <> []).
  { intros c cur E. apply (f_equal (@length N)) in E.
    rewrite length_rev in E. discriminate. }
  induction s as [| c r IH]; intros cur; simpl.
  - destruct cur; constructor; [apply Hrev | constructor].
  - destruct (Py.isspace c); [| apply IH].
    destruct cur; [apply IH |]. constructor; [apply Hrev | apply IH].
Qed.

Lemma join_nil (sep : str) (ws : list (list N)) :
  Forall (fun w => w <> []) ws -> Py.join sep ws = [] -> ws = [].
Proof.
  destruct ws as [| w [| w' ws]]; [reflexivity | |]; intros Hne; simpl; intros E.
  - inversion Hne; subst. contradiction.
  - inversion Hne; subst. destruct w; [contradiction | discriminate].
Qed.

Lemma join_cons (sep w : str) (ws : list (list N)) :
  Py.join sep (w :: ws) =
  match ws with [] => w | _ => w ++ sep ++ Py.join sep ws end.
Proof. destruct ws; reflexivity. Qed.

Lemma rstrip_re_sub (s : str) :
  Py.rstrip (Py.re_sub_ws true s) = Py.join (u" ") (words_go [] s)
  /\ forall c cur,
       Py.isspace c = false ->
       Py.rstrip (rev (c :: cur) ++ Py.re_sub_ws false s)
       = Py.join (u" ") (words_go (c :: cur) s).
Proof.
  induction s as [| a r [IHw IHv]]; cbn [Py.re_sub_ws words_go].
  - split; [reflexivity |]. intros c cur Hc. rewrite app_nil_r.
    cbn [rev Py.join]. apply rstrip_word, Hc.
  - destruct (Py.isspace a) eqn:Ha.
    + split; [exact IHw |]. intros c cur Hc.
      rewrite join_cons, rstrip_app.
      change (32 :: Py.re_sub_ws true r) with ([32] ++ Py.re_sub_ws true r).
      rewrite rstrip_app, IHw.
      destruct (Py.join (u" ") (words_go [] r)) as [| x l] eqn:E.
      * apply join_nil in E; [| apply words_go_nonempty]. rewrite E.
        rewrite rstrip_single. cbn [Py.isspace rev].
        change (Py.isspace 32) with true. cbn iota.
        apply rstrip_word, Hc.
      * destruct (words_go [] r) eqn:Ew; [discriminate E |].
        reflexivity.
    + split.
      * apply (IHv a [] Ha).
      * intros c cur Hc. specialize (IHv a (c :: cur) Ha).
        cbn [rev] in IHv |- *. rewrite <- !app_assoc in IHv.
        rewrite <- !app_assoc. exact IHv.
Qed.

(** [re.sub(r'\s+', ' ', s).strip()] is [s] with its runs of white space
    collapsed and its ends trimmed. *)
Lemma strip_re_sub_collapsed (s : str) :
  Py.strip (Py.re_sub_ws false s) = collapsed s.
Proof.
  unfold Py.strip, collapsed, words. rewrite lstrip_re_sub.
  apply (rstrip_re_sub s).
Qed.

(** ** The extraction cascade *)

Lemma slice_truncated (content : str) :
  firstn MAX_CONTENT_LENGTH content
  ++ (if (MAX_CONTENT_LENGTH <? length content)%nat then u"..." else [])
  = truncated content.
Proof.
  unfold truncated.
  destruct (MAX_CONTENT_LENGTH <? length content)%nat eqn:E; [reflexivity |].
  apply Nat.ltb_ge in E. rewrite app_nil_r. apply firstn_all2, E.
Qed.

Lemma other_sites_cascade (soup : Bs4.node) :
  match Bs4.select GENERIC_BODY soup with
  | first :: _ =>
      firstn MAX_CONTENT_LENGTH
        (Py.strip (Py.re_sub_ws false (Bs4.get_text_strip first)))
      ++ (if (MAX_CONTENT_LENGTH
              <? length (Py.strip (Py.re_sub_ws false (Bs4.get_text_strip first))))%nat
          then u"..." else [])
  | [] =>
      match Bs4.select [Bs4.ByName "p"] soup with
      | _ :: _ =>
          firstn MAX_CONTENT_LENGTH
            (Py.strip (Py.re_sub_ws false
               (Py.join (u" ")
                  (List.filter (fun t => (50 <? length t)%nat)
                     (List.map Bs4.get_text_strip (Bs4.select [Bs4.ByName "p"] soup))))))
          ++ (if (MAX_CONTENT_LENGTH
                  <? length
                       (Py.strip (Py.re_sub_ws false
                          (Py.join (u" ")
                             (List.filter (fun t => (50 <? length t)%nat)
                                (List.map Bs4.get_text_strip
                                   (Bs4.select [Bs4.ByName "p"] soup)))))))%nat
              then u"..." else [])
      | [] => NOT_EXTRACTABLE
      end
  end
  = match first_some [container_text soup; paragraphs_text soup] with
    | Some t => truncated (collapsed t)
    | None => NOT_EXTRACTABLE
    end.
Proof.
  unfold container_text, paragraphs_text.
  destruct (Bs4.select GENERIC_BODY soup) as [| first rest];
    cbn [head option_map first_some].
  - destruct (Bs4.select [Bs4.ByName "p"] soup) as [| p ps];
      cbn [first_some]; [reflexivity |].
    rewrite slice_truncated, strip_re_sub_collapsed. reflexivity.
  - rewrite slice_truncated, strip_re_sub_collapsed. reflexivity.
Qed.

Lemma article_text_cascade (url : str) (soup : Bs4.node) :
  article_text url soup =
  match applied_text url soup with
  | Some t => truncated (collapsed t)
  | None => NOT_EXTRACTABLE
  end.
Proof.
  unfold article_text, applied_text, portal_text. cbn zeta.
  destruct (Py.contains (u"news.naver.com") url).
  - destruct (Bs4.select_one NAVER_BODY soup) as [el |];
      cbn [option_map first_some].
    + rewrite slice_truncated, strip_re_sub_collapsed. reflexivity.
    + apply other_sites_cascade.
  - cbn [first_some]. apply other_sites_cascade.
Qed.

Lemma run_extract_article_content (e : env) (url : str) (h : list event) :
  run e (extract_article_content url) h =
  (match (run e (fetch_page url) h).1 with
   | Ok (Some r) => article_text url (soup r)
   | Ok None =>
       EXTRACTION_FAILED ++ u"'NoneType' object has no attribute 'text'"
   | Raise x => EXTRACTION_FAILED ++ str_exn x
   end,
   (run e (fetch_page url) h).2).
Proof.
  unfold extract_article_content. fold (fetch_page url).
  rewrite run_try_except, run_bind_result.
  destruct (run e (fetch_page url) h).1 as [[r |] | x]; reflexivity.
Qed.

Lemma extract_of_fetched (e : env) (url : str) (h : list event) (r : response) :
  (run e (fetch_page url) h).1 = Ok (Some r) ->
  (run e (extract_article_content url) h).1 =
  match applied_text url (soup r) with
  | Some t => truncated (collapsed t)
  | None => NOT_EXTRACTABLE
  end.
Proof.
  intros Hr. rewrite run_extract_article_content, Hr. cbn [fst].
  apply article_text_cascade.
Qed.

(** C2 as stated fails.  With an empty [article] element in the page the
    generic strategy decides and the body is empty, although the
    paragraphs hold a text; with nothing but a short paragraph the body
    is empty too and not the sentinel. *)
Lemma empty_match_still_decides :
  (run (serving doc_empty_article) (extract_article_content sample_url) []).1
    <> claimed_body sample_url doc_empty_article
  /\ (run (serving doc_empty_article) (extract_article_content sample_url) []).1 = []
  /\ claimed_body sample_url doc_empty_article = long_sentence
  /\ (run (serving doc_short_paragraph) (extract_article_content sample_url) []).1 = []
  /\ claimed_body sample_url doc_short_paragraph = NOT_EXTRACTABLE.
Proof. vm_compute. repeat split; discriminate. Qed.

(** C2, amended: for every fetched document and source URL the
    strategies are tried in strict priority order, (1) the portal's
    container when the URL names the portal, with script, style, caption
    and byline elements removed, (2) the first generic article or
    content container, (3) the paragraphs whose trimmed text is longer
    than 50 characters, joined by spaces; the first strategy whose
    selector finds an element decides the body, even when the text it
    finds is empty, and the sentinel is returned only when no selector
    finds an element. *)
Theorem extraction_cascade (e : env) (url : str) (h : list event) (r : response) :
  (run e (fetch_page url) h).1 = Ok (Some r) ->
  (run e (extract_article_content url) h).1 =
  match first_some [portal_text url (soup r); container_text (soup r);
                    paragraphs_text (soup r)] with
  | Some t => truncated (collapsed t)
  | None => NOT_EXTRACTABLE
  end.
Proof. apply extract_of_fetched. Qed.

Lemma extraction_cascade_witness :
  (run (serving doc_empty_article) (extract_article_content sample_url) []).1 =
  match first_some [portal_text sample_url doc_empty_article;
                    container_text doc_empty_article;
                    paragraphs_text doc_empty_article] with
  | Some t => truncated (collapsed t)
  | None => NOT_EXTRACTABLE
  end.
Proof.
  apply (extraction_cascade (serving doc_empty_article) sample_url []
           (page 200 [] doc_empty_article)).
  reflexivity.
Defined.

(** The sentinel needs a page without any of the elements looked for. *)
Example sentinel_for_bare_page :
  (run (serving empty_doc) (extract_article_content sample_url) []).1 = NOT_EXTRACTABLE.
Proof. reflexivity. Qed.

(** ** Normalisation and truncation of the body *)

(** C3: for every text that the deciding strategy produced, the body is
    that text with its runs of white space collapsed to single spaces
    and its ends trimmed, cut to its first [MAX_CONTENT_LENGTH]
    characters and followed by the marker when it was longer, and left
    as it is, with no marker, when it was not. *)
Theorem body_collapsed_then_truncated (e : env) (url : str) (h : list event)
    (r : response) (t : str) :
  (run e (fetch_page url) h).1 = Ok (Some r) ->
  applied_text url (soup r) = Some t ->
  let body := (run e (extract_article_content url) h).1 in
  ((MAX_CONTENT_LENGTH < length (collapsed t))%nat ->
   body = firstn MAX_CONTENT_LENGTH (collapsed t) ++ TRUNCATION_MARKER)
  /\ ((length (collapsed t) <= MAX_CONTENT_LENGTH)%nat -> body = collapsed t).
Proof.
  intros Hr Ht body. unfold body.
  rewrite (extract_of_fetched e url h r Hr), Ht. unfold truncated.
  split; intros Hlen.
  - apply Nat.ltb_lt in Hlen. rewrite Hlen. reflexivity.
  - apply Nat.ltb_ge in Hlen. rewrite Hlen. reflexivity.
Qed.

Lemma body_collapsed_then_truncated_witness :
  (run (serving doc_long_article) (extract_article_content sample_url) []).1
  = firstn MAX_CONTENT_LENGTH (collapsed (repeat 97 1001)) ++ TRUNCATION_MARKER.
Proof.
  refine (proj1 (body_collapsed_then_truncated (serving doc_long_article)
                   sample_url [] (page 200 [] doc_long_article)
                   (repeat 97 1001) _ _) _).
  - reflexivity.
  - reflexivity.
  - vm_compute. lia.
Defined.

(** On the portal its own container is read, without the byline. *)
Example portal_body_unmarked :
  (run (serving doc_portal) (extract_article_content (u"https://n.news.naver.com/article/1")) []).1
  = u"Rates were left unchanged.".
Proof. reflexivity. Qed.

Example collapsed_example :
  collapsed (u"  a 	 b   c ") = u"a b c".
Proof. reflexivity. Qed.

(** ** The length of the body *)

Lemma truncated_length (content : str) :
  (length (truncated content) <= MAX_CONTENT_LENGTH + length TRUNCATION_MARKER)%nat.
Proof.
  unfold truncated.
  destruct (MAX_CONTENT_LENGTH <? length content)%nat eqn:E.
  - rewrite length_app, length_take. lia.
  - apply Nat.ltb_ge in E. lia.
Qed.

Lemma article_text_length (url : str) (soup : Bs4.node) :
  (length (article_text url soup) <= MAX_CONTENT_LENGTH + length TRUNCATION_MARKER)%nat.
Proof.
  rewrite article_text_cascade.
  destruct (applied_text url soup); [apply truncated_length |].
  vm_compute. lia.
Qed.



(** ** [split] *)

Lemma startswith_app (p s : str) : Py.startswith p (p ++ s) = true.
Proof.
  induction p as [| x p IH]; simpl; [reflexivity |].
  rewrite N.eqb_refl. exact IH.
Qed.

Lemma startswith_inv (p : str) : forall s,
  Py.startswith p s = true -> exists s', s = p ++ s'.
Proof.
  induction p as [| x p IH]; intros s; simpl.
  - exists s. reflexivity.
  - destruct s as [| y s]; [discriminate |].
    intros H. apply andb_true_iff in H. destruct H as [Hxy Hp].
    apply N.eqb_eq in Hxy. subst y.
    destruct (IH s Hp) as [s' ->]. exists s'. reflexivity.
Qed.

Lemma split_go_nonempty (sep : str) (s : str) : forall skip cur,
  Py.split_go sep skip cur s <> [].
Proof.
  induction s as [| c r IH]; intros skip cur; simpl; [discriminate |].
  destruct skip; [| apply IH].
  destruct (Py.startswith sep (c :: r)); [discriminate | apply IH].
Qed.

(** Passing over the rest of a separator. *)
Lemma split_go_skip (sep : str) (x : str) : forall cur s,
  Py.split_go sep (length x) cur (x ++ s) = Py.split_go sep 0 cur s.
Proof.
  induction x as [| c x IH]; intros cur s; [reflexivity |].
  simpl. apply IH.
Qed.

Lemma split_go_match (sep : str) (c : N) (p : str) (cur s : str) :
  sep = c :: p ->
  Py.split_go sep 0 cur (sep ++ s) = rev cur :: Py.split_go sep 0 [] s.
Proof.
  intros ->. cbn [app Py.split_go].
  change (c :: p ++ s) with ((c :: p) ++ s). rewrite startswith_app.
  cbn [length pred]. rewrite split_go_skip. reflexivity.
Qed.

(** Joining the segments with the separator gives the string back. *)
Lemma join_split_go (sep : str) (n : nat) : forall s cur,
  sep <> [] -> (length s <= n)%nat ->
  Py.join sep (Py.split_go sep 0 cur s) = rev cur ++ s.
Proof.
  induction n as [| n IH]; intros s cur Hsep Hlen.
  - destruct s; [| simpl in Hlen; lia]. simpl. rewrite app_nil_r. reflexivity.
  - destruct s as [| c r]; [simpl; rewrite app_nil_r; reflexivity |].
    destruct (Py.startswith sep (c :: r)) eqn:Hm.
    + destruct (startswith_inv _ _ Hm) as [s' Hs'].
      destruct sep as [| x p]; [contradiction |].
      rewrite Hs', (split_go_match (x :: p) x p cur s' eq_refl), join_cons.
      pose proof (split_go_nonempty (x :: p) s' 0 []) as Hne.
      destruct (Py.split_go (x :: p) 0 [] s') eqn:E; [contradiction |].
      rewrite <- E, IH; [reflexivity | discriminate |].
      apply (f_equal (@length N)) in Hs'. rewrite length_app in Hs'.
      simpl in Hs', Hlen. lia.
    + cbn [Py.split_go]. rewrite Hm, IH; [| exact Hsep | simpl in Hlen; lia].
      cbn [rev]. rewrite <- app_assoc. reflexivity.
Qed.

Lemma join_split (sep s : str) : sep <> [] -> Py.join sep (Py.split sep s) = s.
Proof. intros Hsep. apply (join_split_go sep (length s) s [] Hsep). lia. Qed.

(** A string that contains the separator splits in two segments at
    least, so [split(...)[1]] exists. *)
Lemma split_go_contains (sep : str) (s : str) : forall cur,
  sep <> [] ->
  Py.contains sep s = true ->
  exists seg0 seg1 rest, Py.split_go sep 0 cur s = seg0 :: seg1 :: rest.
Proof.
  induction s as [| c r IH]; intros cur Hsep Hc.
  - destruct sep; [contradiction | discriminate].
  - cbn [Py.contains] in Hc. cbn [Py.split_go].
    destruct (Py.startswith sep (c :: r)) eqn:Hm.
    + pose proof (split_go_nonempty sep r (pred (length sep)) []) as Hne.
      destruct (Py.split_go sep (pred (length sep)) [] r) as [| seg1 rest];
        [contradiction |].
      exists (rev cur), seg1, rest. reflexivity.
    + apply (IH (c :: cur) Hsep Hc).
Qed.

Lemma contains_occurrence (sep : str) (x : str) :
  Py.contains sep x = true ->
  exists a b, x = a ++ b /\ Py.startswith sep b = true.
Proof.
  induction x as [| c x IH]; cbn [Py.contains]; intros H.
  - rewrite orb_false_r in H. exists [], []. auto.
  - apply orb_true_iff in H. destruct H as [H | H].
    + exists [], (c :: x). auto.
    + destruct (IH H) as (a & b & -> & Hb). exists (c :: a), b. auto.
Qed.

Lemma startswith_app_r (p b s : str) :
  Py.startswith p b = true -> Py.startswith p (b ++ s) = true.
Proof.
  intros H. destruct (startswith_inv _ _ H) as [b' ->].
  rewrite <- app_assoc. apply startswith_app.
Qed.

Lemma clean_segment (sep cur s : str) :
  sep <> [] -> clean_so_far sep cur s -> Py.contains sep (rev cur) = false.
Proof.
  intros Hsep Hclean. destruct (Py.contains sep (rev cur)) eqn:E; [| reflexivity].
  destruct (contains_occurrence _ _ E) as (a & b & Hab & Hb).
  destruct b as [| y b].
  - destruct sep; [contradiction | discriminate].
  - apply (startswith_app_r _ _ s) in Hb.
    rewrite (Hclean a (y :: b) Hab) in Hb by discriminate. discriminate.
Qed.

Lemma clean_step (sep cur : str) (c : N) (r : str) :
  Py.startswith sep (c :: r) = false ->
  clean_so_far sep cur (c :: r) -> clean_so_far sep (c :: cur) r.
Proof.
  intros Hm Hclean a b Hab Hb. cbn [rev] in Hab.
  destruct (exists_last Hb) as (b' & y & ->).
  rewrite app_assoc in Hab. apply app_inj_tail in Hab. destruct Hab as [Hab <-].
  rewrite <- app_assoc. cbn [app].
  destruct b' as [| z b']; [exact Hm |].
  apply (Hclean a (z :: b') Hab). discriminate.
Qed.

Lemma split_go_segments (sep : str) (n : nat) : forall s cur,
  sep <> [] -> (length s <= n)%nat -> clean_so_far sep cur s ->
  Forall (fun seg => Py.contains sep seg = false) (Py.split_go sep 0 cur s).
Proof.
  induction n as [| n IH]; intros s cur Hsep Hlen Hclean.
  - destruct s; [| simpl in Hlen; lia]. constructor; [| constructor].
    apply (clean_segment sep cur [] Hsep Hclean).
  - destruct s as [| c r].
    { constructor; [| constructor]. apply (clean_segment sep cur [] Hsep Hclean). }
    destruct (Py.startswith sep (c :: r)) eqn:Hm.
    + destruct (startswith_inv _ _ Hm) as [s' Hs'].
      destruct sep as [| x p]; [contradiction |].
      rewrite Hs', (split_go_match (x :: p) x p cur s' eq_refl).
      constructor.
      * apply (clean_segment _ cur (c :: r) Hsep Hclean).
      * apply IH; [exact Hsep | |].
        -- apply (f_equal (@length N)) in Hs'. rewrite length_app in Hs'.
           simpl in Hs', Hlen. lia.
        -- intros a b Hab Hb. destruct a, b; try discriminate. contradiction.
    + cbn [Py.split_go]. rewrite Hm.
      apply IH; [exact Hsep | simpl in Hlen; lia |].
      apply clean_step; assumption.
Qed.

Lemma split_segments (sep s : str) :
  sep <> [] -> Forall (fun seg => Py.contains sep seg = false) (Py.split sep s).
Proof.
  intros Hsep. apply (split_go_segments sep (length s) s [] Hsep); [lia |].
  intros a b Hab Hb. destruct a, b; try discriminate. contradiction.
Qed.

Lemma join_snoc (sep : str) (init : list (list N)) (x : str) :
  init <> [] -> Py.join sep (init ++ [x]) = Py.join sep init ++ sep ++ x.
Proof.
  induction init as [| w init IH]; [contradiction |]. intros _.
  destruct init as [| w' init].
  - reflexivity.
  - change (Py.join sep ((w :: w' :: init) ++ [x]))
      with (w ++ sep ++ Py.join sep ((w' :: init) ++ [x])).
    change (Py.join sep (w :: w' :: init))
      with (w ++ sep ++ Py.join sep (w' :: init)).
    rewrite IH by discriminate. rewrite <- !app_assoc. reflexivity.
Qed.

(** The last segment of a string that contains the separator: it comes
    right after a separator and holds none. *)
Lemma split_last (sep s : str) :
  sep <> [] -> Py.contains sep s = true ->
  exists before seg,
    s = before ++ sep ++ seg /\ Py.contains sep seg = false
    /\ List.last (Py.split sep s) [] = seg.
Proof.
  intros Hsep Hc.
  destruct (split_go_contains sep s [] Hsep Hc) as (seg0 & seg1 & rest & E).
  fold (Py.split sep s) in E.
  assert (Hne : seg1 :: rest <> []) by discriminate.
  destruct (exists_last Hne) as (init & seg & Hinit).
  pose proof (join_split sep s Hsep) as Hjoin.
  pose proof (split_segments sep s Hsep) as Hsegs.
  rewrite E in Hjoin, Hsegs |- *. rewrite Hinit in Hjoin, Hsegs |- *.
  exists (Py.join sep (seg0 :: init)), seg. repeat split.
  - rewrite <- Hjoin. change (seg0 :: init ++ [seg]) with ((seg0 :: init) ++ [seg]).
    apply join_snoc. discriminate.
  - apply Forall_forall with (x := seg) in Hsegs; [exact Hsegs |].
    apply list_elem_of_In. right. apply in_or_app. right. left. reflexivity.
  - change (seg0 :: init ++ [seg]) with ((seg0 :: init) ++ [seg]).
    apply last_last.
Qed.

(** The segment after the first separator: no separator before it, none
    in it, and after it the string ends or the next separator starts. *)
Lemma split_second (sep s : str) :
  sep <> [] -> Py.contains sep s = true ->
  exists before seg rest,
    s = before ++ sep ++ seg ++ rest
    /\ Py.contains sep before = false /\ Py.contains sep seg = false
    /\ (rest = [] \/ Py.startswith sep rest = true)
    /\ nth 1 (Py.split sep s) [] = seg.
Proof.
  intros Hsep Hc.
  destruct (split_go_contains sep s [] Hsep Hc) as (seg0 & seg1 & rest & E).
  fold (Py.split sep s) in E.
  pose proof (join_split sep s Hsep) as Hjoin.
  pose proof (split_segments sep s Hsep) as Hsegs.
  rewrite E in Hjoin, Hsegs |- *.
  pose proof (Forall_inv Hsegs) as H0.
  pose proof (Forall_inv (Forall_inv_tail Hsegs)) as H1.
  exists seg0, seg1, (match rest with [] => [] | _ => sep ++ Py.join sep rest end).
  repeat split; try assumption.
  - rewrite <- Hjoin. destruct rest as [| seg2 rest].
    + cbn [Py.join]. rewrite app_nil_r. reflexivity.
    + reflexivity.
  - destruct rest; [left; reflexivity | right; apply startswith_app].
Qed.

(** ** How [split] cuts: the segments are determined *)

(** Whether [p] starts a text depends on the first [length p]
    characters only. *)
Lemma startswith_long (p : str) : forall a b,
  (length p <= length a)%nat -> Py.startswith p (a ++ b) = Py.startswith p a.
Proof.
  induction p as [| x p IH]; intros a b Hlen; [reflexivity |].
  destruct a as [| y a]; [simpl in Hlen; lia |].
  cbn [app Py.startswith]. rewrite IH by (simpl in Hlen; lia). reflexivity.
Qed.

Lemma startswith_length (p : str) : forall s,
  Py.startswith p s = true -> (length p <= length s)%nat.
Proof.
  induction p as [| x p IH]; intros s H; [simpl; lia |].
  destruct s as [| y s]; [discriminate |].
  cbn [Py.startswith] in H. apply andb_true_iff in H. destruct H as [_ H].
  apply IH in H. simpl. lia.
Qed.

Lemma contains_short (sep : str) : forall t,
  (length t < length sep)%nat -> Py.contains sep t = false.
Proof.
  induction t as [| c t IH]; intros Hlen; cbn [Py.contains].
  - destruct (Py.startswith sep []) eqn:E; [| reflexivity].
    apply startswith_length in E. simpl in *. lia.
  - rewrite IH by (simpl in Hlen; lia).
    destruct (Py.startswith sep (c :: t)) eqn:E; [| reflexivity].
    apply startswith_length in E. lia.
Qed.

Lemma length_removelast {A} (l : list A) : length (removelast l) = pred (length l).
Proof.
  induction l as [| x [| y l] IH]; [reflexivity | reflexivity |].
  change (removelast (x :: y :: l)) with (x :: removelast (y :: l)).
  cbn [length] in *. rewrite IH. reflexivity.
Qed.

(** A separator that starts inside [x] and would run into the separator
    that follows is seen in [x ++ removelast sep] already. *)
Lemma startswith_before_separator (sep x rest : str) :
  sep <> [] -> x <> [] ->
  Py.startswith sep (x ++ sep ++ rest) = Py.startswith sep (x ++ removelast sep).
Proof.
  intros Hsep Hx.
  rewrite (app_removelast_last 0 Hsep) at 2.
  rewrite <- (app_assoc (removelast sep)), (app_assoc x).
  apply startswith_long.
  rewrite length_app, length_removelast.
  destruct x; [contradiction |]. simpl. lia.
Qed.

(** A text without separator is one segment. *)
Lemma split_go_free (sep : str) : forall s cur,
  Py.contains sep s = false -> Py.split_go sep 0 cur s = [rev cur ++ s].
Proof.
  induction s as [| c r IH]; intros cur H.
  - simpl. rewrite app_nil_r. reflexivity.
  - cbn [Py.contains] in H. apply orb_false_iff in H. destruct H as [Hm Hr].
    cbn [Py.split_go]. rewrite Hm, (IH _ Hr). cbn [rev].
    rewrite <- app_assoc. reflexivity.
Qed.

(** A segment in which no separator starts, then a separator: [split]
    cuts right there. *)
Lemma split_go_first (sep : str) (rest : str) : forall seg cur,
  sep <> [] ->
  Py.contains sep (seg ++ removelast sep) = false ->
  Py.split_go sep 0 cur (seg ++ sep ++ rest)
  = (rev cur ++ seg) :: Py.split_go sep 0 [] rest.
Proof.
  induction seg as [| c seg IH]; intros cur Hsep H.
  - destruct sep as [| x sep']; [contradiction |].
    rewrite app_nil_r. apply (split_go_match (x :: sep') x sep' cur rest eq_refl).
  - change ((c :: seg) ++ removelast sep) with (c :: (seg ++ removelast sep)) in H.
    cbn [Py.contains] in H. apply orb_false_iff in H. destruct H as [Hm Hr].
    change ((c :: seg) ++ sep ++ rest) with (c :: (seg ++ sep ++ rest)).
    cbn [Py.split_go].
    change (c :: seg ++ sep ++ rest) with ((c :: seg) ++ sep ++ rest).
    rewrite (startswith_before_separator sep (c :: seg) rest Hsep) by discriminate.
    change ((c :: seg) ++ removelast sep) with (c :: (seg ++ removelast sep)).
    rewrite Hm, (IH _ Hsep Hr). cbn [rev]. rewrite <- app_assoc. reflexivity.
Qed.

(** The segments [split] returns are the ones [cuts] describes. *)
Lemma cuts_split (sep : str) (segs : list (list N)) : forall s last,
  sep <> [] -> cuts sep s segs last -> Py.split sep s = segs ++ [last].
Proof.
  unfold Py.split.
  induction segs as [| seg segs IH]; intros s last Hsep (Hs & Hsegs & Hlast).
  - cbn [app Py.join] in Hs. subst s. apply (split_go_free sep last [] Hlast).
  - change ((seg :: segs) ++ [last]) with (seg :: (segs ++ [last])) in Hs |- *.
    rewrite join_cons in Hs.
    destruct (segs ++ [last]) as [| y l] eqn:E;
      [destruct segs; discriminate |].
    rewrite <- E in *. subst s.
    rewrite (split_go_first sep _ seg [] Hsep (Forall_inv Hsegs)).
    cbn [rev app]. f_equal.
    apply (IH _ last Hsep).
    split; [reflexivity | split; [exact (Forall_inv_tail Hsegs) | exact Hlast]].
Qed.

(** The first separator of a text that has one. *)
Lemma first_separator (sep : str) : forall s,
  sep <> [] -> Py.contains sep s = true ->
  exists seg rest,
    s = seg ++ sep ++ rest /\ Py.contains sep (seg ++ removelast sep) = false.
Proof.
  intros s Hsep. induction s as [| c r IH]; intros H.
  - rewrite contains_short in H; [discriminate |].
    destruct sep; [contradiction | simpl; lia].
  - destruct (Py.startswith sep (c :: r)) eqn:Hm.
    + destruct (startswith_inv _ _ Hm) as [rest ->].
      exists [], rest. split; [reflexivity |].
      apply contains_short. cbn [app]. rewrite length_removelast.
      destruct sep; [contradiction | simpl; lia].
    + cbn [Py.contains] in H. rewrite Hm in H. cbn [orb] in H.
      destruct (IH H) as (seg & rest & -> & Hfree).
      exists (c :: seg), rest. split; [reflexivity |].
      change ((c :: seg) ++ removelast sep) with (c :: (seg ++ removelast sep)).
      cbn [Py.contains]. rewrite Hfree, orb_false_r.
      change (c :: seg ++ removelast sep) with ((c :: seg) ++ removelast sep).
      rewrite <- (startswith_before_separator sep (c :: seg) rest Hsep) by discriminate.
      exact Hm.
Qed.

(** Every text is cut in one way. *)
Lemma cuts_exist (sep : str) (n : nat) : forall s,
  sep <> [] -> (length s <= n)%nat -> exists segs last, cuts sep s segs last.
Proof.
  induction n as [| n IH]; intros s Hsep Hlen.
  - exists [], s. destruct s; [| simpl in Hlen; lia].
    repeat split; [constructor |].
    apply contains_short. destruct sep; [contradiction | simpl; lia].
  - destruct (Py.contains sep s) eqn:Hc.
    + destruct (first_separator sep s Hsep Hc) as (seg & rest & -> & Hfree).
      destruct (IH rest Hsep) as (segs & last & Hrest & Hsegs & Hlast).
      { rewrite !length_app in Hlen. destruct sep; [contradiction |].
        simpl in Hlen. lia. }
      exists (seg :: segs), last. repeat split.
      * change ((seg :: segs) ++ [last]) with (seg :: (segs ++ [last])).
        rewrite join_cons, <- Hrest.
        destruct (segs ++ [last]) eqn:E; [destruct segs; discriminate | reflexivity].
      * constructor; assumption.
      * exact Hlast.
    + exists [], s. repeat split; [constructor | exact Hc].
Qed.

Lemma cuts_unique (sep s : str) :
  sep <> [] ->
  exists segs last,
    cuts sep s segs last
    /\ forall segs' last', cuts sep s segs' last' -> segs' = segs /\ last' = last.
Proof.
  intros Hsep.
  destruct (cuts_exist sep (length s) s Hsep (le_n _)) as (segs & last & Hcuts).
  exists segs, last. split; [exact Hcuts |].
  intros segs' last' Hcuts'.
  apply (cuts_split sep segs s last Hsep) in Hcuts.
  apply (cuts_split sep segs' s last' Hsep) in Hcuts'.
  rewrite Hcuts in Hcuts'. apply app_inj_tail in Hcuts'. destruct Hcuts'; auto.
Qed.

(** [replace] puts the new text where [split] cuts. *)
Lemma replace_go_split_go (old new : str) : forall s skip cur,
  rev cur ++ Py.replace_go old new skip s
  = Py.join new (Py.split_go old skip cur s).
Proof.
  induction s as [| c r IH]; intros skip cur.
  - simpl. apply app_nil_r.
  - cbn [Py.replace_go Py.split_go]. destruct skip as [| k]; [| apply IH].
    destruct (Py.startswith old (c :: r)).
    + rewrite join_cons.
      pose proof (split_go_nonempty old r (pred (length old)) []) as Hne.
      destruct (Py.split_go old (pred (length old)) [] r) eqn:E; [contradiction |].
      rewrite <- E, <- IH. reflexivity.
    + rewrite <- IH. cbn [rev]. rewrite <- app_assoc. reflexivity.
Qed.

Lemma replace_join_split (old new s : str) :
  Py.replace old new s = Py.join new (Py.split old s).
Proof. apply (replace_go_split_go old new s 0 []). Qed.

Lemma join_empty_separator (parts : list (list N)) : Py.join [] parts = concat parts.
Proof.
  induction parts as [| x parts IH]; [reflexivity |].
  rewrite join_cons, IH. destruct parts; simpl; [rewrite app_nil_r |]; reflexivity.
Qed.

(** ** [extract_publisher] *)

Lemma separator_nonempty : SEPARATOR <> [].
Proof. discriminate. Qed.

Lemma source_marker_nonempty : SOURCE_MARKER <> [].
Proof. discriminate. Qed.

(** C7 as stated fails: the result can be empty, and there may be no
    result.  A title that ends with the separator gives an empty
    trailing segment; a link without a network location gives an empty
    domain; [www.] is removed wherever it stands, not only in front;
    and a link that [urlparse] refuses makes the function raise. *)
Lemma publisher_can_be_empty :
  extract_publisher {[ "title"%string := u"Flood warning - " ]} = Ok []
  /\ extract_publisher {[ "link"%string := u"news/12345" ]} = Ok []
  /\ extract_publisher {[ "link"%string := u"https://awww.example.com/1" ]}
     = Ok (u"aexample.com")
  /\ extract_publisher {[ "link"%string := u"http://[invalid/" ]}
     = Raise (ValueError (u"Invalid IPv6 URL")).
Proof. vm_compute. repeat split. Qed.

(** C7, amended: for every upstream item, with its title, description
    and link read as empty when missing, [extract_publisher] gives, in
    this order of precedence:
    (a) if the title contains the separator [" - "]: the last of the
        segments the title is cut in at its separators (read from the
        left, not overlapping), trimmed;
    (b) else, if the link is not empty and [urlparse] refuses it: the
        [ValueError] of [urlparse];
    (c) else, if the link is not empty, its network location contains
        the portal's host name and the description contains the source
        marker: the second of the segments the description is cut in
        at its markers, that is the text between the first marker and
        the next one (or the end), trimmed;
    (d) else, if the link is not empty: the segments its network
        location is cut in at each ["www."], put together again (so
        ["www."] is removed wherever [str.replace] finds it, not only
        in front);
    (e) else the unknown-publisher sentinel, which is not empty.
    In cases (a), (c) and (d) the result may be the empty string.  The
    segments are determined: every text is cut in exactly one way. *)
Theorem publisher_cascade (it : item) :
  let title := title_of it in
  let description := description_of it in
  let link := link_of it in
  (Py.contains SEPARATOR title = true ->
   forall segs last, cuts SEPARATOR title segs last ->
     extract_publisher it = Ok (Py.strip last))
  /\ (Py.contains SEPARATOR title = false -> link <> [] ->
      forall x, Urllib.netloc link = Raise x -> extract_publisher it = Raise x)
  /\ (Py.contains SEPARATOR title = false -> link <> [] ->
      forall domain, Urllib.netloc link = Ok domain ->
      Py.contains PORTAL_HOST domain = true ->
      Py.contains SOURCE_MARKER description = true ->
      forall segs last, cuts SOURCE_MARKER description segs last ->
        segs <> []
        /\ extract_publisher it = Ok (Py.strip (nth 1 (segs ++ [last]) [])))
  /\ (Py.contains SEPARATOR title = false -> link <> [] ->
      forall domain, Urllib.netloc link = Ok domain ->
      Py.contains PORTAL_HOST domain && Py.contains SOURCE_MARKER description = false ->
      forall segs last, cuts (u"www.") domain segs last ->
        extract_publisher it = Ok (concat (segs ++ [last])))
  /\ (Py.contains SEPARATOR title = false -> link = [] ->
      extract_publisher it = Ok UNKNOWN_PUBLISHER)
  /\ UNKNOWN_PUBLISHER <> []
  /\ (forall sep s : str, sep <> [] ->
        exists segs last,
          cuts sep s segs last
          /\ forall segs' last', cuts sep s segs' last' ->
               segs' = segs /\ last' = last).
Proof.
  cbn zeta. unfold extract_publisher.
  fold (title_of it) (description_of it) (link_of it).
  fold SEPARATOR SOURCE_MARKER PORTAL_HOST UNKNOWN_PUBLISHER.
  repeat apply conj.
  - intros Ht segs last Hcuts. rewrite Ht.
    rewrite (cuts_split _ _ _ _ separator_nonempty Hcuts), last_last. reflexivity.
  - intros Ht Hl x Hx. rewrite Ht, Hx.
    destruct (link_of it); [contradiction | reflexivity].
  - intros Ht Hl domain Hd Hp Hm segs last Hcuts. rewrite Ht, Hd, Hp, Hm.
    destruct (link_of it) as [| c l]; [contradiction |]. cbn [Py.eqb negb].
    rewrite (cuts_split _ _ _ _ source_marker_nonempty Hcuts).
    split; [| reflexivity].
    intros ->. destruct Hcuts as (Hs & _ & Hlast). cbn [app Py.join] in Hs.
    congruence.
  - intros Ht Hl domain Hd Hpm segs last Hcuts. rewrite Ht, Hd.
    destruct (link_of it) as [| c l]; [contradiction |]. cbn [Py.eqb negb].
    assert (E : Py.replace (u"www.") [] domain = concat (segs ++ [last])).
    { rewrite replace_join_split, (cuts_split (u"www.") segs domain last);
        [apply join_empty_separator | discriminate | exact Hcuts]. }
    rewrite E.
    destruct (Py.contains PORTAL_HOST domain); [| reflexivity].
    cbn [andb] in Hpm. rewrite Hpm. reflexivity.
  - intros Ht Hl. rewrite Ht, Hl. reflexivity.
  - discriminate.
  - intros sep s Hsep. apply cuts_unique, Hsep.
Qed.

(** [urlparse] raises nothing but [ValueError]. *)
Lemma check_bracketed_host_raises hostname x :
  Urllib.check_bracketed_host hostname = Raise x -> exists msg, x = ValueError msg.
Proof.
  unfold Urllib.check_bracketed_host.
  destruct (Py.startswith [118] hostname).
  - destruct (Urllib.is_ipvfuture hostname); [discriminate |].
    intros [= <-]. eexists. reflexivity.
  - destruct (Ipaddress.ip_address hostname) as [[|] |];
      try discriminate; intros [= <-]; eexists; reflexivity.
Qed.

Lemma netloc_raises link x :
  Urllib.netloc link = Raise x -> exists msg, x = ValueError msg.
Proof.
  unfold Urllib.netloc. cbn zeta.
  destruct (Py.startswith [47; 47] _); [| discriminate].
  match goal with |- context [if ?b then Raise _ else _] => destruct b end;
    [intros [= <-]; eexists; reflexivity |].
  match goal with |- context [if ?b then _ else Ok tt] => destruct b end.
  - destruct (Urllib.check_bracketed_netloc _) as [[] | y] eqn:Ec.
    + unfold Urllib.checknetloc.
      match goal with |- context [if ?b then Raise _ else _] => destruct b end;
        [intros [= <-]; eexists; reflexivity | discriminate].
    + intros [= <-]. revert Ec. unfold Urllib.check_bracketed_netloc.
      destruct (Py.partition 91 _) as [[before found] bracketed].
      destruct found.
      * destruct (negb (Py.eqb before [])); [intros [= <-]; eexists; reflexivity |].
        destruct (Py.partition 93 bracketed) as [[hostname f] port].
        match goal with |- context [if ?b then Raise _ else _] => destruct b end;
          [intros [= <-]; eexists; reflexivity | apply check_bracketed_host_raises].
      * destruct (Py.partition 58 _) as [[hostname f] port].
        apply check_bracketed_host_raises.
  - unfold Urllib.checknetloc.
    match goal with |- context [if ?b then Raise _ else _] => destruct b end;
      [intros [= <-]; eexists; reflexivity | discriminate].
Qed.

Lemma extract_publisher_raises (it : item) x :
  extract_publisher it = Raise x -> exists msg, x = ValueError msg.
Proof.
  unfold extract_publisher.
  destruct (Py.contains _ (default [] (it !! "title"%string))); [discriminate |].
  destruct (negb _); [| discriminate].
  destruct (Urllib.netloc _) as [domain | y] eqn:E.
  - repeat match goal with |- context [if ?b then _ else _] => destruct b end;
      discriminate.
  - intros [= <-]. apply (netloc_raises _ _ E).
Qed.

Example publisher_examples :
  extract_publisher {[ "title"%string := u"Rates held again - The Daily Ledger " ]}
    = Ok (u"The Daily Ledger")
  /\ extract_publisher
       (<[ "link"%string := u"https://n.news.naver.com/article/1" ]>
          {[ "description"%string := u"Summary. 출처 : 연합뉴스 " ]})
     = Ok (u"연합뉴스")
  /\ extract_publisher {[ "link"%string := u"https://www.chosun.com/economy/1" ]}
     = Ok (u"chosun.com")
  /\ extract_publisher ∅ = Ok UNKNOWN_PUBLISHER.
Proof. vm_compute. repeat split. Qed.

(** Separators that overlap: the title is cut at the first of them, and
    what is left of the second stays in the segment. *)
Example publisher_of_overlapping_separators :
  extract_publisher {[ "title"%string := u"a - - b" ]} = Ok (u"- b")
  /\ cuts SEPARATOR (u"a - - b") [u"a"] (u"- b").
Proof.
  split; [vm_compute; reflexivity |].
  split; [vm_compute; reflexivity | split; [| vm_compute; reflexivity]].
  constructor; [vm_compute; reflexivity | constructor].
Qed.

(** ** Gathered coroutines *)

Section Gather.
Context (ans : request -> get_outcome -> Prop).

Lemma both_ret_l {A B} (x : A) (b : coro B) :
  both (Ret x) b = bind b (fun y => Ret (x, y)).
Proof. destruct b; reflexivity. Qed.

Lemma both_ret_r {A B} (a : coro A) (y : B) :
  both a (Ret y) = bind a (fun x => Ret (x, y)).
Proof. destruct a; reflexivity. Qed.

Lemma under_bind {A B} (P : A -> Prop) (Q : B -> Prop) (c : coro A) (f : A -> coro B) :
  under ans P c -> (forall a, P a -> under ans Q (f a)) -> under ans Q (bind c f).
Proof.
  intros Hc Hf.
  induction c as [a | req k IH | secs k IH | l IHl r IHr]; simpl in *.
  - apply Hf, Hc.
  - intros o Ho. apply IH, Hc, Ho.
  - apply IH, Hc.
  - destruct Hc as [Hl Hr]. split; [apply IHl, Hl | apply IHr, Hr].
Qed.

Lemma under_mono {A} (P Q : A -> Prop) (c : coro A) :
  (forall a, P a -> Q a) -> under ans P c -> under ans Q c.
Proof.
  intros HPQ.
  induction c as [a | req k IH | secs k IH | l IHl r IHr]; simpl.
  - apply HPQ.
  - intros Hc o Ho. apply IH, Hc, Ho.
  - apply IH.
  - intros [Hl Hr]. split; [apply IHl, Hl | apply IHr, Hr].
Qed.

(** One side of [both] has returned: the other runs to its end. *)
Ltac one_returned Ha Hb :=
  first [rewrite both_ret_l; eapply under_bind; [exact Hb |]
        | rewrite both_ret_r; eapply under_bind; [exact Ha |]];
  intros ? ?; simpl; auto.

Lemma under_both {A B} (P : A -> Prop) (Q : B -> Prop) (a : coro A) :
  forall b : coro B,
  under ans P a -> under ans Q b ->
  under ans (fun xy => P xy.1 /\ Q xy.2) (both a b).
Proof.
  induction a as [x | req k IHa | secs k IHa | l IHl r IHr]; intros b Ha;
    [intros Hb; one_returned Ha Hb | | |];
    induction b as [y | req' k' IHb | secs' k' IHb | l' IHl' r' IHr']; intros Hb;
    try (one_returned Ha Hb).
  - split; intros o Ho; [apply IHa; [apply Ha, Ho | exact Hb] | apply IHb, Hb, Ho].
  - split; [intros o Ho; apply IHa; [apply Ha, Ho | exact Hb] | apply IHb, Hb].
  - split; [intros o Ho; apply IHa; [apply Ha, Ho | exact Hb] |].
    destruct Hb as [Hl' Hr']. split; [apply IHl', Hl' | apply IHr', Hr'].
  - split; [apply IHa; [exact Ha | exact Hb] | intros o Ho; apply IHb, Hb, Ho].
  - split; [apply IHa; [exact Ha | exact Hb] | apply IHb, Hb].
  - split; [apply IHa; [exact Ha | exact Hb] |].
    destruct Hb as [Hl' Hr']. split; [apply IHl', Hl' | apply IHr', Hr'].
  - destruct Ha as [Hl Hr].
    split; [split; [apply IHl | apply IHr]; assumption |].
    intros o Ho. apply IHb, Hb, Ho.
  - destruct Ha as [Hl Hr].
    split; [split; [apply IHl | apply IHr]; assumption | apply IHb, Hb].
  - destruct Ha as [Hl Hr].
    split; [split; [apply IHl | apply IHr]; assumption |].
    destruct Hb as [Hl' Hr']. split; [apply IHl', Hl' | apply IHr', Hr'].
Qed.

(** However the event loop interleaves them, gathered coroutines give
    their values in the order in which they were passed. *)
Lemma under_gather {A} (P : A -> Prop) (tasks : list (coro A)) :
  Forall (under ans P) tasks ->
  under ans (fun xs => length xs = length tasks /\ Forall P xs) (gather tasks).
Proof.
  induction 1 as [| t rest Ht _ IH]; [simpl; auto |]. cbn [gather].
  eapply under_bind; [apply (under_both _ _ _ _ Ht IH) |].
  intros [x xs] (Hx & Hlen & Hxs). simpl in *. split; [congruence | auto].
Qed.

Lemma under_gather_values {A} (tasks : list (coro A)) (vs : list A) :
  Forall2 (fun t v => under ans (eq v) t) tasks vs ->
  under ans (eq vs) (gather tasks).
Proof.
  induction 1 as [| t v rest vs' Ht _ IH]; [reflexivity |]. cbn [gather].
  eapply under_bind; [apply (under_both _ _ _ _ Ht IH) |].
  intros [x xs] [Hx Hxs]. simpl in *. congruence.
Qed.

Lemma under_true {A} (c : coro A) : under ans (fun _ => True) c.
Proof. induction c; simpl; auto. Qed.

(** The result at index [i] is a value of the task at index [i]: it has
    every property that task's values have. *)
Lemma under_gather_at {A} (P : A -> Prop) (tasks : list (coro A)) :
  forall i t,
  tasks !! i = Some t -> under ans P t ->
  under ans (fun xs => exists x, xs !! i = Some x /\ P x) (gather tasks).
Proof.
  induction tasks as [| t0 rest IH]; intros [| i] t Hi Ht; try discriminate;
    cbn [gather]; simpl in Hi.
  - injection Hi as ->.
    eapply under_bind; [apply (under_both _ _ _ _ Ht (under_true (gather rest))) |].
    intros [x xs] [Hx _]. simpl in *. exists x. auto.
  - eapply under_bind;
      [apply (under_both _ _ _ _ (under_true t0) (IH i t Hi Ht)) |].
    intros [x xs] [_ (y & Hy & HP)]. simpl in *. exists y. auto.
Qed.

Lemma under_run {A} (P : A -> Prop) (e : env) (c : coro A) :
  (forall h req, ans req (net e h req)) ->
  forall h, under ans P c -> P (run e c h).1.
Proof.
  intros He.
  induction c as [a | req k IH | secs k IH | l IHl r IHr]; intros h Hc; simpl in *.
  - exact Hc.
  - apply IH, Hc, He.
  - apply IH, Hc.
  - destruct Hc as [Hl Hr]. destruct (sched e h); [apply IHl, Hl | apply IHr, Hr].
Qed.

End Gather.

Lemma gather_length {A} (e : env) (tasks : list (coro A)) (h : list event) :
  length (run e (gather tasks) h).1 = length tasks.
Proof.
  apply (under_run any_answer (fun xs => length xs = length tasks)); [exact (fun _ _ => I) |].
  eapply under_mono; [| apply (under_gather any_answer (fun _ => True))].
  - intros xs [Hlen _]. exact Hlen.
  - apply Forall_forall. intros t _. apply under_true.
Qed.

Lemma gather_result_at {A} (e : env) (tasks : list (coro A)) (h : list event)
    (P : A -> Prop) (i : nat) (t : coro A) :
  tasks !! i = Some t -> under any_answer P t ->
  exists x, (run e (gather tasks) h).1 !! i = Some x /\ P x.
Proof.
  intros Hi Ht.
  apply (under_run any_answer (fun xs => exists x, xs !! i = Some x /\ P x));
    [exact (fun _ _ => I) |].
  apply (under_gather_at any_answer P tasks i t Hi Ht).
Qed.

Lemma under_value {A} f (c : coro A) :
  choice_free c -> under (answer_of f) (eq (value f c)) c.
Proof.
  induction c as [a | req k IH | secs k IH | l IHl r IHr]; simpl; intros Hc.
  - reflexivity.
  - intros o ->. apply IH, Hc.
  - apply IH, Hc.
  - contradiction.
Qed.

Lemma timeless_answers (e : env) :
  timeless e -> forall h req, answer_of (net e []) req (net e h req).
Proof. intros He h req. apply He. Qed.

Lemma choice_free_bind {A B} (c : coro A) (k : A -> coro B) :
  choice_free c -> (forall a, choice_free (k a)) -> choice_free (bind c k).
Proof.
  intros Hc Hk.
  induction c as [a | req k' IH | secs k' IH | l IHl r IHr]; simpl in *.
  - apply Hk.
  - intros o. apply IH, Hc.
  - apply IH, Hc.
  - contradiction.
Qed.

Lemma choice_free_retry_loop req N attempts : choice_free (retry_loop req N attempts).
Proof.
  induction attempts as [| a rest IH]; [exact I |].
  cbn [retry_loop]. apply choice_free_bind.
  - unfold bind_result, client_get. simpl. intros [r | x]; simpl; [| exact I].
    destruct (raise_for_status r); exact I.
  - intros [r | x]; [exact I |].
    destruct x; simpl;
      repeat match goal with |- context [if ?b then _ else _] => destruct b end;
      simpl; auto.
Qed.

Lemma choice_free_extract (url : str) : choice_free (extract_article_content url).
Proof.
  unfold extract_article_content, try_except, bind_result.
  apply choice_free_bind; [apply choice_free_bind |].
  - apply choice_free_retry_loop.
  - intros [[r |] | x]; exact I.
  - intros [s | x]; exact I.
Qed.

(** On a timeless network a page is extracted to the same body at any
    time. *)
Lemma extract_timeless (e : env) (url : str) (h : list event) :
  timeless e ->
  (run e (extract_article_content url) h).1
  = value (net e []) (extract_article_content url).
Proof.
  intros He. symmetry.
  apply (under_run (answer_of (net e [])) _ e _ (timeless_answers e He)).
  apply under_value, choice_free_extract.
Qed.

Lemma gather_extract_timeless (e : env) (urls : list (list N)) (h : list event) :
  timeless e ->
  (run e (gather (List.map extract_article_content urls)) h).1
  = List.map (fun url => (run e (extract_article_content url) []).1) urls.
Proof.
  intros He. symmetry.
  apply (under_run (answer_of (net e [])) _ e _ (timeless_answers e He)).
  apply under_gather_values.
  induction urls as [| url urls IH]; constructor; [| exact IH].
  rewrite (extract_timeless e url [] He).
  apply under_value, choice_free_extract.
Qed.

(** ** The loops that build the blocks *)

(** When the publisher of every item can be derived, the loop appends
    one block per item, in order. *)
Lemma search_news_blocks (items : list item) : forall publishers a acc,
  Forall2 (fun it p => extract_publisher it = Ok p) items publishers ->
  for_each search_news_block (combine (seq a (length items)) items) acc
  = Ok (acc ++ imap (fun i ip => news_block (a + i + 1) ip.2 ip.1)
                    (combine items publishers)).
Proof.
  induction items as [| it items IH]; intros publishers a acc Hp.
  - inversion Hp. simpl. rewrite app_nil_r. reflexivity.
  - inversion Hp as [| ? p ? ps Hit Hrest]; subst.
    cbn [length seq combine for_each]. unfold search_news_block at 1.
    rewrite Hit. fold (news_block (a + 1) p it). rewrite (IH ps (S a) _ Hrest).
    rewrite <- app_assoc. do 2 f_equal. cbn [app imap fst snd]. f_equal.
    + f_equal. lia.
    + apply imap_ext. intros i x _. simpl. f_equal. lia.
Qed.

Lemma content_blocks (entries : list (item * list N)) : forall publishers a acc,
  Forall2 (fun ic p => extract_publisher ic.1 = Ok p) entries publishers ->
  for_each content_block (combine (seq a (length entries)) entries) acc
  = Ok (acc ++ imap (fun i icp => content_news_block (a + i + 1) icp.2 icp.1.1 icp.1.2)
                    (combine entries publishers)).
Proof.
  induction entries as [| [it body] entries IH]; intros publishers a acc Hp.
  - inversion Hp. simpl. rewrite app_nil_r. reflexivity.
  - inversion Hp as [| ? p ? ps Hit Hrest]; subst. cbn [fst] in Hit.
    cbn [length seq combine for_each]. unfold content_block at 1.
    rewrite Hit.
    assert (Hstep :
      acc ++ [Py.str_of_nat (a + 1) ++ u". [언론사] " ++ p ++ nl
              ++ u"   [제목] " ++ clean_title it ++ nl
              ++ u"   [시간] "
              ++ format_date (default (u"날짜 정보 없음") (it !! "pubDate"%string)) ++ nl
              ++ u"   [링크] " ++ default (u"#") (it !! "link"%string) ++ nl
              ++ u"   [본문]" ++ nl ++ body]
      = acc ++ [content_news_block (a + 1) p it body]).
    { unfold content_news_block, news_block. rewrite <- !app_assoc. reflexivity. }
    rewrite Hstep, (IH ps (S a) _ Hrest).
    rewrite <- app_assoc. do 2 f_equal. cbn [app imap fst snd]. f_equal.
    + f_equal. lia.
    + apply imap_ext. intros i x _. simpl. f_equal. lia.
Qed.

(** The loop stops at the first item whose publisher cannot be
    derived, with the exception of [extract_publisher]. *)
Lemma for_each_raise {A S} (body : S -> A -> result S) (x : exn) :
  forall (good : list A) (bad : A) (rest : list A) (s : S),
  (forall s' a, In a good -> exists s'', body s' a = Ok s'') ->
  (forall s', body s' bad = Raise x) ->
  for_each body (good ++ bad :: rest) s = Raise x.
Proof.
  induction good as [| a good IH]; intros bad rest s Hgood Hbad.
  - cbn [app for_each]. rewrite Hbad. reflexivity.
  - cbn [app for_each].
    destruct (Hgood s a (or_introl eq_refl)) as [s'' ->].
    apply IH; [| exact Hbad]. intros s' b Hb. apply Hgood. right. exact Hb.
Qed.

Lemma combine_app_index {A} (good : list A) (bad : A) (rest : list A) (a : nat) :
  combine (seq a (length (good ++ bad :: rest))) (good ++ bad :: rest)
  = combine (seq a (length good)) good
    ++ (a + length good, bad)%nat
       :: combine (seq (S (a + length good)) (length rest)) rest.
Proof.
  revert a. induction good as [| x good IH]; intros a.
  - cbn [app length seq combine]. rewrite Nat.add_0_r. reflexivity.
  - cbn [app length seq combine]. rewrite IH. cbn [app].
    replace (S a + length good)%nat with (a + S (length good))%nat by lia.
    reflexivity.
Qed.

Lemma search_news_blocks_raise (good : list item) (bad : item) (rest : list item)
    (x : exn) :
  Forall (fun it => exists p, extract_publisher it = Ok p) good ->
  extract_publisher bad = Raise x ->
  for_each search_news_block (enumerate (good ++ bad :: rest)) [] = Raise x.
Proof.
  intros Hgood Hbad. unfold enumerate. rewrite combine_app_index.
  apply for_each_raise.
  - intros s' [i it] Hin. apply in_combine_r in Hin.
    rewrite Forall_forall in Hgood.
    destruct (Hgood it (proj2 (list_elem_of_In _ _) Hin)) as [p Hp].
    unfold search_news_block. rewrite Hp. eexists. reflexivity.
  - intros s'. unfold search_news_block. rewrite Hbad. reflexivity.
Qed.

Lemma combine_app_same {A B} (l1 l1' : list A) : forall (l2 : list B),
  (length l1 <= length l2)%nat ->
  combine (l1 ++ l1') l2
  = combine l1 (firstn (length l1) l2) ++ combine l1' (skipn (length l1) l2).
Proof.
  induction l1 as [| x l1 IH]; intros l2 Hlen; [reflexivity |].
  destruct l2 as [| y l2]; [simpl in Hlen; lia |].
  cbn [app combine length firstn skipn]. rewrite IH by (simpl in Hlen; lia).
  reflexivity.
Qed.

Lemma content_blocks_raise (good : list item) (bad : item) (rest : list item)
    (contents : list (list N)) (x : exn) :
  length contents = length (good ++ bad :: rest) ->
  Forall (fun it => exists p, extract_publisher it = Ok p) good ->
  extract_publisher bad = Raise x ->
  for_each content_block (enumerate (combine (good ++ bad :: rest) contents)) []
  = Raise x.
Proof.
  intros Hlen Hgood Hbad.
  rewrite length_app in Hlen. cbn [length] in Hlen.
  rewrite combine_app_same by lia.
  destruct (skipn (length good) contents) as [| body bodies] eqn:E.
  { apply (f_equal (@length (list N))) in E. rewrite length_skipn in E.
    simpl in E. lia. }
  cbn [combine]. unfold enumerate. rewrite combine_app_index.
  apply for_each_raise.
  - intros s' [i [it b]] Hin. apply in_combine_r in Hin. apply in_combine_l in Hin.
    rewrite Forall_forall in Hgood.
    destruct (Hgood it (proj2 (list_elem_of_In _ _) Hin)) as [p Hp].
    unfold content_block. rewrite Hp. eexists. reflexivity.
  - intros s'. unfold content_block. rewrite Hbad. reflexivity.
Qed.

Lemma searchable_guard (keyword : str) :
  Py.strip keyword <> [] ->
  Py.eqb keyword [] || Py.eqb (Py.strip keyword) [] = false.
Proof.
  intros Hk. apply orb_false_iff. split.
  - destruct keyword; [contradiction | reflexivity].
  - destruct (Py.eqb (Py.strip keyword) []) eqn:E; [| reflexivity].
    apply eqb_nil in E. contradiction.
Qed.

(** ** What the search tools print for a list of results *)

Lemma search_fetch_unfold (keyword : str) :
  make_request_with_retry SEARCH_URL
    (Some (search_params (Py.strip keyword) MAX_NEWS_ITEMS)) NAVER_HEADERS MAX_RETRIES
  = search_fetch keyword.
Proof. reflexivity. Qed.

Lemma search_news_of_items (e : env) (keyword : str) (h : list event)
    (r : response) (total : option Z) (items : list item)
    (publishers : list (list N)) :
  Py.strip keyword <> [] ->
  (run e (search_fetch keyword) h).1 = Ok (Some r) ->
  json_body r = inr (JsonDict total (Some items)) ->
  items <> [] ->
  Forall2 (fun it p => extract_publisher it = Ok p) items publishers ->
  (run e (search_news keyword) h).1
  = search_news_report keyword total items
      (imap (fun i ip => news_block (i + 1) ip.2 ip.1) (combine items publishers)).
Proof.
  intros Hk Hfetch Hjson Hitems Hp.
  unfold search_news. rewrite (searchable_guard keyword Hk). cbn zeta.
  rewrite search_fetch_unfold, run_try_except, run_bind, run_bind_result, Hfetch.
  rewrite Hjson.
  destruct items as [| it items]; [contradiction |].
  rewrite run_bind_result. cbn [run fst snd]. unfold enumerate.
  rewrite (search_news_blocks (it :: items) publishers 0 [] Hp). reflexivity.
Qed.

Lemma search_news_of_refused (e : env) (keyword : str) (h : list event)
    (r : response) (total : option Z) (good : list item) (bad : item)
    (rest : list item) (x : exn) :
  Py.strip keyword <> [] ->
  (run e (search_fetch keyword) h).1 = Ok (Some r) ->
  json_body r = inr (JsonDict total (Some (good ++ bad :: rest))) ->
  Forall (fun it => exists p, extract_publisher it = Ok p) good ->
  extract_publisher bad = Raise x ->
  (run e (search_news keyword) h).1 = UNEXPECTED_SEARCH_ERROR ++ str_exn x.
Proof.
  intros Hk Hfetch Hjson Hgood Hbad.
  unfold search_news. rewrite (searchable_guard keyword Hk). cbn zeta.
  rewrite search_fetch_unfold, run_try_except, run_bind, run_bind_result, Hfetch.
  rewrite Hjson.
  destruct (good ++ bad :: rest) as [| it items] eqn:E;
    [destruct good; discriminate |].
  rewrite <- E. rewrite run_bind_result. cbn [run fst snd].
  rewrite (search_news_blocks_raise good bad rest x Hgood Hbad).
  destruct (extract_publisher_raises bad x Hbad) as [msg ->]. reflexivity.
Qed.

Lemma Forall2_combine_fst {A B C} (P : A -> C -> Prop) (xs : list A) :
  forall (ys : list B) (ps : list C),
  length ys = length xs -> Forall2 P xs ps ->
  Forall2 (fun xy p => P xy.1 p) (combine xs ys) ps.
Proof.
  induction xs as [| x xs IH]; intros ys ps Hlen Hp.
  - inversion Hp. constructor.
  - destruct ys as [| y ys]; [discriminate |].
    inversion Hp as [| ? p ? ps' Hx Hrest]; subst.
    constructor; [exact Hx | apply IH; [simpl in Hlen; lia | exact Hrest]].
Qed.

Lemma content_search_of_items (e : env) (keyword : str) (h : list event)
    (r : response) (total : option Z) (items : list item)
    (publishers : list (list N)) :
  Py.strip keyword <> [] ->
  (run e (search_fetch keyword) h).1 = Ok (Some r) ->
  json_body r = inr (JsonDict total (Some items)) ->
  items <> [] ->
  Forall2 (fun it p => extract_publisher it = Ok p) items publishers ->
  let contents :=
    (run e (gather (List.map (fun it => extract_article_content (page_link it)) items))
         (run e (search_fetch keyword) h).2).1 in
  (run e (search_news_with_content keyword) h).1
  = content_report keyword total items
      (imap (fun i icp => content_news_block (i + 1) icp.2 icp.1.1 icp.1.2)
            (combine (combine items contents) publishers)).
Proof.
  intros Hk Hfetch Hjson Hitems Hp contents.
  unfold search_news_with_content. rewrite (searchable_guard keyword Hk). cbn zeta.
  fold (search_fetch keyword).
  rewrite run_try_except, run_await, run_try_except, run_bind_result, Hfetch.
  rewrite Hjson.
  destruct items as [| it items]; [contradiction |].
  rewrite run_bind_result, run_await. cbn [fst snd].
  rewrite run_bind_result. cbn [run fst snd]. unfold enumerate.
  fold contents.
  assert (Hlen : length contents = length (it :: items)).
  { unfold contents. rewrite gather_length. apply length_map. }
  rewrite (content_blocks _ publishers 0 []); [reflexivity |].
  exact (Forall2_combine_fst (fun it p => extract_publisher it = Ok p)
           _ contents publishers Hlen Hp).
Qed.

Lemma content_search_of_refused (e : env) (keyword : str) (h : list event)
    (r : response) (total : option Z) (good : list item) (bad : item)
    (rest : list item) (x : exn) :
  Py.strip keyword <> [] ->
  (run e (search_fetch keyword) h).1 = Ok (Some r) ->
  json_body r = inr (JsonDict total (Some (good ++ bad :: rest))) ->
  Forall (fun it => exists p, extract_publisher it = Ok p) good ->
  extract_publisher bad = Raise x ->
  (run e (search_news_with_content keyword) h).1 = CONTENT_SEARCH_ERROR ++ str_exn x.
Proof.
  intros Hk Hfetch Hjson Hgood Hbad.
  unfold search_news_with_content. rewrite (searchable_guard keyword Hk). cbn zeta.
  fold (search_fetch keyword).
  rewrite run_try_except, run_await, run_try_except, run_bind_result, Hfetch.
  rewrite Hjson.
  destruct (good ++ bad :: rest) as [| it items] eqn:E;
    [destruct good; discriminate |].
  rewrite <- E. rewrite run_bind_result, run_await. cbn [fst snd].
  rewrite run_bind_result. cbn [run fst snd].
  rewrite (content_blocks_raise good bad rest _ x); [reflexivity | | exact Hgood | exact Hbad].
  rewrite gather_length. apply length_map.
Qed.

Lemma combine_lookup {A B} (l1 : list A) : forall (l2 : list B) i a b,
  l1 !! i = Some a -> l2 !! i = Some b -> combine l1 l2 !! i = Some (a, b).
Proof.
  induction l1 as [| x l1 IH]; intros [| y l2] [| i] a b H1 H2;
    try discriminate; simpl in *.
  - congruence.
  - apply IH; assumption.
Qed.

Lemma combine_length_same {A B} (l1 : list A) (l2 : list B) :
  length l2 = length l1 -> length (combine l1 l2) = length l1.
Proof. intros H. rewrite length_combine. lia. Qed.

Lemma map_lookup {A B} (f : A -> B) (l : list A) : forall i a,
  l !! i = Some a -> List.map f l !! i = Some (f a).
Proof.
  induction l as [| x l IH]; intros [| i] a H; try discriminate; simpl in *.
  - congruence.
  - apply IH, H.
Qed.

(** C4 as stated fails: an item may have a link that [urlparse]
    refuses, and if its title names no publisher the tools reach
    [urlparse], which raises; they then return their catch-all message
    and no block at all, not even for the items before it. *)
Lemma refused_link_prints_no_block :
  (run bracket_world (search_news (u"rates")) []).1
  = UNEXPECTED_SEARCH_ERROR ++ u"Invalid IPv6 URL"
  /\ (run bracket_world (search_news_with_content (u"rates")) []).1
     = CONTENT_SEARCH_ERROR ++ u"Invalid IPv6 URL"
  /\ extract_publisher first_hit = Ok (u"The Daily Ledger")
  /\ extract_publisher bracket_hit = Raise (ValueError (u"Invalid IPv6 URL")).
Proof. vm_compute. repeat split. Qed.

(** C4, amended: for every list of upstream items (returned by the
    search fetch for a keyword that is not blank):
    (1) in [search_news_with_content] the bodies come back one per
    item, in the order of the items: the body at index [i] is a value
    of the extraction of item [i]'s own link (it has every property all
    values of that extraction have), and on a network that answers by
    the request alone it is the very body extracted from that link,
    whatever order the event loop ran and completed the extractions in;
    (2) when the publisher of every item can be derived, [search_news]
    and [search_news_with_content] print exactly one numbered block per
    item, block [i + 1] for the item at index [i], with that item's
    publisher and, in [search_news_with_content], the body at index
    [i];
    (3) when the publisher of some item cannot be derived because
    [urlparse] refuses its link, both tools return their catch-all
    message with the text of the exception raised for the first such
    item, and no block. *)
Theorem results_keep_upstream_order (e : env) (keyword : str) (h : list event)
    (r : response) (total : option Z) (items : list item) :
  Py.strip keyword <> [] ->
  (run e (search_fetch keyword) h).1 = Ok (Some r) ->
  json_body r = inr (JsonDict total (Some items)) ->
  items <> [] ->
  let contents :=
    (run e (gather (List.map (fun it => extract_article_content (page_link it)) items))
         (run e (search_fetch keyword) h).2).1 in
  (length contents = length items
   /\ (forall i it (P : list N -> Prop),
         items !! i = Some it ->
         under any_answer P (extract_article_content (page_link it)) ->
         exists body, contents !! i = Some body /\ P body)
   /\ (timeless e ->
       forall i it, items !! i = Some it ->
         contents !! i = Some (run e (extract_article_content (page_link it)) []).1))
  /\ (forall publishers : list (list N),
        Forall2 (fun it p => extract_publisher it = Ok p) items publishers ->
        (exists blocks : list (list N),
           (run e (search_news keyword) h).1
           = search_news_report keyword total items blocks
           /\ length blocks = length items
           /\ forall i it p,
                items !! i = Some it -> publishers !! i = Some p ->
                blocks !! i = Some (news_block (i + 1) p it))
        /\ (exists blocks : list (list N),
              (run e (search_news_with_content keyword) h).1
              = content_report keyword total items blocks
              /\ length blocks = length items
              /\ forall i it p body,
                   items !! i = Some it -> publishers !! i = Some p ->
                   contents !! i = Some body ->
                   blocks !! i = Some (content_news_block (i + 1) p it body)))
  /\ (forall (good : list item) (bad : item) (rest : list item) (x : exn),
        items = good ++ bad :: rest ->
        Forall (fun it => exists p, extract_publisher it = Ok p) good ->
        extract_publisher bad = Raise x ->
        (run e (search_news keyword) h).1 = UNEXPECTED_SEARCH_ERROR ++ str_exn x
        /\ (run e (search_news_with_content keyword) h).1
           = CONTENT_SEARCH_ERROR ++ str_exn x).
Proof.
  intros Hk Hfetch Hjson Hitems contents.
  set (tasks := List.map (fun it => extract_article_content (page_link it)) items) in *.
  assert (Hlen : length contents = length items).
  { unfold contents, tasks. rewrite gather_length. apply length_map. }
  split; [| split].
  - split; [exact Hlen | split].
    + intros i it P Hi HP. unfold contents.
      apply (gather_result_at e tasks _ P i (extract_article_content (page_link it)));
        [| exact HP].
      unfold tasks.
      apply (map_lookup (fun x => extract_article_content (page_link x)) items i it Hi).
    + intros He i it Hi. unfold contents, tasks.
      rewrite <- (map_map page_link extract_article_content).
      rewrite (gather_extract_timeless e _ _ He).
      rewrite (map_map page_link).
      apply (map_lookup
               (fun x => (run e (extract_article_content (page_link x)) []).1)
               items i it Hi).
  - intros publishers Hp.
    assert (Hplen : length publishers = length items)
      by (symmetry; apply (Forall2_length _ _ _ Hp)).
    split.
    + exists (imap (fun i ip => news_block (i + 1) ip.2 ip.1) (combine items publishers)).
      split; [| split].
      * apply (search_news_of_items e keyword h r total items publishers); assumption.
      * rewrite length_imap. apply combine_length_same, Hplen.
      * intros i it p Hi Hpi.
        rewrite list_lookup_imap, (combine_lookup items publishers i it p Hi Hpi).
        reflexivity.
    + exists (imap (fun i icp => content_news_block (i + 1) icp.2 icp.1.1 icp.1.2)
                   (combine (combine items contents) publishers)).
      split; [| split].
      * apply (content_search_of_items e keyword h r total items publishers);
          assumption.
      * rewrite length_imap, combine_length_same;
          [apply combine_length_same, Hlen |].
        rewrite combine_length_same; [exact Hplen | exact Hlen].
      * intros i it p body Hi Hpi Hb.
        rewrite list_lookup_imap.
        rewrite (combine_lookup (combine items contents) publishers i (it, body) p);
          [reflexivity | | exact Hpi].
        apply combine_lookup; assumption.
  - intros good bad rest x -> Hgood Hbad. split.
    + apply (search_news_of_refused e keyword h r total good bad rest x); assumption.
    + apply (content_search_of_refused e keyword h r total good bad rest x); assumption.
Qed.

Lemma results_keep_upstream_order_witness :
  let e := newsroom (fun _ => false) in
  let items := [first_hit; second_hit] in
  let contents :=
    (run e (gather (List.map (fun it => extract_article_content (page_link it)) items))
         (run e (search_fetch (u" rates ")) []).2).1 in
  (length contents = length items
   /\ (forall i it (P : list N -> Prop),
         items !! i = Some it ->
         under any_answer P (extract_article_content (page_link it)) ->
         exists body, contents !! i = Some body /\ P body)
   /\ (timeless e ->
       forall i it, items !! i = Some it ->
         contents !! i = Some (run e (extract_article_content (page_link it)) []).1))
  /\ (forall publishers : list (list N),
        Forall2 (fun it p => extract_publisher it = Ok p) items publishers ->
        (exists blocks : list (list N),
           (run e (search_news (u" rates ")) []).1
           = search_news_report (u" rates ") (Some 2%Z) items blocks
           /\ length blocks = length items
           /\ forall i it p,
                items !! i = Some it -> publishers !! i = Some p ->
                blocks !! i = Some (news_block (i + 1) p it))
        /\ (exists blocks : list (list N),
              (run e (search_news_with_content (u" rates ")) []).1
              = content_report (u" rates ") (Some 2%Z) items blocks
              /\ length blocks = length items
              /\ forall i it p body,
                   items !! i = Some it -> publishers !! i = Some p ->
                   contents !! i = Some body ->
                   blocks !! i = Some (content_news_block (i + 1) p it body)))
  /\ (forall (good : list item) (bad : item) (rest : list item) (x : exn),
        items = good ++ bad :: rest ->
        Forall (fun it => exists p, extract_publisher it = Ok p) good ->
        extract_publisher bad = Raise x ->
        (run e (search_news (u" rates ")) []).1 = UNEXPECTED_SEARCH_ERROR ++ str_exn x
        /\ (run e (search_news_with_content (u" rates ")) []).1
           = CONTENT_SEARCH_ERROR ++ str_exn x).
Proof.
  apply (results_keep_upstream_order (newsroom (fun _ => false)) (u" rates ") []
           (search_page (inr (JsonDict (Some 2%Z) (Some [first_hit; second_hit]))))
           (Some 2%Z) [first_hit; second_hit]).
  - vm_compute. discriminate.
  - reflexivity.
  - reflexivity.
  - discriminate.
Defined.

(** Two event loops, one that always resumes the first unfinished
    extraction and one that always resumes the last: the pages are
    fetched in opposite orders and the tool returns the same text, the
    first item's body in the first block. *)
Example scrambled_completion_same_output :
  urls_fetched (run (newsroom (fun _ => true)) (search_news_with_content (u"rates")) []).2
  = [SEARCH_URL; u"https://ledger.example.com/rates";
     u"https://www.harbour.example.org/ports"]
  /\ urls_fetched (run (newsroom (fun _ => false)) (search_news_with_content (u"rates")) []).2
     = [SEARCH_URL; u"https://www.harbour.example.org/ports";
        u"https://ledger.example.com/rates"]
  /\ (run (newsroom (fun _ => true)) (search_news_with_content (u"rates")) []).1
     = (run (newsroom (fun _ => false)) (search_news_with_content (u"rates")) []).1
  /\ (run (newsroom (fun _ => false)) (search_news_with_content (u"rates")) []).1
     = content_report (u"rates") (Some 2%Z) [first_hit; second_hit]
         [content_news_block 1 (u"The Daily Ledger") first_hit
            (u"The bank held its rate.");
          content_news_block 2 (u"harbour.example.org") second_hit
            (u"All berths are open.")].
Proof. vm_compute. repeat split. Qed.

(** ** Responses the search tools cannot use *)

(** [search_news] names the defect of the response. *)
Lemma search_news_malformed (e : env) (keyword : str) (h : list event) (r : response) :
  Py.strip keyword <> [] ->
  (run e (search_fetch keyword) h).1 = Ok (Some r) ->
  match json_body r with
  | inl (NotJson _) =>
      (run e (search_news keyword) h).1 = COULD_NOT_PROCESS ++ u": 잘못된 응답 형식"
  | inl (Undecodable msg) =>
      (run e (search_news keyword) h).1 = UNEXPECTED_SEARCH_ERROR ++ msg
  | inr (JsonOther _) =>
      (run e (search_news keyword) h).1 = COULD_NOT_PROCESS ++ u": 예상치 못한 응답 형식"
  | inr (JsonDict _ None) =>
      (run e (search_news keyword) h).1 = COULD_NOT_PROCESS ++ u": 항목을 찾을 수 없음"
  | inr (JsonDict _ (Some _)) => True
  end.
Proof.
  intros Hk Hfetch.
  unfold search_news. rewrite (searchable_guard keyword Hk). cbn zeta.
  rewrite search_fetch_unfold, run_try_except, run_bind, run_bind_result, Hfetch.
  destruct (json_body r) as [[msg | msg] | [type_name | total [items |]]];
    [vm_compute; reflexivity | reflexivity | vm_compute; reflexivity | exact I
    | vm_compute; reflexivity].
Qed.

(** [search_news_with_content] does not: a body that is not JSON and a
    JSON document that is not an object end in its catch-all handler
    with the text of the exception, and an object without ["items"] is
    reported as a search without results. *)
Lemma content_search_malformed (e : env) (keyword : str) (h : list event) (r : response) :
  Py.strip keyword <> [] ->
  (run e (search_fetch keyword) h).1 = Ok (Some r) ->
  match json_body r with
  | inl (NotJson msg) | inl (Undecodable msg) =>
      (run e (search_news_with_content keyword) h).1 = CONTENT_SEARCH_ERROR ++ msg
  | inr (JsonOther type_name) =>
      (run e (search_news_with_content keyword) h).1
      = CONTENT_SEARCH_ERROR ++ u"'" ++ type_name ++ u"' object has no attribute 'get'"
  | inr (JsonDict _ None) =>
      (run e (search_news_with_content keyword) h).1 = no_results (Py.strip keyword)
  | inr (JsonDict _ (Some _)) => True
  end.
Proof.
  intros Hk Hfetch.
  unfold search_news_with_content. rewrite (searchable_guard keyword Hk). cbn zeta.
  fold (search_fetch keyword).
  rewrite run_try_except, run_await, run_try_except, run_bind_result, Hfetch.
  destruct (json_body r) as [[msg | msg] | [type_name | total [items |]]];
    [reflexivity | reflexivity | reflexivity | exact I | reflexivity].
Qed.

(** C9, at the inputs where the code departs from it: for a search
    response that is not JSON, and for one whose JSON has no ["items"],
    [search_news] returns its "could not process the results" message,
    while [search_news_with_content] returns its catch-all message with
    the decoder's text in the first case and the "no results" message
    in the second. *)
Theorem malformed_response_messages :
  (run (answering (inl NOT_JSON)) (search_news (u"rates")) []).1
  = COULD_NOT_PROCESS ++ u": 잘못된 응답 형식"
  /\ (run (answering (inr (JsonDict None None))) (search_news (u"rates")) []).1
     = COULD_NOT_PROCESS ++ u": 항목을 찾을 수 없음"
  /\ (run (answering (inl NOT_JSON)) (search_news_with_content (u"rates")) []).1
     = CONTENT_SEARCH_ERROR ++ NOT_JSON
  /\ (run (answering (inr (JsonDict None None))) (search_news_with_content (u"rates")) []).1
     = no_results (u"rates")
  /\ Py.startswith COULD_NOT_PROCESS
       (run (answering (inl NOT_JSON)) (search_news_with_content (u"rates")) []).1
     = false
  /\ Py.startswith COULD_NOT_PROCESS
       (run (answering (inr (JsonDict None None))) (search_news_with_content (u"rates")) []).1
     = false.
Proof. vm_compute. repeat split. Qed.

(** * Further properties *)

(** ** Every fetch, on every network *)

(** X1: for every URL, every number [N] of attempts and every network,
    [make_request_with_retry] returns [None] only when [N] is 0 (and
    then always); when it returns a response, the status of that
    response is in 200..299; with [N >= 1] it returns such a response
    or raises. *)
Theorem fetch_returns_success_or_raises (url : str)
    (params : option (list (string * param))) (headers : header_set) (N : nat)
    (e : env) (h : list event) :
  match (run e (make_request_with_retry url params headers N) h).1 with
  | Ok (Some r) => (1 <= N)%nat /\ (200 <= status_code r <= 299)%Z
  | Ok None => N = 0%nat
  | Raise _ => (1 <= N)%nat
  end.
Proof.
  destruct N as [| n]; [reflexivity |].
  destruct (fetch_cases e url params headers (S n) h) as (earlier & final & _ & _ & _ & ->);
    [lia |].
  cbn [fst].
  destruct (verdict_of final) as [r | x | x] eqn:Hv; cbn [fetch_result]; try lia.
  split; [lia |]. apply (verdict_succeeds _ _ Hv).
Qed.

(** X2: for every URL, every number [N] of attempts, every network and
    every history [h], the history after [make_request_with_retry] is
    [h] followed by the trace of some attempts [os], at most [N] of
    them and at least one when [N >= 1]: the same request each time,
    with the module's timeout and following redirects, one sleep of
    [RETRY_DELAY] between two attempts and none after the last; every
    attempt but the last failed in a way the policy retries. *)
Theorem fetch_trace_shape (url : str) (params : option (list (string * param)))
    (headers : header_set) (N : nat) (e : env) (h : list event) :
  exists os,
    (run e (make_request_with_retry url params headers N) h).2
    = h ++ attempts_trace (request_for url params headers) os
    /\ (length os <= N)%nat
    /\ ((1 <= N)%nat -> (1 <= length os)%nat)
    /\ Forall is_retried (removelast os)
    /\ count_gets (run e (make_request_with_retry url params headers N) h).2
       = (count_gets h + length os)%nat.
Proof.
  destruct N as [| n].
  - exists []. cbn [make_request_with_retry seq retry_loop run snd attempts_trace
                      removelast length].
    rewrite app_nil_r, Nat.add_0_r. repeat split; try lia. constructor.
  - destruct (fetch_cases e url params headers (S n) h)
      as (earlier & final & Hlen & Hret & _ & ->); [lia |].
    exists (earlier ++ [final]). cbn [snd].
    rewrite count_gets_app, count_gets_attempts, removelast_last, length_app.
    simpl. repeat split; try lia. exact Hret.
Qed.

(** ** What the search tools say when the search itself fails *)

(** X3: for every keyword that is not blank and every network, if the
    fetch of [search_news] ends with the exception [x], the tool
    returns the message for [x] (a time-out, an authentication failure
    for 401 and 403, too many requests for 429, a server error from 500
    on, the status in decimal for any other status, a network problem,
    or the text of any other exception after a fixed prefix) and sends
    nothing after the fetch; and when [x] is a failure the policy
    retries, the search API was asked exactly [MAX_RETRIES] times
    before the tool gave up. *)
Theorem search_news_reports_failure (e : env) (keyword : str) (h : list event)
    (x : exn) :
  Py.strip keyword <> [] ->
  (run e (search_fetch keyword) h).1 = Raise x ->
  run e (search_news keyword) h
  = (search_failure x, (run e (search_fetch keyword) h).2)
  /\ (transient x = true ->
      count_gets (run e (search_news keyword) h).2
      = (count_gets h + MAX_RETRIES)%nat).
Proof.
  intros Hk Hx.
  assert (Hrun : run e (search_news keyword) h
                 = (search_failure x, (run e (search_fetch keyword) h).2)).
  { unfold search_news. rewrite (searchable_guard keyword Hk). cbn zeta.
    rewrite search_fetch_unfold, run_try_except, run_bind, run_bind_result, Hx.
    cbn [fst snd].
    destruct x as [m | m r | m | m | m | m | m]; cbn [run fst snd search_failure];
      try reflexivity.
    unfold status_message. rewrite Z.geb_leb.
    destruct ((status_code r =? 401) || (status_code r =? 403))%Z; [reflexivity |].
    destruct (status_code r =? 429)%Z; [reflexivity |].
    destruct (500 <=? status_code r)%Z; reflexivity. }
  split; [exact Hrun |].
  rewrite Hrun. cbn [snd]. intros Ht. revert Hx. unfold search_fetch.
  destruct (fetch_cases e SEARCH_URL (Some (search_params (Py.strip keyword) 20))
              NAVER_HEADERS MAX_RETRIES h) as (earlier & final & Hlen & _ & Hlast & ->);
    [unfold MAX_RETRIES; lia |].
  cbn [fst snd]. intros Hx.
  rewrite count_gets_app, count_gets_attempts, length_app. simpl.
  destruct (verdict_of final) as [r | y | y] eqn:Hv; cbn [fetch_result] in Hx.
  - discriminate.
  - rewrite <- (Hlast (ex_intro _ y Hv)). lia.
  - injection Hx as ->. apply verdict_surfaced in Hv. congruence.
Qed.

Lemma search_news_reports_failure_witness :
  Py.strip (u"rates") <> []
  /\ run unauthorized (search_news (u"rates")) []
     = (AUTH_FAILED, [EvGet (search_request (u"rates")) (Responds (page 401 [] empty_doc))]).
Proof.
  split; [discriminate |].
  exact (proj1 (search_news_reports_failure unauthorized (u"rates") []
                  (HTTPStatusError (u"HTTP status 401") (page 401 [] empty_doc))
                  ltac:(discriminate) eq_refl)).
Defined.

(** X4: for every keyword that is not blank and every network, if the
    search fetch of [search_news_with_content] ends with an exception,
    of whatever kind, the tool returns its one catch-all message
    followed by the text of the exception, and no publisher's site is
    asked for a page: the history is that of the fetch;
    [compare_news_perspectives] returns the same with its suffix. *)
Theorem content_search_reports_failure (e : env) (keyword : str) (h : list event)
    (x : exn) :
  Py.strip keyword <> [] ->
  (run e (search_fetch keyword) h).1 = Raise x ->
  run e (search_news_with_content keyword) h
  = (CONTENT_SEARCH_ERROR ++ str_exn x, (run e (search_fetch keyword) h).2)
  /\ run e (compare_news_perspectives keyword) h
     = ((CONTENT_SEARCH_ERROR ++ str_exn x) ++ PERSPECTIVES_SUFFIX,
        (run e (search_fetch keyword) h).2).
Proof.
  intros Hk Hx.
  assert (Hrun : run e (search_news_with_content keyword) h
                 = (CONTENT_SEARCH_ERROR ++ str_exn x, (run e (search_fetch keyword) h).2)).
  { unfold search_news_with_content. rewrite (searchable_guard keyword Hk). cbn zeta.
    fold (search_fetch keyword).
    rewrite run_try_except, run_await, run_try_except, run_bind_result, Hx.
    reflexivity. }
  split; [exact Hrun |]. rewrite run_compare, Hrun. reflexivity.
Qed.

Lemma content_search_reports_failure_witness :
  Py.strip (u"rates") <> []
  /\ run unauthorized (search_news_with_content (u"rates")) []
     = (CONTENT_SEARCH_ERROR ++ u"HTTP status 401",
        [EvGet (search_request (u"rates")) (Responds (page 401 [] empty_doc))]).
Proof.
  split; [discriminate |].
  exact (proj1 (content_search_reports_failure unauthorized (u"rates") []
                  (HTTPStatusError (u"HTTP status 401") (page 401 [] empty_doc))
                  ltac:(discriminate) eq_refl)).
Defined.

(** ** The keyword is used stripped *)

Lemma lstrip_lstrip (s : str) : Py.lstrip (Py.lstrip s) = Py.lstrip s.
Proof.
  induction s as [| c r IH]; [reflexivity |]. simpl.
  destruct (Py.isspace c) eqn:E; [exact IH |]. simpl. rewrite E. reflexivity.
Qed.

Lemma rstrip_rstrip (s : str) : Py.rstrip (Py.rstrip s) = Py.rstrip s.
Proof. unfold Py.rstrip. rewrite rev_involutive, lstrip_lstrip. reflexivity. Qed.

Lemma lstrip_rstrip (s : str) :
  Py.lstrip (Py.rstrip (Py.lstrip s)) = Py.rstrip (Py.lstrip s).
Proof.
  destruct (Py.lstrip s) as [| c r] eqn:E; [reflexivity |].
  assert (Hc : Py.isspace c = false).
  { clear - E. induction s as [| x s IH]; [discriminate |]. simpl in E.
    destruct (Py.isspace x) eqn:Ex; [exact (IH E) |].
    injection E as -> _. exact Ex. }
  change (c :: r) with ([c] ++ r). rewrite rstrip_app, rstrip_single, Hc.
  destruct (Py.rstrip r); simpl; rewrite Hc; reflexivity.
Qed.

Lemma strip_strip (s : str) : Py.strip (Py.strip s) = Py.strip s.
Proof. unfold Py.strip. rewrite lstrip_rstrip, rstrip_rstrip. reflexivity. Qed.

Lemma guard_strip (keyword : str) :
  Py.eqb (Py.strip keyword) [] || Py.eqb (Py.strip (Py.strip keyword)) []
  = Py.eqb keyword [] || Py.eqb (Py.strip keyword) [].
Proof.
  rewrite strip_strip, orb_diag. destruct keyword; reflexivity.
Qed.

(** X5: white space around the keyword does not count: each of the
    three tools is the same coroutine for a keyword and for that keyword
    stripped, so it sends the same requests and returns the same text
    on every network. *)
Theorem keyword_is_stripped (keyword : str) :
  search_news keyword = search_news (Py.strip keyword)
  /\ search_news_with_content keyword = search_news_with_content (Py.strip keyword)
  /\ compare_news_perspectives keyword
     = compare_news_perspectives (Py.strip keyword).
Proof.
  assert (H1 : search_news_with_content keyword
               = search_news_with_content (Py.strip keyword)).
  { unfold search_news_with_content. rewrite guard_strip, strip_strip. reflexivity. }
  split; [| split].
  - unfold search_news. rewrite guard_strip, strip_strip. reflexivity.
  - exact H1.
  - unfold compare_news_perspectives. rewrite <- H1. reflexivity.
Qed.

(** ** The extracted body is single-spaced *)

Lemma words_go_no_space (s : str) : forall cur,
  Forall (fun c => Py.isspace c = false) cur ->
  Forall (Forall (fun c => Py.isspace c = false)) (words_go cur s).
Proof.
  induction s as [| c r IH]; intros cur Hcur; cbn [words_go].
  - destruct cur; constructor; [| constructor].
    apply Forall_rev. exact Hcur.
  - destruct (Py.isspace c) eqn:Hc.
    + destruct cur; [apply IH; constructor |].
      constructor; [apply Forall_rev; exact Hcur | apply IH; constructor].
    + apply IH. constructor; assumption.
Qed.

Lemma spaced_ok_word (w rest : str) : forall b,
  w <> [] -> Forall (fun c => Py.isspace c = false) w ->
  spaced_ok b (w ++ rest) = spaced_ok false rest.
Proof.
  induction w as [| c w IH]; intros b Hne Hw; [contradiction |].
  cbn [app spaced_ok]. rewrite (Forall_inv Hw).
  destruct w as [| c' w']; [reflexivity |].
  apply IH; [discriminate | exact (Forall_inv_tail Hw)].
Qed.

Lemma spaced_ok_join (ws : list (list N)) : forall b,
  ws <> [] -> Forall (fun w => w <> []) ws ->
  Forall (Forall (fun c => Py.isspace c = false)) ws ->
  spaced_ok b (Py.join (u" ") ws) = true.
Proof.
  induction ws as [| w ws IH]; intros b Hne Hw Hs; [contradiction |].
  rewrite join_cons. destruct ws as [| w' ws'].
  - rewrite <- (app_nil_r w).
    rewrite (spaced_ok_word w [] b (Forall_inv Hw) (Forall_inv Hs)). reflexivity.
  - rewrite (spaced_ok_word w _ b (Forall_inv Hw) (Forall_inv Hs)).
    change (u" ") with [32]. cbn [app spaced_ok].
    change (Py.isspace 32) with true. cbn iota. cbn [N.eqb Pos.eqb negb andb].
    change (Py.join [32] (w' :: ws')) with (Py.join (u" ") (w' :: ws')).
    apply IH; [discriminate | exact (Forall_inv_tail Hw) | exact (Forall_inv_tail Hs)].
Qed.

Lemma collapsed_spaced (t : str) :
  collapsed t = [] \/ spaced_ok true (collapsed t) = true.
Proof.
  unfold collapsed, words. destruct (words_go [] t) as [| w ws] eqn:E.
  - left. reflexivity.
  - right. rewrite <- E. apply spaced_ok_join.
    + rewrite E. discriminate.
    + apply words_go_nonempty.
    + apply words_go_no_space. constructor.
Qed.

Lemma spaced_ok_cut (marker : str) :
  (forall b, spaced_ok b marker = true) ->
  forall s b n, spaced_ok b s = true -> spaced_ok b (firstn n s ++ marker) = true.
Proof.
  intros Hm. induction s as [| c s IH]; intros b n H.
  - rewrite firstn_nil. apply Hm.
  - destruct n as [| n]; [apply Hm |].
    cbn [firstn app spaced_ok] in *. destruct (Py.isspace c).
    + apply andb_true_iff in H. destruct H as [H1 H2]. rewrite H1.
      apply (IH true n H2).
    + apply (IH false n H).
Qed.

Lemma truncated_spaced (t : str) : single_spaced (truncated (collapsed t)) = true.
Proof.
  unfold truncated.
  destruct (collapsed_spaced t) as [E | H].
  - rewrite E. reflexivity.
  - destruct (MAX_CONTENT_LENGTH <? length (collapsed t))%nat.
    + assert (Hcut : spaced_ok true
                       (firstn MAX_CONTENT_LENGTH (collapsed t) ++ TRUNCATION_MARKER)
                     = true).
      { apply spaced_ok_cut; [intros []; reflexivity | exact H]. }
      unfold single_spaced.
      destruct (firstn MAX_CONTENT_LENGTH (collapsed t) ++ TRUNCATION_MARKER);
        [reflexivity | exact Hcut].
    + unfold single_spaced. destruct (collapsed t); [reflexivity | exact H].
Qed.

Lemma article_text_spaced (url : str) (soup : Bs4.node) :
  single_spaced (article_text url soup) = true.
Proof.
  rewrite article_text_cascade.
  destruct (applied_text url soup); [apply truncated_spaced | reflexivity].
Qed.



(** ** When [extract_publisher] raises *)

(** X7: [extract_publisher] raises nothing but the [ValueError] of
    [urlparse], and only for an item whose title has no separator and
    whose link is not empty: an item with a publisher in its title, or
    without a link, always has a publisher. *)
Theorem publisher_raises_only_for_links (it : item) (x : exn) :
  extract_publisher it = Raise x ->
  (exists msg, x = ValueError msg)
  /\ Py.contains SEPARATOR (title_of it) = false
  /\ link_of it <> []
  /\ Urllib.netloc (link_of it) = Raise x.
Proof.
  intros H. split; [apply (extract_publisher_raises it x H) |].
  revert H. unfold extract_publisher.
  fold (title_of it) (description_of it) (link_of it). fold SEPARATOR.
  destruct (Py.contains SEPARATOR (title_of it)); [discriminate |].
  destruct (link_of it) as [| c l] eqn:El; [discriminate |]. cbn [Py.eqb negb].
  destruct (Urllib.netloc (c :: l)) as [domain | y] eqn:E.
  - repeat match goal with |- context [if ?b then _ else _] => destruct b end;
      discriminate.
  - intros [= <-]. repeat split. discriminate.
Qed.

Lemma publisher_raises_only_for_links_witness :
  (exists msg, ValueError (u"Invalid IPv6 URL") = ValueError msg)
  /\ Py.contains SEPARATOR (title_of bracket_hit) = false
  /\ link_of bracket_hit <> []
  /\ Urllib.netloc (link_of bracket_hit) = Raise (ValueError (u"Invalid IPv6 URL")).
Proof.
  exact (publisher_raises_only_for_links bracket_hit
           (ValueError (u"Invalid IPv6 URL")) eq_refl).
Defined.

(** ** [check_api_keys] *)

(** X8: [check_api_keys] fails exactly when one of the two credential
    variables is set to the empty string; a variable that is not set is
    never reported, because the built-in default stands in for it. *)
Theorem check_api_keys_fails_on_empty_only (environ : gmap string (list N)) :
  check_api_keys environ = false
  <-> environ !! "NAVER_CLIENT_ID"%string = Some []
      \/ environ !! "NAVER_CLIENT_SECRET"%string = Some [].
Proof.
  unfold check_api_keys, NAVER_CLIENT_ID, NAVER_CLIENT_SECRET, getenv.
  assert (D1 : Py.eqb (u"BRBkD_TaH9_cWnTRNDo0") [] = false) by (vm_compute; reflexivity).
  assert (D2 : Py.eqb (u"nBQbi0IM30") [] = false) by (vm_compute; reflexivity).
  revert D1 D2.
  generalize (u"BRBkD_TaH9_cWnTRNDo0") as id_default.
  generalize (u"nBQbi0IM30") as secret_default.
  intros secret_default id_default D1 D2.
  destruct (environ !! "NAVER_CLIENT_ID"%string) as [[| c i] |];
    destruct (environ !! "NAVER_CLIENT_SECRET"%string) as [[| d s] |];
    cbn [default from_option id Py.eqb orb]; rewrite ?D1, ?D2; cbn [orb];
    split; intros H; try discriminate; try reflexivity;
    try (left; reflexivity); try (right; reflexivity);
    destruct H as [H | H]; discriminate.
Qed.

(** ** What the tools send *)

Lemma sent_app (h1 h2 : list event) : sent (h1 ++ h2) = sent h1 ++ sent h2.
Proof. apply flat_map_app. Qed.

Lemma count_gets_sent (h : list event) : count_gets h = length (sent h).
Proof.
  unfold count_gets. induction h as [| ev h IH]; [reflexivity |].
  destruct ev; simpl; rewrite <- IH; reflexivity.
Qed.

Lemma sends_weaken {A} (P Q : request -> Prop) (c : coro A) :
  (forall req, P req -> Q req) ->
  forall n m, (n <= m)%nat -> sends P n c -> sends Q m c.
Proof.
  intros HPQ.
  induction c as [a | req k IH | secs k IH | l IHl r IHr]; intros n m Hnm; simpl.
  - auto.
  - intros [Hreq Hk]. split; [apply HPQ, Hreq |].
    destruct n as [| n]; [contradiction |]. destruct m as [| m]; [lia |].
    intros o. apply (IH o n m); [lia | apply Hk].
  - apply IH, Hnm.
  - intros [Hl Hr]. split; [apply (IHl n m Hnm Hl) | apply (IHr n m Hnm Hr)].
Qed.

Lemma sends_bind {A B} (P : request -> Prop) (m : nat) (c : coro A)
    (f : A -> coro B) :
  (forall a, sends P m (f a)) ->
  forall n, sends P n c -> sends P (n + m) (bind c f).
Proof.
  intros Hf.
  induction c as [a | req k IH | secs k IH | l IHl r IHr]; intros n; simpl.
  - intros _. apply (sends_weaken P P _ (fun _ H => H) m); [lia | apply Hf].
  - intros [Hreq Hk]. split; [exact Hreq |].
    destruct n as [| n]; [contradiction |]. simpl. intros o. apply IH, Hk.
  - apply IH.
  - intros [Hl Hr]. split; [apply IHl, Hl | apply IHr, Hr].
Qed.

Lemma sends_pair {A B} (P : request -> Prop) (n m : nat) (c : coro A)
    (f : A -> B) :
  sends P n c -> sends P (n + m) (bind c (fun x => Ret (f x))).
Proof.
  intros Hc.
  apply (sends_weaken P P _ (fun _ H => H) (n + 0)); [lia |].
  apply sends_bind; [intros a; exact I | exact Hc].
Qed.

(** One side of [both] has returned: the other sends what is left. *)
Ltac other_sends Ha Hb :=
  first [rewrite both_ret_l;
         rewrite Nat.add_comm; apply sends_pair; exact Hb
        | rewrite both_ret_r; apply sends_pair; exact Ha].

Lemma sends_both {A B} (P : request -> Prop) (a : coro A) :
  forall (b : coro B) n m,
  sends P n a -> sends P m b -> sends P (n + m) (both a b).
Proof.
  induction a as [x | req k IHa | secs k IHa | l IHl r IHr]; intros b n m Ha;
    [intros Hb; other_sends Ha Hb | | |]; revert m;
    induction b as [y | req' k' IHb | secs' k' IHb | l' IHl' r' IHr']; intros m Hb;
    try (other_sends Ha Hb).
  - destruct Ha as [Hreq Hk], Hb as [Hreq' Hk'].
    destruct n as [| n]; [contradiction |]. destruct m as [| m]; [contradiction |].
    split; (split; [assumption |]).
    + simpl. intros o. apply IHa; [apply Hk | split; assumption].
    + rewrite Nat.add_succ_r. intros o. apply (IHb o m), Hk'.
  - destruct Ha as [Hreq Hk]. destruct n as [| n]; [contradiction |].
    split; [split; [assumption |] |].
    + simpl. intros o. apply IHa; [apply Hk | exact Hb].
    + apply IHb, Hb.
  - destruct Ha as [Hreq Hk]. destruct n as [| n]; [contradiction |].
    split; [split; [assumption |] |].
    + simpl. intros o. apply IHa; [apply Hk | exact Hb].
    + destruct Hb as [Hl' Hr']. split; [apply IHl', Hl' | apply IHr', Hr'].
  - destruct Hb as [Hreq' Hk']. destruct m as [| m]; [contradiction |].
    split; [apply IHa; [exact Ha | split; assumption] |].
    split; [assumption |]. rewrite Nat.add_succ_r. intros o. apply (IHb o m), Hk'.
  - split; [apply IHa; [exact Ha | exact Hb] | apply IHb, Hb].
  - split; [apply IHa; [exact Ha | exact Hb] |].
    destruct Hb as [Hl' Hr']. split; [apply IHl', Hl' | apply IHr', Hr'].
  - destruct Ha as [Hl Hr]. destruct Hb as [Hreq' Hk'].
    destruct m as [| m]; [contradiction |].
    split; [split; [apply IHl | apply IHr]; try assumption; split; assumption |].
    split; [assumption |]. rewrite Nat.add_succ_r. intros o. apply (IHb o m), Hk'.
  - destruct Ha as [Hl Hr].
    split; [split; [apply IHl | apply IHr]; assumption | apply IHb, Hb].
  - destruct Ha as [Hl Hr].
    split; [split; [apply IHl | apply IHr]; assumption |].
    destruct Hb as [Hl' Hr']. split; [apply IHl', Hl' | apply IHr', Hr'].
Qed.

Lemma sends_gather {A} (P : request -> Prop) (n : nat) (tasks : list (coro A)) :
  Forall (sends P n) tasks -> sends P (length tasks * n) (gather tasks).
Proof.
  induction 1 as [| t rest Ht _ IH]; [exact I |]. cbn [gather length].
  apply (sends_weaken P P _ (fun _ H => H) (n + length rest * n + 0)); [lia |].
  apply sends_bind; [intros [x xs]; exact I |].
  apply sends_both; assumption.
Qed.

(** What [sends] says of a run. *)
Lemma sends_run {A} (P : request -> Prop) (e : env) (c : coro A) :
  forall n h, sends P n c ->
  exists t, (run e c h).2 = h ++ t /\ Forall P (sent t)
            /\ (length (sent t) <= n)%nat.
Proof.
  induction c as [a | req k IH | secs k IH | l IHl r IHr]; intros n h; simpl.
  - intros _. exists []. rewrite app_nil_r. repeat split; [constructor | simpl; lia].
  - intros [Hreq Hk]. destruct n as [| n]; [contradiction |].
    destruct (IH (net e h req) n (h ++ [EvGet req (net e h req)]) (Hk _))
      as (t & -> & HP & Hlen).
    exists (EvGet req (net e h req) :: t). rewrite <- app_assoc.
    split; [reflexivity |]. split; [constructor; assumption | simpl; lia].
  - intros Hk. destruct (IH n (h ++ [EvSleep secs]) Hk) as (t & -> & HP & Hlen).
    exists (EvSleep secs :: t). rewrite <- app_assoc. repeat split; assumption.
  - intros [Hl Hr]. destruct (sched e h).
    + destruct (IHl n (h ++ [EvSwitch true]) Hl) as (t & -> & HP & Hlen).
      exists (EvSwitch true :: t). rewrite <- app_assoc. repeat split; assumption.
    + destruct (IHr n (h ++ [EvSwitch false]) Hr) as (t & -> & HP & Hlen).
      exists (EvSwitch false :: t). rewrite <- app_assoc. repeat split; assumption.
Qed.

Lemma sends_retry_loop (req : request) (N : nat) (attempts : list nat) :
  sends (eq req) (length attempts) (retry_loop req N attempts).
Proof.
  induction attempts as [| a rest IH]; [exact I |].
  cbn [retry_loop length]. change (S (length rest)) with (1 + length rest)%nat.
  apply sends_bind.
  - intros [r | x]; [exact I |].
    destruct x; simpl;
      repeat match goal with |- context [if ?b then _ else _] => destruct b end;
      simpl; auto.
  - unfold bind_result, client_get. simpl. split; [reflexivity |].
    intros [r | x]; simpl; [| exact I].
    destruct (raise_for_status r); exact I.
Qed.

Lemma sends_fetch (url : str) (params : option (list (string * param)))
    (headers : header_set) (N : nat) :
  sends (eq (request_for url params headers)) N
        (make_request_with_retry url params headers N).
Proof.
  unfold make_request_with_retry.
  pose proof (sends_retry_loop (request_for url params headers) N (seq 0 N)) as H.
  rewrite length_seq in H. exact H.
Qed.

Lemma sends_extract (url : str) :
  sends (eq (page_request url)) MAX_RETRIES (extract_article_content url).
Proof.
  unfold extract_article_content, try_except, bind_result.
  apply (sends_weaken (eq (page_request url)) _ _ (fun _ H => H) (MAX_RETRIES + 0 + 0));
    [lia |].
  apply sends_bind; [intros [s | x]; exact I |].
  apply sends_bind; [intros [[r |] | x]; exact I |].
  apply sends_fetch.
Qed.

Lemma sends_pages (keyword : str) (items : list item) :
  sends (tool_request keyword) (length items * MAX_RETRIES)
        (gather (List.map (fun it => extract_article_content (page_link it)) items)).
Proof.
  rewrite <- (length_map (fun it => extract_article_content (page_link it)) items).
  apply sends_gather, Forall_map, Forall_forall. intros it _. cbv beta.
  apply (sends_weaken (eq (page_request (page_link it))) (tool_request keyword) _
           (fun req H => or_intror (ex_intro _ (page_link it) (eq_sym H)))
           MAX_RETRIES);
    [lia | apply sends_extract].
Qed.

Lemma guard_blank (keyword : str) :
  Py.eqb keyword [] || Py.eqb (Py.strip keyword) [] = Py.eqb (Py.strip keyword) [].
Proof. destruct keyword; reflexivity. Qed.

(** [search_news] sends nothing after its fetch. *)
Lemma search_news_trace (e : env) (keyword : str) (h : list event) :
  (run e (search_news keyword) h).2
  = if Py.eqb (Py.strip keyword) [] then h else (run e (search_fetch keyword) h).2.
Proof.
  unfold search_news. rewrite guard_blank.
  destruct (Py.eqb (Py.strip keyword) []); [reflexivity |]. cbn zeta.
  rewrite search_fetch_unfold, run_try_except, run_bind, run_bind_result.
  destruct (run e (search_fetch keyword) h) as [[[r |] | x] h1]; cbn [fst snd].
  - destruct (json_body r) as [[msg | msg] | [type_name | total [[| it items] |]]];
      try reflexivity.
    rewrite run_bind_result. cbn [run fst snd].
    destruct (for_each search_news_block _ _) as [blocks | x]; [reflexivity |].
    destruct x; cbn [run fst snd];
      repeat match goal with |- context [if ?b then _ else _] => destruct b end;
      reflexivity.
  - reflexivity.
  - destruct x as [m | m r | m | m | m | m | m]; try reflexivity.
    cbn [run fst snd].
    repeat match goal with |- context [if ?b then _ else _] => destruct b end;
      reflexivity.
Qed.

(** [search_news_with_content] sends nothing after its fetch but the
    requests of the gathered extractions, one extraction for each item
    found. *)
Lemma content_search_trace (e : env) (keyword : str) (h : list event) :
  (run e (search_news_with_content keyword) h).2
  = if Py.eqb (Py.strip keyword) [] then h
    else (run e (gather (List.map (fun it => extract_article_content (page_link it))
                           (found_items (run e (search_fetch keyword) h).1)))
              (run e (search_fetch keyword) h).2).2.
Proof.
  unfold search_news_with_content. rewrite guard_blank.
  destruct (Py.eqb (Py.strip keyword) []); [reflexivity |]. cbn zeta.
  fold (search_fetch keyword).
  rewrite run_try_except, run_await, run_try_except, run_bind_result.
  destruct (run e (search_fetch keyword) h) as [[[r |] | x] h1];
    cbn [fst snd found_items]; [| reflexivity | reflexivity].
  destruct (json_body r) as [[msg | msg] | [type_name | total [[| it items] |]]];
    try reflexivity.
  rewrite run_bind_result, run_await. cbn [fst snd].
  rewrite run_bind_result. cbn [run fst snd].
  destruct (for_each content_block _ _); reflexivity.
Qed.

Lemma content_search_sends (e : env) (keyword : str) (h : list event) :
  exists t, (run e (search_news_with_content keyword) h).2 = h ++ t
    /\ Forall (tool_request keyword) (sent t)
    /\ (length (sent t)
        <= MAX_RETRIES * (1 + length (found_items (run e (search_fetch keyword) h).1)))%nat.
Proof.
  rewrite content_search_trace.
  destruct (Py.eqb (Py.strip keyword) []).
  { exists []. rewrite app_nil_r. repeat split; [constructor | simpl; lia]. }
  destruct (sends_run (eq (search_request keyword)) e (search_fetch keyword)
              MAX_RETRIES h (sends_fetch _ _ _ _)) as (t1 & E1 & HP1 & Hlen1).
  destruct (sends_run (tool_request keyword) e _ _ (h ++ t1)
              (sends_pages keyword (found_items (run e (search_fetch keyword) h).1)))
    as (t2 & E2 & HP2 & Hlen2).
  exists (t1 ++ t2). rewrite E1, E2, sent_app, length_app, <- app_assoc.
  split; [reflexivity |]. split; [| lia].
  apply Forall_app. split; [| exact HP2].
  eapply Forall_impl; [exact HP1 |]. intros req <-. left. reflexivity.
Qed.

(** X9: on every network and for every keyword, the credentials of the
    search API go to the search API only.  [search_news] sends nothing
    but the search request for the keyword; [extract_article_content]
    nothing but the request for its page, which carries the headers of
    a browser; [search_news_with_content] and
    [compare_news_perspectives] nothing but requests of these two
    kinds. *)
Theorem credentials_go_to_search_api_only (e : env) (keyword : str)
    (h : list event) :
  (exists t, (run e (search_news keyword) h).2 = h ++ t
     /\ Forall (eq (search_request keyword)) (sent t))
  /\ (forall url, exists t, (run e (extract_article_content url) h).2 = h ++ t
        /\ Forall (eq (page_request url)) (sent t))
  /\ (exists t, (run e (search_news_with_content keyword) h).2 = h ++ t
        /\ Forall (tool_request keyword) (sent t))
  /\ (exists t, (run e (compare_news_perspectives keyword) h).2 = h ++ t
        /\ Forall (tool_request keyword) (sent t))
  /\ headers (search_request keyword) = NAVER_HEADERS
  /\ url (search_request keyword) = SEARCH_URL
  /\ (forall link, headers (page_request link) = HTTP_HEADERS).
Proof.
  split; [| split; [| split; [| split]]].
  - rewrite search_news_trace. destruct (Py.eqb (Py.strip keyword) []).
    + exists []. rewrite app_nil_r. split; [reflexivity | constructor].
    + destruct (sends_run (eq (search_request keyword)) e (search_fetch keyword)
                  MAX_RETRIES h (sends_fetch _ _ _ _)) as (t & E & HP & _).
      exists t. split; assumption.
  - intros url.
    destruct (sends_run _ e _ _ h (sends_extract url)) as (t & E & HP & _).
    exists t. split; assumption.
  - destruct (content_search_sends e keyword h) as (t & E & HP & _).
    exists t. split; assumption.
  - rewrite run_compare. cbn [snd].
    destruct (content_search_sends e keyword h) as (t & E & HP & _).
    exists t. split; assumption.
  - repeat split.
Qed.

(** X10: on every network, [search_news] sends at most [MAX_RETRIES]
    requests and [extract_article_content] at most [MAX_RETRIES];
    [search_news_with_content] and [compare_news_perspectives] send at
    most [MAX_RETRIES] for the search and [MAX_RETRIES] for each item
    of the response. *)
Theorem request_budget (e : env) (keyword : str) (h : list event) :
  (count_gets (run e (search_news keyword) h).2 <= count_gets h + MAX_RETRIES)%nat
  /\ (forall url,
        (count_gets (run e (extract_article_content url) h).2
         <= count_gets h + MAX_RETRIES)%nat)
  /\ (count_gets (run e (search_news_with_content keyword) h).2
      <= count_gets h
         + MAX_RETRIES * (1 + length (found_items (run e (search_fetch keyword) h).1)))%nat
  /\ (count_gets (run e (compare_news_perspectives keyword) h).2
      <= count_gets h
         + MAX_RETRIES * (1 + length (found_items (run e (search_fetch keyword) h).1)))%nat.
Proof.
  split; [| split; [| split]].
  - rewrite search_news_trace. destruct (Py.eqb (Py.strip keyword) []); [lia |].
    destruct (sends_run (eq (search_request keyword)) e (search_fetch keyword)
                MAX_RETRIES h (sends_fetch _ _ _ _)) as (t & -> & _ & Hlen).
    rewrite count_gets_app, (count_gets_sent t). lia.
  - intros url.
    destruct (sends_run _ e _ _ h (sends_extract url)) as (t & -> & _ & Hlen).
    rewrite count_gets_app, (count_gets_sent t). lia.
  - destruct (content_search_sends e keyword h) as (t & -> & _ & Hlen).
    rewrite count_gets_app, (count_gets_sent t). lia.
  - rewrite run_compare. cbn [snd].
    destruct (content_search_sends e keyword h) as (t & -> & _ & Hlen).
    rewrite count_gets_app, (count_gets_sent t). lia.
Qed.
